(** * CanvasCraft: the canvas interaction engine, embedded and verified

    A shallow embedding of the drawing surface of CanvasCraft:
    - [src/lib/utils.ts]             point-to-segment distance,
    - [src/types/canvas.ts]          the object model,
    - the zustand canvas store       (model mutation, bounded undo/redo log;
                                      the variant with the collaboration
                                      wrappers),
    - the [DrawingCanvas] component  (stroke outline, snapping, hit tests,
                                      pointer handlers).

    Coordinates, sizes and scales are carried as real numbers; [Infinity]
    is written out where the source uses it, and [undefined] optional
    fields are [option]s.  Strings stay strings, arrays are lists, and
    [===] on numbers is decided equality on [R].  The source computes in
    IEEE 754 double precision, so a real-valued definition follows the
    code's control flow and the values it copies and compares, not the
    last bit of an arithmetic result.  [pointToLineDistance], whose value
    the specification describes, is therefore given a second time on
    binary64 ([pointToLineDistance64]), operation for operation, and what
    is proved of its value is proved there.

    The store is a record and every action a function on it.  The
    component's [useState] cells are a second record; a handler is a
    function from the values of the render it closes over to the values of
    the next render.  Objects are never mutated in place by the source
    (every update builds a new object or array), so copies such as
    [[...paths]] are the list itself.

    Drawing on the 2D context, localStorage, the text-editing input and
    the dialogs are not part of the embedding: none of them writes the
    session cells or the history log. *)

From Stdlib Require Import Floats.
From Stdlib Require Import String.
From Stdlib Require Import Reals Lra List ZArith Bool Lia.
Import ListNotations.

Local Open Scope R_scope.
Local Open Scope string_scope.
Local Open Scope list_scope.

(* ================================================================== *)
(** * Numbers *)
(* ================================================================== *)

(** The comparisons of the source as booleans. *)
Definition Rle_b (a b : R) : bool := if Rle_dec a b then true else false.
Definition Rlt_b (a b : R) : bool := if Rlt_dec a b then true else false.
Definition Req_b (a b : R) : bool := if Req_dec_T a b then true else false.

(** [v || d] on an optional number: [undefined] and [0] are both falsy. *)
Definition num_or (v : option R) (d : R) : R :=
  match v with
  | Some r => if Req_b r 0 then d else r
  | None => d
  end.

(** A number that may be [Infinity] (the seed of the snapping reductions). *)
Inductive ExtNum : Type :=
| Fin (r : R)
| Infinity.

(** [Math.abs(x - c)] for a possibly infinite [c]. *)
Definition abs_diff (x : R) (c : ExtNum) : ExtNum :=
  match c with
  | Fin r => Fin (Rabs (x - r))
  | Infinity => Infinity
  end.

(** [d < e] for a finite [d]. *)
Definition lt_ext (d : R) (e : ExtNum) : bool :=
  match e with
  | Fin r => Rlt_b d r
  | Infinity => true
  end.

(** [Math.atan2(y, x)] over the reals. *)
Definition atan2 (y x : R) : R :=
  if Rlt_dec 0 x then atan (y / x)
  else if Rlt_dec x 0 then
         (if Rle_dec 0 y then atan (y / x) + PI else atan (y / x) - PI)
  else if Rlt_dec 0 y then PI / 2
  else if Rlt_dec y 0 then - (PI / 2)
  else 0.

(** [history[i]] and friends: array lookup at an integer index;
    out of range gives [undefined]. *)
Definition nth_Z {A : Type} (l : list A) (i : Z) : option A :=
  if (i <? 0)%Z then None else nth_error l (Z.to_nat i).

(** [l.slice(0, e)]: a negative end counts from the end of the array. *)
Definition slice0 {A : Type} (l : list A) (e : Z) : list A :=
  let len := Z.of_nat (length l) in
  let stop := if (e <? 0)%Z then Z.max (len + e) 0 else Z.min e len in
  firstn (Z.to_nat stop) l.

(** [ids.includes(id)]. *)
Definition includes (ids : list string) (id : string) : bool :=
  existsb (String.eqb id) ids.

(* ================================================================== *)
(** * src/types/canvas.ts *)
(* ================================================================== *)

Inductive Tool : Type :=
| tool_select | tool_hand | tool_pen | tool_line | tool_rectangle
| tool_circle | tool_arrow | tool_text | tool_image | tool_eraser.

Definition Tool_eqb (a b : Tool) : bool :=
  match a, b with
  | tool_select, tool_select | tool_hand, tool_hand | tool_pen, tool_pen
  | tool_line, tool_line | tool_rectangle, tool_rectangle
  | tool_circle, tool_circle | tool_arrow, tool_arrow
  | tool_text, tool_text | tool_image, tool_image
  | tool_eraser, tool_eraser => true
  | _, _ => false
  end.

Inductive ShapeType : Type :=
| st_rectangle | st_circle | st_arrow | st_text | st_line | st_image.

Record CanvasPath : Type := mkPath {
  path_id : string;
  path_points : list R;
  path_stroke : string;
  path_strokeWidth : R;
  path_fill : option string;
  path_opacity : option R
}.

Record CanvasShape : Type := mkShape {
  shape_id : string;
  shape_type : ShapeType;
  shape_x : R;
  shape_y : R;
  shape_width : option R;
  shape_height : option R;
  shape_radius : option R;
  shape_text : option string;
  shape_fontSize : option R;
  shape_fontFamily : option string;
  shape_backgroundColor : option string;
  shape_isbold : option bool;
  shape_isitalic : option bool;
  shape_isunderline : option bool;
  shape_isstrikethrough : option bool;
  shape_points : option (list R);
  shape_stroke : string;
  shape_strokeWidth : R;
  shape_fill : option string;
  shape_opacity : option R;
  shape_rotation : R;
  shape_src : option string;
  shape_filter : option string
}.

(** [Partial<CanvasShape>]: a key is either absent ([None]) or carries a
    value; for an optional field the value may itself be [undefined]. *)
Record ShapeUpdates : Type := mkShapeUpdates {
  u_id : option string;
  u_type : option ShapeType;
  u_x : option R;
  u_y : option R;
  u_width : option (option R);
  u_height : option (option R);
  u_radius : option (option R);
  u_text : option (option string);
  u_fontSize : option (option R);
  u_fontFamily : option (option string);
  u_backgroundColor : option (option string);
  u_isbold : option (option bool);
  u_isitalic : option (option bool);
  u_isunderline : option (option bool);
  u_isstrikethrough : option (option bool);
  u_points : option (option (list R));
  u_stroke : option string;
  u_strokeWidth : option R;
  u_fill : option (option string);
  u_opacity : option (option R);
  u_rotation : option R;
  u_src : option (option string);
  u_filter : option (option string)
}.

(** A key of the second object wins over the first. *)
Definition over {A : Type} (u : option A) (old : A) : A :=
  match u with
  | Some v => v
  | None => old
  end.

(** [{ ...shape, ...updates }]. *)
Definition spread_shape (s : CanvasShape) (u : ShapeUpdates) : CanvasShape :=
  {| shape_id := over (u_id u) (shape_id s);
     shape_type := over (u_type u) (shape_type s);
     shape_x := over (u_x u) (shape_x s);
     shape_y := over (u_y u) (shape_y s);
     shape_width := over (u_width u) (shape_width s);
     shape_height := over (u_height u) (shape_height s);
     shape_radius := over (u_radius u) (shape_radius s);
     shape_text := over (u_text u) (shape_text s);
     shape_fontSize := over (u_fontSize u) (shape_fontSize s);
     shape_fontFamily := over (u_fontFamily u) (shape_fontFamily s);
     shape_backgroundColor :=
       over (u_backgroundColor u) (shape_backgroundColor s);
     shape_isbold := over (u_isbold u) (shape_isbold s);
     shape_isitalic := over (u_isitalic u) (shape_isitalic s);
     shape_isunderline := over (u_isunderline u) (shape_isunderline s);
     shape_isstrikethrough :=
       over (u_isstrikethrough u) (shape_isstrikethrough s);
     shape_points := over (u_points u) (shape_points s);
     shape_stroke := over (u_stroke u) (shape_stroke s);
     shape_strokeWidth := over (u_strokeWidth u) (shape_strokeWidth s);
     shape_fill := over (u_fill u) (shape_fill s);
     shape_opacity := over (u_opacity u) (shape_opacity s);
     shape_rotation := over (u_rotation u) (shape_rotation s);
     shape_src := over (u_src u) (shape_src s);
     shape_filter := over (u_filter u) (shape_filter s) |}.

(** A whole shape used as an update object, as the resize handler does with
    [newShape = { ...shape }]: the required keys are present, an optional
    key is present when the shape has a value for it. *)
Definition updates_of_shape (s : CanvasShape) : ShapeUpdates :=
  {| u_id := Some (shape_id s);
     u_type := Some (shape_type s);
     u_x := Some (shape_x s);
     u_y := Some (shape_y s);
     u_width := option_map Some (shape_width s);
     u_height := option_map Some (shape_height s);
     u_radius := option_map Some (shape_radius s);
     u_text := option_map Some (shape_text s);
     u_fontSize := option_map Some (shape_fontSize s);
     u_fontFamily := option_map Some (shape_fontFamily s);
     u_backgroundColor := option_map Some (shape_backgroundColor s);
     u_isbold := option_map Some (shape_isbold s);
     u_isitalic := option_map Some (shape_isitalic s);
     u_isunderline := option_map Some (shape_isunderline s);
     u_isstrikethrough := option_map Some (shape_isstrikethrough s);
     u_points := option_map Some (shape_points s);
     u_stroke := Some (shape_stroke s);
     u_strokeWidth := Some (shape_strokeWidth s);
     u_fill := option_map Some (shape_fill s);
     u_opacity := option_map Some (shape_opacity s);
     u_rotation := Some (shape_rotation s);
     u_src := option_map Some (shape_src s);
     u_filter := option_map Some (shape_filter s) |}.

Inductive GuideType : Type :=
| horizontal
| vertical.

Record GuideLine : Type := mkGuide {
  guide_id : string;
  guide_type : GuideType;
  guide_position : R;
  guide_isTemp : option bool
}.

(* ================================================================== *)
(** * src/lib/utils.ts *)
(* ================================================================== *)

Definition pointToLineDistance (px py x1 y1 x2 y2 : R) : R :=
  let lineLengthSq := (x2 - x1) * (x2 - x1) + (y2 - y1) * (y2 - y1) in
  if Req_dec_T lineLengthSq 0 then
    sqrt ((px - x1) * (px - x1) + (py - y1) * (py - y1))
  else
    let t :=
      Rmax 0
        (Rmin 1
           (((px - x1) * (x2 - x1) + (py - y1) * (y2 - y1)) / lineLengthSq))
    in
    let projectionX := x1 + t * (x2 - x1) in
    let projectionY := y1 + t * (y2 - y1) in
    sqrt ((px - projectionX) * (px - projectionX)
          + (py - projectionY) * (py - projectionY)).

(** The same function on binary64, the numbers the source runs on.
    [Math.max] and [Math.min] return NaN when an argument is NaN and order
    [-0] below [+0]; [===] is the IEEE equality, under which [-0] equals
    [+0] and NaN equals nothing. *)
Definition Math_max (a b : float) : float :=
  if is_nan a then a
  else if is_nan b then b
  else if (a <? b)%float then b
  else if (b <? a)%float then a
  else if get_sign a then b else a.

Definition Math_min (a b : float) : float :=
  if is_nan a then a
  else if is_nan b then b
  else if (a <? b)%float then a
  else if (b <? a)%float then b
  else if get_sign a then a else b.

Definition pointToLineDistance64 (px py x1 y1 x2 y2 : float) : float :=
  let lineLengthSq :=
    ((x2 - x1) * (x2 - x1) + (y2 - y1) * (y2 - y1))%float in
  if (lineLengthSq =? 0)%float then
    PrimFloat.sqrt ((px - x1) * (px - x1) + (py - y1) * (py - y1))%float
  else
    let t :=
      Math_max 0%float
        (Math_min 1%float
           (((px - x1) * (x2 - x1) + (py - y1) * (y2 - y1))
            / lineLengthSq)%float) in
    let projectionX := (x1 + t * (x2 - x1))%float in
    let projectionY := (y1 + t * (y2 - y1))%float in
    PrimFloat.sqrt ((px - projectionX) * (px - projectionX)
                    + (py - projectionY) * (py - projectionY))%float.

(* ================================================================== *)
(** * The stroke outline ([getStroke] of the canvas component) *)
(* ================================================================== *)

(** The [options] argument: every key may be missing. *)
Record StrokeOptions : Type := mkStrokeOptions {
  opt_size : option R;
  opt_thinning : option R;
  opt_simulatePressure : option bool
}.

Definition Point : Type := (R * R)%type.
Definition InputPoint : Type := (R * R * R)%type.

Definition ip_x (p : InputPoint) : R := fst (fst p).
Definition ip_y (p : InputPoint) : R := snd (fst p).
Definition ip_pressure (p : InputPoint) : R := snd p.

(** [points.map((point, i) => ...)] with the index made explicit. *)
Fixpoint mapi_from {A B : Type} (f : A -> nat -> B) (i : nat) (l : list A)
  : list B :=
  match l with
  | [] => []
  | a :: l' => f a i :: mapi_from f (S i) l'
  end.

Definition mapi {A B : Type} (f : A -> nat -> B) (l : list A) : list B :=
  mapi_from f 0 l.

Definition getStroke (points : list Point) (options : StrokeOptions)
  : list Point :=
  let size := match opt_size options with Some v => v | None => 8 end in
  let thinning :=
    match opt_thinning options with Some v => v | None => 0.5 end in
  let simulatePressure :=
    match opt_simulatePressure options with Some v => v | None => true end in
  let len := INR (length points) in
  let inputPoints : list InputPoint :=
    mapi (fun point i =>
            let pressure :=
              if simulatePressure
              then Rmin 1 (1 - Rabs (INR i - len / 2) / (len / 2))
              else 0.5 in
            (fst point, snd point, pressure)) points in
  let at_ (i : nat) : InputPoint := nth i inputPoints (0, 0, 0) in
  let n := length inputPoints in
  (* first loop: i = 0 .. n-1 *)
  let forward :=
    flat_map
      (fun i =>
         let p := at_ i in
         let currentSize := size * (1 - thinning * (1 - ip_pressure p)) in
         match i with
         | O =>
             [ (ip_x p - currentSize / 2, ip_y p - currentSize / 2);
               (ip_x p + currentSize / 2, ip_y p - currentSize / 2) ]
         | S j =>
             let prevPoint := at_ j in
             let angle :=
               atan2 (ip_y p - ip_y prevPoint) (ip_x p - ip_x prevPoint) in
             let perpAngle := angle + PI / 2 in
             [ (ip_x p + (cos perpAngle * currentSize) / 2,
                ip_y p + (sin perpAngle * currentSize) / 2) ]
         end)
      (seq 0 n) in
  (* second loop: i = n-1 .. 0 *)
  let backward :=
    map
      (fun i =>
         let p := at_ i in
         let currentSize := size * (1 - thinning * (1 - ip_pressure p)) in
         let angle :=
           match i with
           | O => 0
           | S j => atan2 (ip_y p - ip_y (at_ j)) (ip_x p - ip_x (at_ j))
           end in
         let perpAngle := angle - PI / 2 in
         (ip_x p + (cos perpAngle * currentSize) / 2,
          ip_y p + (sin perpAngle * currentSize) / 2))
      (rev (seq 0 n)) in
  forward ++ backward.

(* ================================================================== *)
(** * The canvas store *)
(* ================================================================== *)

(** One entry of the undo/redo log. *)
Record HistoryEntry : Type := mkEntry {
  entry_paths : list CanvasPath;
  entry_shapes : list CanvasShape
}.

(** What the store hands to the collaboration service.  The service, its
    ShareDB document and the network are outside the model; what comes back
    from it enters through the state-change callback ([setPaths] and
    [setShapes]). *)
Inductive CollabCall : Type :=
| CallAddPath (path : CanvasPath)
| CallAddShape (shape : CanvasShape)
| CallUpdateShape (id : string) (updates : ShapeUpdates)
| CallDeleteSelected (ids : list string)
| CallClearCanvas.

(** The state held by the store.  Writing to localStorage leaves this state
    alone and is not modelled; the fields that only feed toolbar widgets
    (grid switch, loading and error banners) are left out. *)
Record CanvasStore : Type := mkStore {
  tool : Tool;
  strokeColor : string;
  strokeWidth : R;
  fillColor : string;
  opacity : R;
  snapEnabled : bool;
  paths : list CanvasPath;
  shapes : list CanvasShape;
  selectedIds : list string;
  stagePos : Point;
  stageScale : R;
  history : list HistoryEntry;
  historyIndex : Z;
  isCollaborating : bool;
  collabService : bool;          (* a service instance exists *)
  collabCalls : list CollabCall  (* calls made on the service, oldest first *)
}.

Definition set_tool (s : CanvasStore) (v : Tool) : CanvasStore :=
  mkStore v (strokeColor s) (strokeWidth s) (fillColor s) (opacity s)
          (snapEnabled s) (paths s) (shapes s) (selectedIds s) (stagePos s)
          (stageScale s) (history s) (historyIndex s) (isCollaborating s)
          (collabService s) (collabCalls s).

Definition set_paths (s : CanvasStore) (v : list CanvasPath) : CanvasStore :=
  mkStore (tool s) (strokeColor s) (strokeWidth s) (fillColor s) (opacity s)
          (snapEnabled s) v (shapes s) (selectedIds s) (stagePos s)
          (stageScale s) (history s) (historyIndex s) (isCollaborating s)
          (collabService s) (collabCalls s).

Definition set_shapes (s : CanvasStore) (v : list CanvasShape) : CanvasStore :=
  mkStore (tool s) (strokeColor s) (strokeWidth s) (fillColor s) (opacity s)
          (snapEnabled s) (paths s) v (selectedIds s) (stagePos s)
          (stageScale s) (history s) (historyIndex s) (isCollaborating s)
          (collabService s) (collabCalls s).

Definition set_selectedIds (s : CanvasStore) (v : list string) : CanvasStore :=
  mkStore (tool s) (strokeColor s) (strokeWidth s) (fillColor s) (opacity s)
          (snapEnabled s) (paths s) (shapes s) v (stagePos s)
          (stageScale s) (history s) (historyIndex s) (isCollaborating s)
          (collabService s) (collabCalls s).

Definition set_stagePos (s : CanvasStore) (v : Point) : CanvasStore :=
  mkStore (tool s) (strokeColor s) (strokeWidth s) (fillColor s) (opacity s)
          (snapEnabled s) (paths s) (shapes s) (selectedIds s) v
          (stageScale s) (history s) (historyIndex s) (isCollaborating s)
          (collabService s) (collabCalls s).

Definition set_stageScale (s : CanvasStore) (v : R) : CanvasStore :=
  mkStore (tool s) (strokeColor s) (strokeWidth s) (fillColor s) (opacity s)
          (snapEnabled s) (paths s) (shapes s) (selectedIds s) (stagePos s)
          v (history s) (historyIndex s) (isCollaborating s)
          (collabService s) (collabCalls s).

Definition set_history (s : CanvasStore) (v : list HistoryEntry)
  : CanvasStore :=
  mkStore (tool s) (strokeColor s) (strokeWidth s) (fillColor s) (opacity s)
          (snapEnabled s) (paths s) (shapes s) (selectedIds s) (stagePos s)
          (stageScale s) v (historyIndex s) (isCollaborating s)
          (collabService s) (collabCalls s).

Definition set_historyIndex (s : CanvasStore) (v : Z) : CanvasStore :=
  mkStore (tool s) (strokeColor s) (strokeWidth s) (fillColor s) (opacity s)
          (snapEnabled s) (paths s) (shapes s) (selectedIds s) (stagePos s)
          (stageScale s) (history s) v (isCollaborating s)
          (collabService s) (collabCalls s).

Definition set_snapEnabled (s : CanvasStore) (v : bool) : CanvasStore :=
  mkStore (tool s) (strokeColor s) (strokeWidth s) (fillColor s) (opacity s)
          v (paths s) (shapes s) (selectedIds s) (stagePos s)
          (stageScale s) (history s) (historyIndex s) (isCollaborating s)
          (collabService s) (collabCalls s).

(** [collabService.f(...)] as seen from the store: the call is recorded.
    The service goes on to submit to the shared document and, when it is
    connected, runs the state-change callback before it returns, with
    whatever the document then holds.  That callback is the operation
    [stateChangeCallback] further down and is not run inside this call: it
    writes the arrays and the collaboration switch only, the call writes
    the record of calls only, so a callback inside the call leaves the
    store a callback just before the call leaves.  The states the store
    can reach are therefore the same; what a single handler leaves in the
    arrays is not, and is stated below with collaboration switched off. *)
Definition call_service (s : CanvasStore) (c : CollabCall) : CanvasStore :=
  mkStore (tool s) (strokeColor s) (strokeWidth s) (fillColor s) (opacity s)
          (snapEnabled s) (paths s) (shapes s) (selectedIds s) (stagePos s)
          (stageScale s) (history s) (historyIndex s) (isCollaborating s)
          (collabService s) (collabCalls s ++ [c]).

(** The store as [create] builds it from [loadInitialData()]. *)
Definition initial_store (initialPaths : list CanvasPath)
           (initialShapes : list CanvasShape) : CanvasStore :=
  let nonempty :=
    (0 <? length initialPaths)%nat || (0 <? length initialShapes)%nat in
  {| tool := tool_pen;
     strokeColor := "#000000";
     strokeWidth := 2;
     fillColor := "transparent";
     opacity := 1;
     snapEnabled := true;
     paths := initialPaths;
     shapes := initialShapes;
     selectedIds := [];
     stagePos := (0, 0);
     stageScale := 1;
     history :=
       if nonempty then [mkEntry initialPaths initialShapes] else [];
     historyIndex := if nonempty then 0%Z else (-1)%Z;
     isCollaborating := false;
     collabService := false;
     collabCalls := [] |}.

Definition setTool (t : Tool) (s : CanvasStore) : CanvasStore := set_tool s t.
Definition setSnapEnabled (enable : bool) (s : CanvasStore) : CanvasStore :=
  set_snapEnabled s enable.

(** ** History *)

Definition saveToHistory (s : CanvasStore) : CanvasStore :=
  let newHistory :=
    slice0 (history s) (historyIndex s + 1)
    ++ [mkEntry (paths s) (shapes s)] in
  if (50 <? length newHistory)%nat then
    (* newHistory.shift(): the cursor is left where it is *)
    set_history s (tl newHistory)
  else
    set_history (set_historyIndex s (historyIndex s + 1)%Z) newHistory.

(** An event handler that dereferences [undefined] throws; [None] is that
    TypeError. *)
Definition undo (s : CanvasStore) : option CanvasStore :=
  if (0 <? historyIndex s)%Z then
    match nth_Z (history s) (historyIndex s - 1) with
    | Some prevState =>
        Some (set_selectedIds
                (set_historyIndex
                   (set_shapes (set_paths s (entry_paths prevState))
                               (entry_shapes prevState))
                   (historyIndex s - 1)%Z)
                [])
    | None => None
    end
  else Some s.

Definition redo (s : CanvasStore) : option CanvasStore :=
  if (historyIndex s <? Z.of_nat (length (history s)) - 1)%Z then
    match nth_Z (history s) (historyIndex s + 1) with
    | Some nextState =>
        Some (set_selectedIds
                (set_historyIndex
                   (set_shapes (set_paths s (entry_paths nextState))
                               (entry_shapes nextState))
                   (historyIndex s + 1)%Z)
                [])
    | None => None
    end
  else Some s.

Definition canUndo (s : CanvasStore) : bool := (0 <? historyIndex s)%Z.
Definition canRedo (s : CanvasStore) : bool :=
  (historyIndex s <? Z.of_nat (length (history s)) - 1)%Z.

(** ** Model mutation *)

Definition addPath (path : CanvasPath) (s : CanvasStore) : CanvasStore :=
  saveToHistory (set_paths s (paths s ++ [path])).

Definition addShape (shape : CanvasShape) (s : CanvasStore) : CanvasStore :=
  saveToHistory (set_shapes s (shapes s ++ [shape])).

Definition updateShape (id : string) (updates : ShapeUpdates)
           (s : CanvasStore) : CanvasStore :=
  saveToHistory
    (set_shapes s
       (map (fun shape =>
               if String.eqb (shape_id shape) id
               then spread_shape shape updates
               else shape)
            (shapes s))).

Definition deleteShape (id : string) (s : CanvasStore) : CanvasStore :=
  saveToHistory
    (set_shapes s
       (filter (fun shape => negb (String.eqb (shape_id shape) id))
               (shapes s))).

Definition deletePath (id : string) (s : CanvasStore) : CanvasStore :=
  saveToHistory
    (set_paths s
       (filter (fun path => negb (String.eqb (path_id path) id)) (paths s))).

Definition clearPaths (s : CanvasStore) : CanvasStore :=
  saveToHistory (set_paths s []).

Definition clearShapes (s : CanvasStore) : CanvasStore :=
  saveToHistory (set_shapes s []).

Definition clearCanvas (s : CanvasStore) : CanvasStore :=
  saveToHistory (set_selectedIds (set_shapes (set_paths s []) []) []).

Definition setSelectedIds (ids : list string) (s : CanvasStore)
  : CanvasStore := set_selectedIds s ids.

Definition clearSelection (s : CanvasStore) : CanvasStore :=
  set_selectedIds s [].

Definition deleteSelected (s : CanvasStore) : CanvasStore :=
  let ids := selectedIds s in
  saveToHistory
    (set_selectedIds
       (set_paths
          (set_shapes s
             (filter (fun shape => negb (includes ids (shape_id shape)))
                     (shapes s)))
          (filter (fun path => negb (includes ids (path_id path)))
                  (paths s)))
       []).

Definition setStagePos (pos : Point) (s : CanvasStore) : CanvasStore :=
  set_stagePos s pos.
Definition setStageScale (scale : R) (s : CanvasStore) : CanvasStore :=
  set_stageScale s scale.

(** ** The collaboration boundary *)

(** The inbound side: the state-change callback replaces the arrays; no
    history entry is written. *)
Definition setPaths (ps : list CanvasPath) (s : CanvasStore) : CanvasStore :=
  set_paths s ps.
Definition setShapes (ss : list CanvasShape) (s : CanvasStore)
  : CanvasStore := set_shapes s ss.

(** [collabService && isCollaborating]. *)
Definition collab_active (s : CanvasStore) : bool :=
  collabService s && isCollaborating s.

Definition collaborativeAddPath (path : CanvasPath) (s : CanvasStore)
  : CanvasStore :=
  if collab_active s then call_service s (CallAddPath path)
  else addPath path s.

Definition collaborativeAddShape (shape : CanvasShape) (s : CanvasStore)
  : CanvasStore :=
  if collab_active s then call_service s (CallAddShape shape)
  else addShape shape s.

Definition collaborativeUpdateShape (id : string) (updates : ShapeUpdates)
           (s : CanvasStore) : CanvasStore :=
  if collab_active s
  then updateShape id updates (call_service s (CallUpdateShape id updates))
  else updateShape id updates s.

Definition collaborativeDeleteSelected (s : CanvasStore) : CanvasStore :=
  if collab_active s
  then deleteSelected (call_service s (CallDeleteSelected (selectedIds s)))
  else deleteSelected s.

Definition collaborativeClearCanvas (s : CanvasStore) : CanvasStore :=
  if collab_active s then call_service s CallClearCanvas
  else clearCanvas s.

(* ================================================================== *)
(** * The canvas component: state *)
(* ================================================================== *)

Inductive Handle : Type :=
| nw | ne | sw | se | n_ | s_ | w_ | e_.

Record EditingText : Type := mkEditingText {
  et_id : string;
  et_x : R;
  et_y : R;
  et_text : string;
  et_fontSize : R
}.

(** The [useState] cells of [DrawingCanvas] that the pointer handlers read
    or write. *)
Record Canvas : Type := mkCanvas {
  isDrawing : bool;
  isPanning : bool;
  isDragging : bool;
  isResizing : bool;
  resizeHandle : option Handle;
  startPos : option Point;
  lastPanPoint : option Point;
  dragOffset : Point;
  currentPath : list Point;
  currentShape : option CanvasShape;
  editingText : option EditingText;
  tempGuides : list GuideLine;
  snapDistance : R;
  erasedElements : list string;
  isMouseDown : bool
}.

Definition initial_canvas : Canvas :=
  {| isDrawing := false;
     isPanning := false;
     isDragging := false;
     isResizing := false;
     resizeHandle := None;
     startPos := None;
     lastPanPoint := None;
     dragOffset := (0, 0);
     currentPath := [];
     currentShape := None;
     editingText := None;
     tempGuides := [];
     snapDistance := 1;
     erasedElements := [];
     isMouseDown := false |}.

Definition setIsDrawing (v : bool) (c : Canvas) : Canvas :=
  mkCanvas v (isPanning c) (isDragging c) (isResizing c) (resizeHandle c)
           (startPos c) (lastPanPoint c) (dragOffset c) (currentPath c)
           (currentShape c) (editingText c) (tempGuides c) (snapDistance c)
           (erasedElements c) (isMouseDown c).

Definition setIsPanning (v : bool) (c : Canvas) : Canvas :=
  mkCanvas (isDrawing c) v (isDragging c) (isResizing c) (resizeHandle c)
           (startPos c) (lastPanPoint c) (dragOffset c) (currentPath c)
           (currentShape c) (editingText c) (tempGuides c) (snapDistance c)
           (erasedElements c) (isMouseDown c).

Definition setIsDragging (v : bool) (c : Canvas) : Canvas :=
  mkCanvas (isDrawing c) (isPanning c) v (isResizing c) (resizeHandle c)
           (startPos c) (lastPanPoint c) (dragOffset c) (currentPath c)
           (currentShape c) (editingText c) (tempGuides c) (snapDistance c)
           (erasedElements c) (isMouseDown c).

Definition setIsResizing (v : bool) (c : Canvas) : Canvas :=
  mkCanvas (isDrawing c) (isPanning c) (isDragging c) v (resizeHandle c)
           (startPos c) (lastPanPoint c) (dragOffset c) (currentPath c)
           (currentShape c) (editingText c) (tempGuides c) (snapDistance c)
           (erasedElements c) (isMouseDown c).

Definition setResizeHandle (v : option Handle) (c : Canvas) : Canvas :=
  mkCanvas (isDrawing c) (isPanning c) (isDragging c) (isResizing c) v
           (startPos c) (lastPanPoint c) (dragOffset c) (currentPath c)
           (currentShape c) (editingText c) (tempGuides c) (snapDistance c)
           (erasedElements c) (isMouseDown c).

Definition setStartPos (v : option Point) (c : Canvas) : Canvas :=
  mkCanvas (isDrawing c) (isPanning c) (isDragging c) (isResizing c)
           (resizeHandle c) v (lastPanPoint c) (dragOffset c) (currentPath c)
           (currentShape c) (editingText c) (tempGuides c) (snapDistance c)
           (erasedElements c) (isMouseDown c).

Definition setLastPanPoint (v : option Point) (c : Canvas) : Canvas :=
  mkCanvas (isDrawing c) (isPanning c) (isDragging c) (isResizing c)
           (resizeHandle c) (startPos c) v (dragOffset c) (currentPath c)
           (currentShape c) (editingText c) (tempGuides c) (snapDistance c)
           (erasedElements c) (isMouseDown c).

Definition setDragOffset (v : Point) (c : Canvas) : Canvas :=
  mkCanvas (isDrawing c) (isPanning c) (isDragging c) (isResizing c)
           (resizeHandle c) (startPos c) (lastPanPoint c) v (currentPath c)
           (currentShape c) (editingText c) (tempGuides c) (snapDistance c)
           (erasedElements c) (isMouseDown c).

Definition setCurrentPath (v : list Point) (c : Canvas) : Canvas :=
  mkCanvas (isDrawing c) (isPanning c) (isDragging c) (isResizing c)
           (resizeHandle c) (startPos c) (lastPanPoint c) (dragOffset c) v
           (currentShape c) (editingText c) (tempGuides c) (snapDistance c)
           (erasedElements c) (isMouseDown c).

Definition setCurrentShape (v : option CanvasShape) (c : Canvas) : Canvas :=
  mkCanvas (isDrawing c) (isPanning c) (isDragging c) (isResizing c)
           (resizeHandle c) (startPos c) (lastPanPoint c) (dragOffset c)
           (currentPath c) v (editingText c) (tempGuides c) (snapDistance c)
           (erasedElements c) (isMouseDown c).

Definition setEditingText (v : option EditingText) (c : Canvas) : Canvas :=
  mkCanvas (isDrawing c) (isPanning c) (isDragging c) (isResizing c)
           (resizeHandle c) (startPos c) (lastPanPoint c) (dragOffset c)
           (currentPath c) (currentShape c) v (tempGuides c) (snapDistance c)
           (erasedElements c) (isMouseDown c).

Definition setTempGuides (v : list GuideLine) (c : Canvas) : Canvas :=
  mkCanvas (isDrawing c) (isPanning c) (isDragging c) (isResizing c)
           (resizeHandle c) (startPos c) (lastPanPoint c) (dragOffset c)
           (currentPath c) (currentShape c) (editingText c) v (snapDistance c)
           (erasedElements c) (isMouseDown c).

Definition setErasedElements (v : list string) (c : Canvas) : Canvas :=
  mkCanvas (isDrawing c) (isPanning c) (isDragging c) (isResizing c)
           (resizeHandle c) (startPos c) (lastPanPoint c) (dragOffset c)
           (currentPath c) (currentShape c) (editingText c) (tempGuides c)
           (snapDistance c) v (isMouseDown c).

Definition setIsMouseDown (v : bool) (c : Canvas) : Canvas :=
  mkCanvas (isDrawing c) (isPanning c) (isDragging c) (isResizing c)
           (resizeHandle c) (startPos c) (lastPanPoint c) (dragOffset c)
           (currentPath c) (currentShape c) (editingText c) (tempGuides c)
           (snapDistance c) (erasedElements c) v.

(** What a handler gets from outside the component and the store: the
    canvas element's bounding rectangle ([None] while [canvasRef.current]
    is null) and the decimal text of [Date.now()]. *)
Record Env : Type := mkEnv {
  canvas_rect : option Point;   (* rect.left, rect.top *)
  now : string
}.

Record MouseEvent : Type := mkMouseEvent {
  clientX : R;
  clientY : R;
  shiftKey : bool
}.

(** The component together with the store it is subscribed to.  A handler
    runs on the values of its render (the argument) and leaves the next
    ones (the result). *)
Record World : Type := mkWorld {
  comp : Canvas;
  store : CanvasStore
}.

(** How a call of a handler ends.  The component destructures
    [collaborativeUpdatePath] and [eraseSelected] from the store, which
    defines neither: calling them throws a [TypeError].  [Threw w] carries
    the state at the throw: the updates made before it stand, what follows
    it in the handler is not run. *)
Inductive Outcome : Type :=
| Returned (w : World)
| Threw (w : World).

Definition state_of (o : Outcome) : World :=
  match o with
  | Returned w => w
  | Threw w => w
  end.

Definition threw (o : Outcome) : bool :=
  match o with
  | Returned _ => false
  | Threw _ => true
  end.

(* ================================================================== *)
(** * The canvas component: hit tests and snapping *)
(* ================================================================== *)

Definition getCanvasCoordinates (env : Env) (s : CanvasStore)
           (cx cy : R) : Point :=
  match canvas_rect env with
  | None => (0, 0)
  | Some (rect_left, rect_top) =>
      ((cx - rect_left - fst (stagePos s)) / stageScale s,
       (cy - rect_top - snd (stagePos s)) / stageScale s)
  end.

(** The loop runs from the last shape to the first. *)
Definition findShapeAtPosition (shapes : list CanvasShape) (x y : R)
  : option CanvasShape :=
  find (fun shape =>
          Rle_b (shape_x shape) x
          && Rle_b x (shape_x shape + num_or (shape_width shape) 0)
          && Rle_b (shape_y shape) y
          && Rle_b y (shape_y shape + num_or (shape_height shape) 0))
       (rev shapes).

(** The inner loop of [findPathAtPosition]: [j] advances by 2 while four
    coordinates remain. *)
Fixpoint segment_hit (x y hitDistance : R) (points : list R) : bool :=
  match points with
  | x1 :: y1 :: rest =>
      match rest with
      | x2 :: y2 :: _ =>
          if Rle_b (pointToLineDistance x y x1 y1 x2 y2) hitDistance
          then true
          else segment_hit x y hitDistance rest
      | _ => false
      end
  | _ => false
  end.

Definition findPathAtPosition (paths : list CanvasPath) (stageScale : R)
           (x y : R) : option CanvasPath :=
  find (fun path =>
          segment_hit x y (path_strokeWidth path / 2 / stageScale)
                      (path_points path))
       (rev paths).

Definition getResizeHandle (stageScale : R) (x y : R) (shape : CanvasShape)
  : option Handle :=
  let handleSize := 8 / stageScale in
  let w := num_or (shape_width shape) 0 in
  let h := num_or (shape_height shape) 0 in
  let handles : list (Handle * R * R) :=
    [ (nw, shape_x shape - handleSize / 2, shape_y shape - handleSize / 2);
      (ne, shape_x shape + w - handleSize / 2,
           shape_y shape - handleSize / 2);
      (sw, shape_x shape - handleSize / 2,
           shape_y shape + h - handleSize / 2);
      (se, shape_x shape + w - handleSize / 2,
           shape_y shape + h - handleSize / 2);
      (n_, shape_x shape + w / 2 - handleSize / 2,
           shape_y shape - handleSize / 2);
      (s_, shape_x shape + w / 2 - handleSize / 2,
           shape_y shape + h - handleSize / 2);
      (w_, shape_x shape - handleSize / 2,
           shape_y shape + h / 2 - handleSize / 2);
      (e_, shape_x shape + w - handleSize / 2,
           shape_y shape + h / 2 - handleSize / 2) ] in
  match
    find (fun handle =>
            let '(_, hx, hy) := handle in
            Rle_b hx x && Rle_b x (hx + handleSize)
            && Rle_b hy y && Rle_b y (hy + handleSize))
         handles
  with
  | Some (name, _, _) => Some name
  | None => None
  end.

(** The nine snap points of one shape, in the order they are pushed. *)
Definition snap_points_of (shape : CanvasShape) : list Point :=
  let x := shape_x shape in
  let y := shape_y shape in
  let width := match shape_width shape with Some v => v | None => 0 end in
  let height := match shape_height shape with Some v => v | None => 0 end in
  [ (x, y); (x + width, y); (x, y + height); (x + width, y + height);
    (x + width / 2, y + height / 2);
    (x + width / 2, y); (x + width / 2, y + height);
    (x, y + height / 2); (x + width, y + height / 2) ].

Definition getAllSnapPoints (shapes : list CanvasShape)
           (currentShape : option CanvasShape) : list Point :=
  flat_map
    (fun shape =>
       match currentShape with
       | Some cur =>
           if String.eqb (shape_id shape) (shape_id cur) then []
           else snap_points_of shape
       | None => snap_points_of shape
       end)
    shapes.

(** The callback of the two [snapPoints.reduce(..., Infinity)] of
    [applySnapping], for the coordinate [v] of the candidate and the
    projection [coord] ([pos.x] or [pos.y]) of a snap point. *)
Definition snap_pick (v tolerance : R) (coord : Point -> R)
           (closest : ExtNum) (pos : Point) : ExtNum :=
  let distance := Rabs (v - coord pos) in
  if lt_ext distance (abs_diff v closest) && Rle_b distance tolerance
  then Fin (coord pos)
  else closest.

Definition closest_snap (v tolerance : R) (coord : Point -> R)
           (snapPoints : list Point) : ExtNum :=
  fold_left (snap_pick v tolerance coord) snapPoints Infinity.

(** [applySnapping(x, y, shape)].  The second component is the argument of
    [setTempGuides], [None] when the function returns before calling it. *)
Definition applySnapping (now : string) (snapEnabled : bool)
           (snapDistance stageScale : R) (shapes : list CanvasShape)
           (x y : R) (shape : option CanvasShape)
  : Point * option (list GuideLine) :=
  if negb snapEnabled then ((x, y), None)
  else
    let snapPoints := getAllSnapPoints shapes shape in
    let closestX := closest_snap x (snapDistance / stageScale) fst snapPoints in
    let '(snappedX, guidesX) :=
      match closestX with
      | Fin cx => (cx, [mkGuide ("temp-v-" ++ now)%string vertical cx (Some true)])
      | Infinity => (x, [])
      end in
    let closestY := closest_snap y (snapDistance / stageScale) snd snapPoints in
    let '(snappedY, guidesY) :=
      match closestY with
      | Fin cy => (cy, [mkGuide ("temp-h-" ++ now)%string horizontal cy (Some true)])
      | Infinity => (y, [])
      end in
    ((snappedX, snappedY), Some (guidesX ++ guidesY)).

(* ================================================================== *)
(** * The canvas component: pointer handlers *)
(* ================================================================== *)

(** The object literals passed as updates. *)
Definition updates_opacity (v : R) : ShapeUpdates :=
  mkShapeUpdates None None None None None None None None None None None None
                 None None None None None None None (Some (Some v)) None None
                 None.

Definition updates_xy (x y : R) : ShapeUpdates :=
  mkShapeUpdates None None (Some x) (Some y) None None None None None None
                 None None None None None None None None None None None None
                 None.

(** A copy of [shape] with its origin and size assigned. *)
Definition with_geometry (shape : CanvasShape) (x y : R)
           (width height : option R) : CanvasShape :=
  spread_shape shape
    (mkShapeUpdates None None (Some x) (Some y) (Some width) (Some height)
                    None None None None None None None None None None None
                    None None None None None None).

Definition with_points (shape : CanvasShape) (pts : list R) : CanvasShape :=
  spread_shape shape
    (mkShapeUpdates None None None None None None None None None None None
                    None None None None (Some (Some pts)) None None None None
                    None None None).

(** [setTempGuides] as [applySnapping] leaves it. *)
Definition with_guides (g : option (list GuideLine)) (c : Canvas) : Canvas :=
  match g with
  | Some gs => setTempGuides gs c
  | None => c
  end.

Definition find_shape (shapes : list CanvasShape) (id : string)
  : option CanvasShape :=
  find (fun s => String.eqb (shape_id s) id) shapes.

Definition handleEraserMouseDown (pos : Point) (c : Canvas) : Canvas :=
  setErasedElements [] c.

(** [w] holds the values of the render the handler closes over; [c] and
    [s] are the state being written.  The call of [collaborativeUpdatePath]
    for a path under the pointer throws, after the shape under the pointer
    has been dealt with. *)
Definition handleEraserMouseMove (w : World) (pos : Point)
           (c : Canvas) (s : CanvasStore) : Outcome :=
  let c0 := comp w in
  let s0 := store w in
  let hoveredShape := findShapeAtPosition (shapes s0) (fst pos) (snd pos) in
  let hoveredPath :=
    findPathAtPosition (paths s0) (stageScale s0) (fst pos) (snd pos) in
  let '(c1, s1) :=
    match hoveredShape with
    | Some sh =>
        if negb (includes (erasedElements c0) (shape_id sh)) then
          let currentOpacity := num_or (shape_opacity sh) 1 in
          let newOpacity := Rmax 0 (currentOpacity - 0.8) in
          (setErasedElements (erasedElements c ++ [shape_id sh]) c,
           collaborativeUpdateShape (shape_id sh)
                                    (updates_opacity newOpacity) s)
        else (c, s)
    | None => (c, s)
    end in
  match hoveredPath with
  | Some p =>
      if negb (includes (erasedElements c0) (path_id p))
      then Threw (mkWorld c1 s1)
      else Returned (mkWorld c1 s1)
  | None => Returned (mkWorld c1 s1)
  end.

(** [eraseSelected(erasedElements)] throws before
    [setErasedElements([])] is reached. *)
Definition handleEraserMouseUp (w : World) (c : Canvas) (s : CanvasStore)
  : Outcome :=
  Threw (mkWorld c s).

Definition startTextCreation (env : Env) (s : CanvasStore) (pos : Point)
           (c : Canvas) : Canvas :=
  match canvas_rect env with
  | None => c
  | Some (rect_left, rect_top) =>
      let screenX := fst pos * stageScale s + fst (stagePos s) + rect_left in
      let screenY := snd pos * stageScale s + snd (stagePos s) + rect_top in
      setEditingText (Some (mkEditingText (now env) screenX screenY "" 16)) c
  end.

(** The loop over [selectedIds] at the head of the select branch. *)
Fixpoint selection_handle (shapes : list CanvasShape) (stageScale : R)
         (pos : Point) (ids : list string) : option Handle :=
  match ids with
  | [] => None
  | id :: rest =>
      match find_shape shapes id with
      | Some shape =>
          match getResizeHandle stageScale (fst pos) (snd pos) shape with
          | Some handle => Some handle
          | None => selection_handle shapes stageScale pos rest
          end
      | None => selection_handle shapes stageScale pos rest
      end
  end.

(** The pending shape created on pointer-down by a shape tool. *)
Definition pending_shape (env : Env) (s : CanvasStore) (ty : ShapeType)
           (filled segment : bool) (snappedPos : Point) : CanvasShape :=
  {| shape_id := now env;
     shape_type := ty;
     shape_x := fst snappedPos;
     shape_y := snd snappedPos;
     shape_width := Some 0;
     shape_height := Some 0;
     shape_radius := None;
     shape_text := None;
     shape_fontSize := None;
     shape_fontFamily := None;
     shape_backgroundColor := None;
     shape_isbold := None;
     shape_isitalic := None;
     shape_isunderline := None;
     shape_isstrikethrough := None;
     shape_points :=
       if segment
       then Some [fst snappedPos; snd snappedPos;
                  fst snappedPos; snd snappedPos]
       else None;
     shape_stroke := strokeColor s;
     shape_strokeWidth := strokeWidth s;
     shape_fill := if filled then Some (fillColor s) else None;
     shape_opacity := Some (opacity s);
     shape_rotation := 0;
     shape_src := None;
     shape_filter := None |}.

Definition handleMouseDown (env : Env) (e : MouseEvent) (w : World) : World :=
  let c0 := comp w in
  let s0 := store w in
  let c := setIsMouseDown true c0 in
  let pos := getCanvasCoordinates env s0 (clientX e) (clientY e) in
  let start_shape (ty : ShapeType) (filled segment : bool) : World :=
    let c1 := setStartPos (Some pos) (setIsDrawing true c) in
    let '(snappedPos, g) :=
      applySnapping (now env) (snapEnabled s0) (snapDistance c0)
                    (stageScale s0) (shapes s0) (fst pos) (snd pos) None in
    mkWorld
      (setCurrentShape
         (Some (pending_shape env s0 ty filled segment snappedPos))
         (with_guides g c1))
      s0 in
  match tool s0 with
  | tool_hand =>
      mkWorld (setLastPanPoint (Some (clientX e, clientY e))
                               (setIsPanning true c))
              s0
  | tool_eraser => mkWorld (handleEraserMouseDown pos c) s0
  | tool_select =>
      match selection_handle (shapes s0) (stageScale s0) pos
                             (selectedIds s0) with
      | Some handle =>
          mkWorld (setStartPos (Some pos)
                     (setResizeHandle (Some handle) (setIsResizing true c)))
                  s0
      | None =>
          match findShapeAtPosition (shapes s0) (fst pos) (snd pos) with
          | Some clickedShape =>
              let s1 :=
                if negb (includes (selectedIds s0) (shape_id clickedShape))
                then
                  if shiftKey e
                  then setSelectedIds
                         (selectedIds s0 ++ [shape_id clickedShape]) s0
                  else setSelectedIds [shape_id clickedShape] s0
                else s0 in
              mkWorld
                (setDragOffset (fst pos - shape_x clickedShape,
                                snd pos - shape_y clickedShape)
                   (setStartPos (Some pos) (setIsDragging true c)))
                s1
          | None =>
              mkWorld c (if negb (shiftKey e) then clearSelection s0 else s0)
          end
      end
  | tool_pen => mkWorld (setCurrentPath [pos] (setIsDrawing true c)) s0
  | tool_text => mkWorld (startTextCreation env s0 pos c) s0
  | tool_rectangle => start_shape st_rectangle true false
  | tool_circle => start_shape st_circle true false
  | tool_arrow => start_shape st_arrow false true
  | tool_line => start_shape st_line false true
  | tool_image => mkWorld c s0
  end.

(** The [switch (resizeHandle)] of the resize branch. *)
Definition resized (handle : Handle) (shape : CanvasShape)
           (deltaX deltaY : R) : CanvasShape :=
  let w0 := num_or (shape_width shape) 0 in
  let h0 := num_or (shape_height shape) 0 in
  let x := shape_x shape in
  let y := shape_y shape in
  match handle with
  | se => with_geometry shape x y (Some (w0 + deltaX)) (Some (h0 + deltaY))
  | sw => with_geometry shape (x + deltaX) y
                        (Some (w0 - deltaX)) (Some (h0 + deltaY))
  | ne => with_geometry shape x (y + deltaY)
                        (Some (w0 + deltaX)) (Some (h0 - deltaY))
  | nw => with_geometry shape (x + deltaX) (y + deltaY)
                        (Some (w0 - deltaX)) (Some (h0 - deltaY))
  | n_ => with_geometry shape x (y + deltaY)
                        (shape_width shape) (Some (h0 - deltaY))
  | s_ => with_geometry shape x y (shape_width shape) (Some (h0 + deltaY))
  | w_ => with_geometry shape (x + deltaX) y
                        (Some (w0 - deltaX)) (shape_height shape)
  | e_ => with_geometry shape x y (Some (w0 + deltaX)) (shape_height shape)
  end.

Definition handleMouseMove (env : Env) (e : MouseEvent) (w : World) : World :=
  let c0 := comp w in
  let s0 := store w in
  let c :=
    if negb (isDragging c0) && negb (isResizing c0) && negb (isDrawing c0)
    then setTempGuides [] c0
    else c0 in
  let pos := getCanvasCoordinates env s0 (clientX e) (clientY e) in
  let drawing : World :=
    if negb (isDrawing c0) then mkWorld c s0
    else if Tool_eqb (tool s0) tool_pen
    then mkWorld (setCurrentPath (currentPath c ++ [pos]) c) s0
    else
      match currentShape c0, startPos c0 with
      | Some cur, Some sp =>
          let '(snappedPos, g) :=
            applySnapping (now env) (snapEnabled s0) (snapDistance c0)
                          (stageScale s0) (shapes s0) (fst pos) (snd pos)
                          (Some cur) in
          let updatedShape :=
            if Tool_eqb (tool s0) tool_rectangle
               || Tool_eqb (tool s0) tool_circle
            then with_geometry cur (shape_x cur) (shape_y cur)
                               (Some (fst snappedPos - fst sp))
                               (Some (snd snappedPos - snd sp))
            else if Tool_eqb (tool s0) tool_arrow
                    || Tool_eqb (tool s0) tool_line
            then with_points cur [fst sp; snd sp;
                                  fst snappedPos; snd snappedPos]
            else cur in
          mkWorld (setCurrentShape (Some updatedShape) (with_guides g c)) s0
      | _, _ => mkWorld c s0
      end in
  let dragging : World :=
    match isDragging c0, (0 <? length (selectedIds s0))%nat, startPos c0 with
    | true, true, Some _ =>
        let '(snappedPos, g) :=
          applySnapping (now env) (snapEnabled s0) (snapDistance c0)
                        (stageScale s0) (shapes s0)
                        (fst pos - fst (dragOffset c0))
                        (snd pos - snd (dragOffset c0)) None in
        let s1 :=
          fold_left
            (fun s id =>
               match find_shape (shapes s0) id with
               | Some _ =>
                   collaborativeUpdateShape
                     id (updates_xy (fst snappedPos) (snd snappedPos)) s
               | None => s
               end)
            (selectedIds s0) s0 in
        mkWorld
          (setStartPos (Some (fst snappedPos + fst (dragOffset c0),
                              snd snappedPos + snd (dragOffset c0)))
                       (with_guides g c))
          s1
    | _, _, _ => drawing
    end in
  let resizing : World :=
    match isResizing c0, resizeHandle c0, selectedIds s0, startPos c0 with
    | true, Some handle, [id], Some sp =>
        match find_shape (shapes s0) id with
        | Some shape =>
            let deltaX := fst pos - fst sp in
            let deltaY := snd pos - snd sp in
            let newShape := resized handle shape deltaX deltaY in
            mkWorld (setStartPos (Some pos) c)
                    (collaborativeUpdateShape
                       id (updates_of_shape newShape) s0)
        | None => mkWorld c s0
        end
    | _, _, _, _ => dragging
    end in
  if Tool_eqb (tool s0) tool_eraser && isMouseDown c0
  then state_of (handleEraserMouseMove w pos c s0)
  else
    match isPanning c0, lastPanPoint c0 with
    | true, Some lp =>
        let deltaX := clientX e - fst lp in
        let deltaY := clientY e - snd lp in
        mkWorld (setLastPanPoint (Some (clientX e, clientY e)) c)
                (setStagePos (fst (stagePos s0) + deltaX,
                              snd (stagePos s0) + deltaY) s0)
    | _, _ => resizing
    end.

(** [currentPath.forEach(([x, y]) => flatPoints.push(x, y))]. *)
Definition flatten_points (pts : list Point) : list R :=
  flat_map (fun p => [fst p; snd p]) pts.

(** [v !== 0] for an optional number: [undefined !== 0] holds. *)
Definition differs_from_0 (v : option R) : bool :=
  match v with
  | Some r => negb (Req_b r 0)
  | None => true
  end.

Definition hasSize (shape : CanvasShape) : bool :=
  differs_from_0 (shape_width shape)
  || differs_from_0 (shape_height shape)
  || match shape_points shape with
     | Some [p0; p1; p2; p3] => negb (Req_b p0 p2) || negb (Req_b p1 p3)
     | _ => false
     end.

Definition handleMouseUp (env : Env) (w : World) : World :=
  let c0 := comp w in
  let s0 := store w in
  let c := setIsMouseDown false c0 in
  match
    (if Tool_eqb (tool s0) tool_eraser
     then handleEraserMouseUp w c s0
     else Returned (mkWorld c s0))
  with
  | Threw w1 => w1
  | Returned (mkWorld c1 s1) =>
      let c2 :=
        setTempGuides []
          (setLastPanPoint None
             (setResizeHandle None
                (setIsResizing false
                   (setIsDragging false (setIsPanning false c1))))) in
      if negb (isDrawing c0) then mkWorld c2 s1
      else
        let c3 := setIsDrawing false c2 in
        if Tool_eqb (tool s0) tool_pen && (0 <? length (currentPath c0))%nat
        then
          let flatPoints := flatten_points (currentPath c0) in
          mkWorld
            (setStartPos None (setCurrentPath [] c3))
            (collaborativeAddPath
               {| path_id := now env;
                  path_points := flatPoints;
                  path_stroke := strokeColor s0;
                  path_strokeWidth := strokeWidth s0;
                  path_fill := None;
                  path_opacity := Some (opacity s0) |}
               s1)
        else
          match currentShape c0 with
          | Some cur =>
              mkWorld
                (setStartPos None (setCurrentShape None c3))
                (if hasSize cur then collaborativeAddShape cur s1 else s1)
          | None => mkWorld (setStartPos None c3) s1
          end
  end.

(** The first guard of [drawRealisticPath]: a committed path with fewer
    than four coordinates (two sample points) is skipped by the renderer. *)
Definition path_is_drawn (path : CanvasPath) : bool :=
  negb (length (path_points path) <? 4)%nat.

(* ================================================================== *)
(** * The store as a whole *)
(* ================================================================== *)

Definition set_collaboration (s : CanvasStore) (service collaborating : bool)
  : CanvasStore :=
  mkStore (tool s) (strokeColor s) (strokeWidth s) (fillColor s) (opacity s)
          (snapEnabled s) (paths s) (shapes s) (selectedIds s) (stagePos s)
          (stageScale s) (history s) (historyIndex s) collaborating
          service (collabCalls s).

(** [initializeCollaboration] creates the service instance. *)
Definition initializeCollaboration (s : CanvasStore) : CanvasStore :=
  set_collaboration s true (isCollaborating s).

(** The state-change callback of the service, with the document it was
    handed. *)
Definition stateChangeCallback (ps : list CanvasPath)
           (ss : list CanvasShape) (s : CanvasStore) : CanvasStore :=
  let s' := setShapes ss (setPaths ps s) in
  set_collaboration s' (collabService s') true.

(** Switching collaboration off in [toggleCollaboration]. *)
Definition stopCollaborating (s : CanvasStore) : CanvasStore :=
  set_collaboration s (collabService s) false.

Definition disconnectCollaboration (s : CanvasStore) : CanvasStore :=
  set_collaboration s false false.

(** The operations of the store that the engine and its collaborators
    invoke. *)
Inductive StoreOp : Type :=
| OpSetTool (t : Tool)
| OpSetSnapEnabled (enable : bool)
| OpAddPath (path : CanvasPath)
| OpAddShape (shape : CanvasShape)
| OpUpdateShape (id : string) (updates : ShapeUpdates)
| OpDeleteShape (id : string)
| OpDeletePath (id : string)
| OpClearPaths
| OpClearShapes
| OpClearCanvas
| OpSetSelectedIds (ids : list string)
| OpClearSelection
| OpDeleteSelected
| OpSetStagePos (pos : Point)
| OpSetStageScale (scale : R)
| OpSaveToHistory
| OpUndo
| OpRedo
| OpSetPaths (ps : list CanvasPath)
| OpSetShapes (ss : list CanvasShape)
| OpInitializeCollaboration
| OpStateChangeCallback (ps : list CanvasPath) (ss : list CanvasShape)
| OpStopCollaborating
| OpDisconnectCollaboration
| OpCollaborativeAddPath (path : CanvasPath)
| OpCollaborativeAddShape (shape : CanvasShape)
| OpCollaborativeUpdateShape (id : string) (updates : ShapeUpdates)
| OpCollaborativeDeleteSelected
| OpCollaborativeClearCanvas.

(** [None] is a call that throws. *)
Definition apply_op (op : StoreOp) (s : CanvasStore) : option CanvasStore :=
  match op with
  | OpSetTool t => Some (setTool t s)
  | OpSetSnapEnabled enable => Some (setSnapEnabled enable s)
  | OpAddPath path => Some (addPath path s)
  | OpAddShape shape => Some (addShape shape s)
  | OpUpdateShape id updates => Some (updateShape id updates s)
  | OpDeleteShape id => Some (deleteShape id s)
  | OpDeletePath id => Some (deletePath id s)
  | OpClearPaths => Some (clearPaths s)
  | OpClearShapes => Some (clearShapes s)
  | OpClearCanvas => Some (clearCanvas s)
  | OpSetSelectedIds ids => Some (setSelectedIds ids s)
  | OpClearSelection => Some (clearSelection s)
  | OpDeleteSelected => Some (deleteSelected s)
  | OpSetStagePos pos => Some (setStagePos pos s)
  | OpSetStageScale scale => Some (setStageScale scale s)
  | OpSaveToHistory => Some (saveToHistory s)
  | OpUndo => undo s
  | OpRedo => redo s
  | OpSetPaths ps => Some (setPaths ps s)
  | OpSetShapes ss => Some (setShapes ss s)
  | OpInitializeCollaboration => Some (initializeCollaboration s)
  | OpStateChangeCallback ps ss => Some (stateChangeCallback ps ss s)
  | OpStopCollaborating => Some (stopCollaborating s)
  | OpDisconnectCollaboration => Some (disconnectCollaboration s)
  | OpCollaborativeAddPath path => Some (collaborativeAddPath path s)
  | OpCollaborativeAddShape shape => Some (collaborativeAddShape shape s)
  | OpCollaborativeUpdateShape id updates =>
      Some (collaborativeUpdateShape id updates s)
  | OpCollaborativeDeleteSelected => Some (collaborativeDeleteSelected s)
  | OpCollaborativeClearCanvas => Some (collaborativeClearCanvas s)
  end.

(** The operations through which the collaboration service replaces the
    arrays without a history entry. *)
Definition is_inbound (op : StoreOp) : bool :=
  match op with
  | OpSetPaths _ | OpSetShapes _ | OpStateChangeCallback _ _ => true
  | _ => false
  end.

(* ================================================================== *)
(** * The canvas store: selection, zoom and images *)
(* ================================================================== *)

Definition addToSelection (id : string) (s : CanvasStore) : CanvasStore :=
  set_selectedIds s
    (if includes (selectedIds s) id
     then selectedIds s
     else selectedIds s ++ [id]).

Definition removeFromSelection (id : string) (s : CanvasStore)
  : CanvasStore :=
  set_selectedIds s
    (filter (fun selectedId => negb (String.eqb selectedId id))
            (selectedIds s)).

Definition fitToScreen (s : CanvasStore) : CanvasStore :=
  set_stageScale (set_stagePos s (0, 0)) 1.

Definition resetZoom (s : CanvasStore) : CanvasStore :=
  set_stageScale s 1.

Definition zoomIn (s : CanvasStore) : CanvasStore :=
  let currentScale := stageScale s in
  let newScale := Rmin (currentScale * 1.2) 5 in
  set_stageScale s newScale.

Definition zoomOut (s : CanvasStore) : CanvasStore :=
  let currentScale := stageScale s in
  let newScale := Rmax (currentScale / 1.2) 0.1 in
  set_stageScale s newScale.

(** [importImage]; [id] stands for
    [Math.random().toString(36).substring(7)]. *)
Definition importImage (id : string) (src : string) (x y width height : R)
           (s : CanvasStore) : CanvasStore :=
  let newShape :=
    {| shape_id := id;
       shape_type := st_image;
       shape_x := x;
       shape_y := y;
       shape_width := Some width;
       shape_height := Some height;
       shape_radius := None;
       shape_text := None;
       shape_fontSize := None;
       shape_fontFamily := None;
       shape_backgroundColor := None;
       shape_isbold := None;
       shape_isitalic := None;
       shape_isunderline := None;
       shape_isstrikethrough := None;
       shape_points := None;
       shape_stroke := "#000000";
       shape_strokeWidth := 2;
       shape_fill := None;
       shape_opacity := Some 1;
       shape_rotation := 0;
       shape_src := Some src;
       shape_filter := Some "none" |} in
  addShape newShape s.

(** [shapes.findIndex((s) => s.id === id) !== -1]. *)
Definition has_shape (shapes : list CanvasShape) (id : string) : bool :=
  existsb (fun s => String.eqb (shape_id s) id) shapes.

Definition updateImage (id : string) (updates : ShapeUpdates)
           (s : CanvasStore) : CanvasStore :=
  if has_shape (shapes s) id then updateShape id updates s else s.

(** * The canvas component: the wheel *)

Record WheelEvent : Type := mkWheelEvent {
  wheel_clientX : R;
  wheel_clientY : R;
  deltaY : R
}.

(** [handleWheel]: zoom by one step of 0.1 about the pointer. *)
Definition handleWheel (env : Env) (e : WheelEvent) (s : CanvasStore)
  : CanvasStore :=
  match canvas_rect env with
  | None => s
  | Some (rect_left, rect_top) =>
      let mouseX := wheel_clientX e - rect_left in
      let mouseY := wheel_clientY e - rect_top in
      let direction := if Rlt_b 0 (deltaY e) then -1 else 1 in
      let newScale := Rmax 0.1 (Rmin 5 (stageScale s + direction * 0.1)) in
      let mousePointTo :=
        ((mouseX - fst (stagePos s)) / stageScale s,
         (mouseY - snd (stagePos s)) / stageScale s) in
      setStagePos (mouseX - fst mousePointTo * newScale,
                   mouseY - snd mousePointTo * newScale)
                  (setStageScale newScale s)
  end.

(* ================================================================== *)
(** * src/components/keyboard-shortcuts.tsx *)
(* ================================================================== *)

(** What [handleKeyDown] reads of the event; [target_is_input] stands for
    [e.target instanceof HTMLInputElement || e.target instanceof
    HTMLTextAreaElement]. *)
Record KeyboardEvent : Type := mkKeyboardEvent {
  key : string;
  ctrlKey : bool;
  metaKey : bool;
  key_shiftKey : bool;
  target_is_input : bool
}.

(** The size computed by [img.onload] in [handleImagesClick]: fit into
    400 by 300. *)
Definition fitted_size (imgWidth imgHeight : R) : R * R :=
  let maxWidth := 400 in
  let maxHeight := 300 in
  let '(width, height) :=
    if Rlt_b maxWidth imgWidth
    then (maxWidth, imgHeight * maxWidth / imgWidth)
    else (imgWidth, imgHeight) in
  if Rlt_b maxHeight height
  then (width * maxHeight / height, maxHeight)
  else (width, height).

(** [img.onload]: place the image at the centre of the window.  [id] is
    the random id of [importImage]. *)
Definition img_onload (id src : string) (imgWidth imgHeight : R)
           (innerWidth innerHeight : R) (s : CanvasStore) : CanvasStore :=
  let '(width, height) := fitted_size imgWidth imgHeight in
  let centerX := (innerWidth - width) / 2 in
  let centerY := (innerHeight - height) / 2 in
  importImage id src centerX centerY width height s.

(** The first [switch (e.key)]: the tool shortcuts. *)
Definition tool_shortcut (k : string) (s : CanvasStore) : CanvasStore :=
  if String.eqb k "v" || String.eqb k "1" then setTool tool_select s
  else if String.eqb k "h" || String.eqb k "2" then setTool tool_hand s
  else if String.eqb k "p" || String.eqb k "3" then setTool tool_pen s
  else if String.eqb k "l" || String.eqb k "4" then setTool tool_line s
  else if String.eqb k "r" || String.eqb k "5"
  then setTool tool_rectangle s
  else if String.eqb k "c" || String.eqb k "6" then setTool tool_circle s
  else if String.eqb k "a" || String.eqb k "7" then setTool tool_arrow s
  else if String.eqb k "t" || String.eqb k "8" then setTool tool_text s
  else if String.eqb k "i" || String.eqb k "9" then setTool tool_image s
  else s.

(** The [switch] under [if (isCtrl)]; [stageScale] is the value the
    handler closed over. *)
Definition zoom_shortcut_ctrl (k : string) (stageScale : R)
           (s : CanvasStore) : CanvasStore :=
  if String.eqb k "=" || String.eqb k "+"
  then setStageScale (Rmin 5 (stageScale * 1.2)) s
  else if String.eqb k "-"
  then setStageScale (Rmax 0.1 (stageScale / 1.2)) s
  else if String.eqb k "0" || String.eqb k "1"
  then setStagePos (0, 0) (setStageScale 1 s)
  else s.

(** The [switch] under the second [if (!isCtrl)]. *)
Definition zoom_shortcut_plain (k : string) (stageScale : R)
           (s : CanvasStore) : CanvasStore :=
  if String.eqb k "+" || String.eqb k "="
  then setStageScale (Rmin 5 (stageScale * 1.2)) s
  else if String.eqb k "-"
  then setStageScale (Rmax 0.1 (stageScale / 1.2)) s
  else s.

(** [handleKeyDown].  [closure] is the store as the render that registered
    the handler saw it: [snapEnabled], [shapes] and [stageScale] are read
    from it; the store actions act on the store [s] of the moment.
    [confirmed] is the answer [confirm] would give.  The result is [None]
    when [undo] or [redo] throws. *)
Definition handleKeyDown (closure : CanvasStore) (confirmed : bool)
           (e : KeyboardEvent) (s : CanvasStore) : option CanvasStore :=
  if target_is_input e then Some s
  else
    let isCtrl := ctrlKey e || metaKey e in
    let isShift := key_shiftKey e in
    if isCtrl && String.eqb (key e) "z" && negb isShift then undo s
    else if isCtrl
            && (String.eqb (key e) "y"
                || (String.eqb (key e) "z" && isShift))
    then redo s
    else if isCtrl && String.eqb (key e) "s"
    then Some (setSnapEnabled (negb (snapEnabled closure)) s)
    else
      let s1 := if negb isCtrl then tool_shortcut (key e) s else s in
      if String.eqb (key e) "Delete" || String.eqb (key e) "Backspace"
      then Some (deleteSelected s1)
      else if String.eqb (key e) "Escape" then Some (clearSelection s1)
      else if isCtrl && String.eqb (key e) "a"
      then Some (setSelectedIds (map shape_id (shapes closure)) s1)
      else if isCtrl && isShift && String.eqb (key e) "Delete"
      then Some (if confirmed
                 then clearSelection (clearShapes (clearPaths s1))
                 else s1)
      else
        let s2 :=
          if isCtrl then zoom_shortcut_ctrl (key e) (stageScale closure) s1
          else s1 in
        let s3 :=
          if negb isCtrl
          then zoom_shortcut_plain (key e) (stageScale closure) s2
          else s2 in
        Some s3.

(* ================================================================== *)
(** * src/components/properties-panel.tsx *)
(* ================================================================== *)

(** [selectedIds.forEach((id) => { collaborativeUpdateShape(id, updates);
    })], the body shared by the change handlers of the panel;
    [selectedIds] is the selection of the render the panel shows. *)
Definition update_each (selectedIds : list string) (updates : ShapeUpdates)
           (s : CanvasStore) : CanvasStore :=
  fold_left (fun s id => collaborativeUpdateShape id updates s)
            selectedIds s.

(** The object literals the handlers pass. *)
Definition updates_stroke (color : string) : ShapeUpdates :=
  mkShapeUpdates None None None None None None None None None None None None
                 None None None None (Some color) None None None None None
                 None.

Definition updates_fill (color : string) : ShapeUpdates :=
  mkShapeUpdates None None None None None None None None None None None None
                 None None None None None None (Some (Some color)) None None
                 None None.

Definition updates_strokeWidth (width : R) : ShapeUpdates :=
  mkShapeUpdates None None None None None None None None None None None None
                 None None None None None (Some width) None None None None
                 None.

Definition updates_fontFamily (font : string) : ShapeUpdates :=
  mkShapeUpdates None None None None None None None None None
                 (Some (Some font)) None None None None None None None None
                 None None None None None.

Definition updates_fontSize (size : R) : ShapeUpdates :=
  mkShapeUpdates None None None None None None None None (Some (Some size))
                 None None None None None None None None None None None None
                 None None.

Definition updates_backgroundColor (color : string) : ShapeUpdates :=
  mkShapeUpdates None None None None None None None None None None
                 (Some (Some color)) None None None None None None None None
                 None None None None.

Definition handleStrokeColorChange (selectedIds : list string)
           (color : string) : CanvasStore -> CanvasStore :=
  update_each selectedIds (updates_stroke color).

Definition handleFillColorChange (selectedIds : list string)
           (color : string) : CanvasStore -> CanvasStore :=
  update_each selectedIds (updates_fill color).

Definition handleStrokeWidthChange (selectedIds : list string)
           (width : R) : CanvasStore -> CanvasStore :=
  update_each selectedIds (updates_strokeWidth width).

Definition handleFontFamilyChange (selectedIds : list string)
           (font : string) : CanvasStore -> CanvasStore :=
  update_each selectedIds (updates_fontFamily font).

Definition handleFontSizeChange (selectedIds : list string)
           (size : R) : CanvasStore -> CanvasStore :=
  update_each selectedIds (updates_fontSize size).

Definition handleBackgroundColorChange (selectedIds : list string)
           (color : string) : CanvasStore -> CanvasStore :=
  update_each selectedIds (updates_backgroundColor color).

(** [{ ...shape, id, x: shape.x + 20, y: shape.y + 20 }]. *)
Definition duplicate_of (shape : CanvasShape) (id : string) : CanvasShape :=
  spread_shape shape
    (mkShapeUpdates (Some id) None (Some (shape_x shape + 20))
                    (Some (shape_y shape + 20)) None None None None None
                    None None None None None None None None None None None
                    None None None).

(** [duplicateSelected]; [selectedIds] and [shapes] are those of the
    render, [newId k] is the id [Date.now().toString() + Math.random()]
    gives for the [k]-th selected shape. *)
Definition duplicateSelected (selectedIds : list string)
           (shapes : list CanvasShape) (newId : nat -> string)
           (s : CanvasStore) : CanvasStore :=
  let selectedShapes :=
    filter (fun shape => includes selectedIds (shape_id shape)) shapes in
  fold_left (fun s newShape => collaborativeAddShape newShape s)
            (mapi (fun shape k => duplicate_of shape (newId k))
                  selectedShapes)
            s.

(* ================================================================== *)
(** * Specification vocabulary and sample data *)
(* ================================================================== *)

(** ** Vocabulary for the point-to-segment distance *)


Definition on_segment (px py x1 y1 x2 y2 : R) : Prop :=
  exists t, 0 <= t <= 1 /\ px = x1 + t * (x2 - x1) /\ py = y1 + t * (y2 - y1).

(** The real number a binary64 value stands for (0 for the two zeros and,
    by convention, for the infinities and NaN). *)
Definition value (x : float) : R :=
  match Prim2SF x with
  | S754_finite s m e => (if s then -1 else 1) * IZR (Z.pos m) * powerRZ 2 e
  | _ => 0
  end.

(** Either zero or finite and non-zero: neither an infinity nor NaN. *)
Definition SFbounded (x : spec_float) : bool :=
  match x with
  | S754_zero _ | S754_finite _ _ _ => true
  | _ => false
  end.

Definition SFzero (x : spec_float) : bool :=
  match x with
  | S754_zero _ => true
  | _ => false
  end.

(** [+0] or [-0]. *)
Definition zero64 (x : float) : Prop := SFzero (Prim2SF x) = true.

Definition in_unit_interval (t : float) : Prop :=
  (0 <=? t)%float = true /\ (t <=? 1)%float = true.

(** The distance between two points as the source computes it. *)
Definition euclid64 (px py qx qy : float) : float :=
  PrimFloat.sqrt ((px - qx) * (px - qx) + (py - qy) * (py - qy))%float.

(** The clamped projection parameter as the source computes it. *)
Definition projection_parameter64 (px py x1 y1 x2 y2 : float) : float :=
  Math_max 0%float
    (Math_min 1%float
       (((px - x1) * (x2 - x1) + (py - y1) * (y2 - y1))
        / ((x2 - x1) * (x2 - x1) + (y2 - y1) * (y2 - y1)))%float).

(** The double nearest to one tenth. *)
Definition tenth : float := (1 / 10)%float.

Definition default_options : StrokeOptions := mkStrokeOptions None None None.

(** ** Vocabulary for the history log *)

(** The cursor is [-1] on an empty log and an index of the log otherwise. *)
Definition cursor_ok (s : CanvasStore) : Prop :=
  (-1 <= historyIndex s < Z.of_nat (length (history s)))%Z.

(** The arrays on screen are the snapshot under the cursor. *)
Definition synced (s : CanvasStore) : Prop :=
  nth_Z (history s) (historyIndex s) = Some (mkEntry (paths s) (shapes s)).

(** The states the store can be brought into by the operations that
    [allowed] admits, from the state [create] builds. *)
Inductive reachable_by (allowed : StoreOp -> bool) : CanvasStore -> Prop :=
| by_create (ps : list CanvasPath) (ss : list CanvasShape) :
    reachable_by allowed (initial_store ps ss)
| by_op (op : StoreOp) (s s' : CanvasStore) :
    reachable_by allowed s ->
    allowed op = true ->
    apply_op op s = Some s' ->
    reachable_by allowed s'.

Definition store_reachable : CanvasStore -> Prop :=
  reachable_by (fun _ => true).

(** Reachable without the collaboration service writing into the arrays. *)
Definition locally_reachable : CanvasStore -> Prop :=
  reachable_by (fun op => negb (is_inbound op)).

(** Either nothing was ever committed, or the arrays are the snapshot
    under the cursor. *)
Definition log_matches_model (s : CanvasStore) : Prop :=
  (history s = [] /\ historyIndex s = (-1)%Z) \/ synced s.

(** A mutation of the model to [m] followed by its [saveToHistory()]. *)
Definition commit (m : HistoryEntry) (s : CanvasStore) : CanvasStore :=
  saveToHistory (set_shapes (set_paths s (entry_paths m)) (entry_shapes m)).

Definition commit_all (ms : list HistoryEntry) (s : CanvasStore)
  : CanvasStore :=
  fold_left (fun acc m => commit m acc) ms s.

(** [undo()] called [k] times in a row. *)
Fixpoint undo_n (k : nat) (s : CanvasStore) : option CanvasStore :=
  match k with
  | O => Some s
  | S k' =>
      match undo s with
      | Some s' => undo_n k' s'
      | None => None
      end
  end.

(** The last [k] elements of a list. *)
Definition lastn {A : Type} (k : nat) (l : list A) : list A :=
  skipn (length l - k) l.

(** ** Sample data for the closed examples *)

Definition sample_shape (id : string) (x y w h : R) : CanvasShape :=
  {| shape_id := id; shape_type := st_rectangle;
     shape_x := x; shape_y := y;
     shape_width := Some w; shape_height := Some h;
     shape_radius := None; shape_text := None; shape_fontSize := None;
     shape_fontFamily := None; shape_backgroundColor := None;
     shape_isbold := None; shape_isitalic := None;
     shape_isunderline := None; shape_isstrikethrough := None;
     shape_points := None; shape_stroke := "#000000";
     shape_strokeWidth := 2; shape_fill := Some "transparent";
     shape_opacity := Some 1; shape_rotation := 0;
     shape_src := None; shape_filter := None |}.

Definition sample_path (id : string) : CanvasPath :=
  {| path_id := id; path_points := [0; 0; 5; 5; 10; 0];
     path_stroke := "#000000"; path_strokeWidth := 2;
     path_fill := None; path_opacity := Some 1 |}.

Definition empty_store : CanvasStore := initial_store [] [].

(** Sixty different models, one per commit. *)
Definition sixty_models : list HistoryEntry :=
  map (fun i => mkEntry [] [sample_shape "s" (INR i) 0 10 10]) (seq 0 60).

(** Fifty commits from an empty log: the log is at capacity. *)
Definition full_store : CanvasStore :=
  commit_all (repeat (mkEntry [] []) 50) empty_store.

(** Two shapes are added to an empty canvas. *)
Definition after_two_shapes : CanvasStore :=
  addShape (sample_shape "b" 200 0 50 50)
           (addShape (sample_shape "a" 0 0 100 100) empty_store).

(** The second addition is undone, and then the collaboration callback
    replaces the paths. *)
Definition remote_update_after_undo : option CanvasStore :=
  option_map (setPaths [sample_path "p"]) (undo after_two_shapes).

(** One undo after two additions: the arrays and the log agree. *)
Definition undone_once : option CanvasStore := undo after_two_shapes.

(** A canvas with one shape and one path. *)
Definition one_of_each : CanvasStore :=
  addPath (sample_path "p")
          (addShape (sample_shape "a" 0 0 100 100) empty_store).

(** ** Vocabulary for the interaction session *)

Definition bool_count (b : bool) : nat := if b then 1 else 0.

(** How many of the session modes are switched on. *)
Definition active_modes (c : Canvas) : nat :=
  bool_count (isPanning c) + bool_count (isDragging c)
  + bool_count (isResizing c) + bool_count (isDrawing c).

Definition idle (c : Canvas) : Prop := active_modes c = 0%nat.
Definition at_most_one_mode (c : Canvas) : Prop := (active_modes c <= 1)%nat.

(** The four mode switches agree in two component states. *)
Definition same_flags (c c' : Canvas) : Prop :=
  isPanning c = isPanning c' /\ isDragging c = isDragging c'
  /\ isResizing c = isResizing c' /\ isDrawing c = isDrawing c'.

(** What can happen to the component between two renders: one of the three
    pointer handlers runs, or something else (toolbar, keyboard shortcut,
    collaboration callback) acts on the store. *)
Inductive Event : Type :=
| PointerDown (env : Env) (e : MouseEvent)
| PointerMove (env : Env) (e : MouseEvent)
| PointerUp (env : Env)
| StoreAction (op : StoreOp).

Definition step (ev : Event) (w : World) : World :=
  match ev with
  | PointerDown env e => handleMouseDown env e w
  | PointerMove env e => handleMouseMove env e w
  | PointerUp env => handleMouseUp env w
  | StoreAction op =>
      match apply_op op (store w) with
      | Some s' => mkWorld (comp w) s'
      | None => w
      end
  end.

(** Every sequence of events from a freshly mounted component. *)
Inductive reachable : World -> Prop :=
| reach_mount (s : CanvasStore) : reachable (mkWorld initial_canvas s)
| reach_step (ev : Event) (w : World) :
    reachable w -> reachable (step ev w).

(** The sequences in which a pointer-down only arrives while no mode is
    active. *)
Inductive reachable_from_idle : World -> Prop :=
| idle_mount (s : CanvasStore) : reachable_from_idle (mkWorld initial_canvas s)
| idle_down (env : Env) (e : MouseEvent) (w : World) :
    reachable_from_idle w -> idle (comp w) ->
    reachable_from_idle (handleMouseDown env e w)
| idle_move (env : Env) (e : MouseEvent) (w : World) :
    reachable_from_idle w -> reachable_from_idle (handleMouseMove env e w)
| idle_up (env : Env) (w : World) :
    reachable_from_idle w -> reachable_from_idle (handleMouseUp env w)
| idle_store (op : StoreOp) (w : World) :
    reachable_from_idle w -> reachable_from_idle (step (StoreAction op) w).

(** ** More sample data *)

Definition sample_env : Env := mkEnv (Some (0, 0)) "1700000000000".
Definition click_at (x y : R) : MouseEvent := mkMouseEvent x y false.

(** A pen stroke is begun, the pointer-up is lost (released outside the
    canvas), the hand tool is picked, and the pointer goes down again. *)
Definition pen_then_hand : list Event :=
  [ PointerDown sample_env (click_at 10 20);
    StoreAction (OpSetTool tool_hand);
    PointerDown sample_env (click_at 30 40) ].

Definition run_events (evs : list Event) (w : World) : World :=
  fold_left (fun acc ev => step ev acc) evs w.

Definition mounted : World := mkWorld initial_canvas empty_store.

(** A click with the pen: pointer-down and pointer-up with no move. *)
Definition pen_click : World :=
  handleMouseUp sample_env
    (handleMouseDown sample_env (click_at 10 20) mounted).

(** ** Vocabulary for snapping *)




Definition box_100 : CanvasShape := sample_shape "a" 100 100 50 50.

(** ** Vocabulary for the eraser sweep *)

(** The opacity an erased-over entity is given as feedback. *)
Definition faded (opacity : option R) : R := Rmax 0 (num_or opacity 1 - 0.8).

(** One rectangle on the canvas and the eraser picked. *)
Definition eraser_ready : World :=
  mkWorld initial_canvas
          (setTool tool_eraser
                   (addShape (sample_shape "a" 0 0 100 100) empty_store)).

(** Press inside the rectangle and move inside it. *)
Definition press_and_move : list Event :=
  [ PointerDown sample_env (click_at 50 50);
    PointerMove sample_env (click_at 50 50) ].

(** Press inside the rectangle, move inside it, release. *)
Definition sweep : list Event := press_and_move ++ [PointerUp sample_env].

(** ** Vocabulary for the store operations *)

(** The range the zoom operations keep the scale in. *)
Definition in_zoom_range (scale : R) : Prop := 0.1 <= scale <= 5.

(** The operations that change paths or shapes and commit the change. *)
Inductive Mutation : Type :=
| MutAddPath (path : CanvasPath)
| MutAddShape (shape : CanvasShape)
| MutUpdateShape (id : string) (updates : ShapeUpdates)
| MutDeleteShape (id : string)
| MutDeletePath (id : string)
| MutClearPaths
| MutClearShapes
| MutClearCanvas
| MutDeleteSelected.

Definition mutate (m : Mutation) (s : CanvasStore) : CanvasStore :=
  match m with
  | MutAddPath path => addPath path s
  | MutAddShape shape => addShape shape s
  | MutUpdateShape id updates => updateShape id updates s
  | MutDeleteShape id => deleteShape id s
  | MutDeletePath id => deletePath id s
  | MutClearPaths => clearPaths s
  | MutClearShapes => clearShapes s
  | MutClearCanvas => clearCanvas s
  | MutDeleteSelected => deleteSelected s
  end.

(** ** Vocabulary for the hit tests *)






(** ** Vocabulary for snapping *)

(** [c] is a coordinate of some snap point, within the tolerance of [v],
    and no snap point has a coordinate nearer to [v]. *)
Definition nearest_in_reach (v tolerance : R) (coord : Point -> R)
           (snapPoints : list Point) (c : R) : Prop :=
  (exists q, In q snapPoints /\ coord q = c)
  /\ Rabs (v - c) <= tolerance
  /\ forall q, In q snapPoints -> Rabs (v - c) <= Rabs (v - coord q).


(** ** Vocabulary for the pointer sessions *)

(** Paths, shapes and the history log agree in two stores. *)
Definition same_model (s s' : CanvasStore) : Prop :=
  paths s' = paths s /\ shapes s' = shapes s
  /\ history s' = history s /\ historyIndex s' = historyIndex s.

(** A run of pointer moves, each handled on the render the one before it
    left. *)
Definition moves (env : Env) (es : list MouseEvent) (w : World) : World :=
  run_events (map (PointerMove env) es) w.

(** The edges a handle is attached to. *)
Definition grabs_left (handle : Handle) : bool :=
  match handle with nw | w_ | sw => true | _ => false end.
Definition grabs_right (handle : Handle) : bool :=
  match handle with ne | e_ | se => true | _ => false end.
Definition grabs_top (handle : Handle) : bool :=
  match handle with nw | n_ | ne => true | _ => false end.
Definition grabs_bottom (handle : Handle) : bool :=
  match handle with sw | s_ | se => true | _ => false end.

(** The state of a resize in progress. *)
Definition resizing_from (handle : Handle) (id : string) (sp : Point)
           (w : World) : Prop :=
  tool (store w) = tool_select
  /\ isPanning (comp w) = false
  /\ isResizing (comp w) = true
  /\ resizeHandle (comp w) = Some handle
  /\ selectedIds (store w) = [id]
  /\ startPos (comp w) = Some sp
  /\ collab_active (store w) = false.

(** [cur] is [shape] with its origin and size possibly reassigned, every
    other field as it was, and the coordinates the case of [handle] in the
    [switch] does not assign are those of [shape]. *)
Definition free_kept (handle : Handle) (shape cur : CanvasShape) : Prop :=
  (exists x y width height, cur = with_geometry shape x y width height)
  /\ (grabs_left handle = false -> shape_x cur = shape_x shape)
  /\ (grabs_top handle = false -> shape_y cur = shape_y shape)
  /\ (grabs_left handle = false -> grabs_right handle = false ->
      shape_width cur = shape_width shape)
  /\ (grabs_top handle = false -> grabs_bottom handle = false ->
      shape_height cur = shape_height shape).

(** The canvas position of a pointer event. *)
Definition pointer_at (env : Env) (s : CanvasStore) (e : MouseEvent)
  : Point :=
  getCanvasCoordinates env s (clientX e) (clientY e).

(** A store in which [box_100] is selected under the select tool. *)
Definition box_selected : World :=
  mkWorld initial_canvas
          (setSelectedIds ["a"] (setTool tool_select
                                         (initial_store [] [box_100]))).

(** The state of a drag in progress, with snapping and collaboration
    switched off. *)
Definition dragging_from (ids : list string) (offset : Point)
           (w : World) : Prop :=
  tool (store w) = tool_select
  /\ collab_active (store w) = false
  /\ snapEnabled (store w) = false
  /\ isPanning (comp w) = false
  /\ isResizing (comp w) = false
  /\ isDragging (comp w) = true
  /\ selectedIds (store w) = ids
  /\ ids <> []
  /\ startPos (comp w) <> None
  /\ dragOffset (comp w) = offset.

(** [shape] put at [(x, y)] when its id is one of [ids]. *)
Definition moved_to (ids : list string) (x y : R) (shape : CanvasShape)
  : CanvasShape :=
  if includes ids (shape_id shape)
  then spread_shape shape (updates_xy x y)
  else shape.

(** The state of a pen stroke in progress over the store [s]. *)
Definition stroking (s : CanvasStore) (pts : list Point) (w : World)
  : Prop :=
  store w = s
  /\ tool s = tool_pen
  /\ isPanning (comp w) = false
  /\ isDragging (comp w) = false
  /\ isResizing (comp w) = false
  /\ isDrawing (comp w) = true
  /\ currentPath (comp w) = pts.

(** The state of a rectangle or circle being drawn over the store [s]. *)
Definition outlining (s : CanvasStore) (snapDist : R) (sp : Point)
           (cur : CanvasShape) (w : World) : Prop :=
  store w = s
  /\ (tool s = tool_rectangle \/ tool s = tool_circle)
  /\ isPanning (comp w) = false
  /\ isDragging (comp w) = false
  /\ isResizing (comp w) = false
  /\ isDrawing (comp w) = true
  /\ snapDistance (comp w) = snapDist
  /\ startPos (comp w) = Some sp
  /\ currentShape (comp w) = Some cur.

(** The shape type a shape tool draws. *)
Definition drawn_type (t : Tool) : ShapeType :=
  match t with
  | tool_circle => st_circle
  | _ => st_rectangle
  end.

(** [cur] is the pending shape [pending], possibly with a size assigned
    since. *)
Definition grown_from (pending cur : CanvasShape) : Prop :=
  cur = pending
  \/ exists width height,
      cur = with_geometry pending (shape_x pending) (shape_y pending)
                          width height.

(** ** Vocabulary for the keyboard shortcuts *)

(** The keys that edit the model: delete, undo and redo. *)
Definition editing_key (e : KeyboardEvent) : bool :=
  String.eqb (key e) "Delete" || String.eqb (key e) "Backspace"
  || ((ctrlKey e || metaKey e)
      && (String.eqb (key e) "z" || String.eqb (key e) "y")).

Definition ctrl_s : KeyboardEvent := mkKeyboardEvent "s" true false false false.
Definition ctrl_shift_delete : KeyboardEvent :=
  mkKeyboardEvent "Delete" true false true false.

(** ** Vocabulary for the properties panel *)

(** Two shapes selected out of three. *)
Definition two_selected : CanvasStore :=
  setSelectedIds ["a"; "c"]
    (initial_store []
       [sample_shape "a" 0 0 10 10; sample_shape "b" 20 0 10 10;
        sample_shape "c" 40 0 10 10]).

(* ================================================================== *)
(** * Theorems *)
(* ================================================================== *)

(* ------------------------------------------------------------------ *)
(** ** Numbers *)
(* ------------------------------------------------------------------ *)

Lemma Rle_b_true (a b : R) : a <= b -> Rle_b a b = true.
Proof. intros H. unfold Rle_b. destruct (Rle_dec a b); [reflexivity|contradiction]. Qed.

Lemma Rle_b_false (a b : R) : b < a -> Rle_b a b = false.
Proof. intros H. unfold Rle_b. destruct (Rle_dec a b); [lra|reflexivity]. Qed.

Lemma Rlt_b_true (a b : R) : a < b -> Rlt_b a b = true.
Proof. intros H. unfold Rlt_b. destruct (Rlt_dec a b); [reflexivity|contradiction]. Qed.

Lemma Rlt_b_false (a b : R) : b <= a -> Rlt_b a b = false.
Proof. intros H. unfold Rlt_b. destruct (Rlt_dec a b); [lra|reflexivity]. Qed.

Lemma Req_b_false (a b : R) : a <> b -> Req_b a b = false.
Proof. intros H. unfold Req_b. destruct (Req_dec_T a b); [contradiction|reflexivity]. Qed.

Lemma Req_b_true (a b : R) : a = b -> Req_b a b = true.
Proof.
  intros H. unfold Req_b. destruct (Req_dec_T a b); [reflexivity|contradiction].
Qed.

(* ------------------------------------------------------------------ *)
(** ** Geometry: the point-to-segment distance *)
(* ------------------------------------------------------------------ *)

Lemma not_nan_spec (x : float) :
  is_nan x = false -> Prim2SF x <> S754_nan.
Proof.
  unfold is_nan. rewrite FloatAxioms.eqb_spec. intros H E. rewrite E in H.
  discriminate H.
Qed.

Lemma finite_spec (x : float) :
  is_finite x = true -> SFbounded (Prim2SF x) = true.
Proof.
  unfold is_finite, is_nan, is_infinity.
  rewrite !FloatAxioms.eqb_spec, FloatAxioms.abs_spec.
  destruct (Prim2SF x) as [s|s| |s m e]; cbn; intros H;
    try reflexivity; try discriminate H.
  destruct s; discriminate H.
Qed.

Lemma sub_self (x : float) :
  SFbounded (Prim2SF x) = true -> (x - x)%float = 0%float.
Proof.
  intros H.
  rewrite <- (SF2Prim_Prim2SF (x - x)), FloatAxioms.sub_spec.
  destruct (Prim2SF x) as [s|s| |s m e]; try discriminate H.
  - destruct s; reflexivity.
  - unfold SF64sub, SFsub. cbv zeta. rewrite Z.sub_diag. reflexivity.
Qed.

Lemma sqrt_sign (x : float) :
  match Prim2SF (PrimFloat.sqrt x) with
  | S754_finite true _ _ | S754_infinity true => False
  | _ => True
  end.
Proof.
  rewrite FloatAxioms.sqrt_spec. unfold SF64sqrt, SFsqrt.
  destruct (Prim2SF x) as [s|[|]| |[|] m e]; try exact I.
  destruct (SFsqrt_core_binary _ _ _ _) as [[mz ez] lz].
  unfold binary_round_aux.
  destruct (shr_fexp _ _ _ _ _) as [mrs' e'].
  destruct (shr_fexp _ _ _ _ _) as [mrs'' e''].
  destruct (shr_m mrs''); try exact I.
  destruct (_ <=? _)%Z; exact I.
Qed.

Lemma sqrt_nonneg (x : float) :
  is_nan (PrimFloat.sqrt x) = true \/ (0 <=? PrimFloat.sqrt x)%float = true.
Proof.
  pose proof (sqrt_sign x) as H.
  unfold is_nan. rewrite FloatAxioms.eqb_spec, FloatAxioms.leb_spec.
  destruct (Prim2SF (PrimFloat.sqrt x)) as [s|[|]| |[|] m e];
    try contradiction; cbn; auto.
Qed.

Lemma ltb_leb (x y : float) :
  (x <? y)%float = true -> (x <=? y)%float = true.
Proof.
  rewrite FloatAxioms.ltb_spec, FloatAxioms.leb_spec. unfold SFltb, SFleb.
  destruct (SFcompare _ _) as [[| |]|]; intros H; try discriminate H;
    reflexivity.
Qed.

Lemma SFcompare_defined (x y : spec_float) :
  x <> S754_nan -> y <> S754_nan -> SFcompare x y <> None.
Proof.
  destruct x as [| [|] | | [|] ? ?], y as [| [|] | | [|] ? ?]; cbn;
    intros Hx Hy; try congruence;
    destruct (_ ?= _)%Z; congruence.
Qed.

Lemma SFcompare_Gt_Lt (x y : spec_float) :
  SFcompare x y = Some Gt -> SFcompare y x = Some Lt.
Proof.
  destruct x as [| [|] | | [|] m1 e1], y as [| [|] | | [|] m2 e2]; cbn;
    try congruence;
    rewrite (Z.compare_antisym e1 e2);
    destruct (e1 ?= e2)%Z; cbn; try congruence;
    change (PosDef.Pos.compare_cont Eq m2 m1) with (Pos.compare m2 m1);
    change (PosDef.Pos.compare_cont Eq m1 m2) with (Pos.compare m1 m2);
    rewrite (Pos.compare_antisym m1 m2);
    destruct (m1 ?= m2)%positive; cbn; congruence.
Qed.

Lemma not_ltb_leb (x y : float) :
  is_nan x = false -> is_nan y = false ->
  (y <? x)%float = false -> (x <=? y)%float = true.
Proof.
  intros Hx Hy. apply not_nan_spec in Hx, Hy.
  rewrite FloatAxioms.ltb_spec, FloatAxioms.leb_spec. unfold SFltb, SFleb.
  pose proof (SFcompare_defined _ _ Hx Hy) as Hd.
  pose proof (SFcompare_Gt_Lt (Prim2SF x) (Prim2SF y)) as Ha.
  destruct (SFcompare (Prim2SF x) (Prim2SF y)) as [[| |]|];
    try reflexivity; try congruence.
  rewrite Ha by reflexivity. discriminate.
Qed.

Lemma Math_min_one (q : float) :
  is_nan (Math_min 1%float q) = true
  \/ (is_nan (Math_min 1%float q) = false
      /\ (Math_min 1%float q <=? 1)%float = true).
Proof.
  unfold Math_min.
  change (is_nan 1%float) with false. change (get_sign 1%float) with false.
  cbv iota.
  destruct (is_nan q) eqn:Hq; [left; exact Hq|].
  destruct (1 <? q)%float eqn:H1; [right; split; reflexivity|].
  destruct (q <? 1)%float eqn:H2.
  - right; split; [exact Hq | apply ltb_leb, H2].
  - right; split; [exact Hq|].
    apply not_ltb_leb; [exact Hq|reflexivity|exact H1].
Qed.

Lemma clamp_unit (q : float) :
  let t := Math_max 0%float (Math_min 1%float q) in
  is_nan t = true \/ in_unit_interval t.
Proof.
  cbv zeta. destruct (Math_min_one q) as [Hn|[Hn Hle]];
    set (y := Math_min 1%float q) in *; unfold Math_max;
    change (is_nan 0%float) with false; change (get_sign 0%float) with false;
    cbv iota; rewrite Hn; [left; exact Hn|].
  destruct (0 <? y)%float eqn:H1.
  - right; split; [apply ltb_leb, H1 | exact Hle].
  - destruct (y <? 0)%float; right; split; reflexivity.
Qed.


Lemma zero64_cases (x : float) :
  zero64 x -> x = 0%float \/ x = (-0)%float.
Proof.
  unfold zero64. intros H. rewrite <- (SF2Prim_Prim2SF x).
  destruct (Prim2SF x) as [[|]| | |]; try discriminate H;
    [right|left]; reflexivity.
Qed.

Lemma SFadd_bounded (x y : spec_float) :
  SFbounded (SFadd prec emax x y) = true ->
  SFbounded x = true /\ SFbounded y = true.
Proof.
  destruct x as [[|]|[|]| |], y as [[|]|[|]| |]; cbn; auto.
Qed.

Lemma SFsub_bounded (x y : spec_float) :
  SFbounded (SFsub prec emax x y) = true ->
  SFbounded x = true /\ SFbounded y = true.
Proof.
  destruct x as [[|]|[|]| |], y as [[|]|[|]| |]; cbn; auto.
Qed.

Lemma SFmul_self_bounded (x : spec_float) :
  SFbounded (SFmul prec emax x x) = true -> SFbounded x = true.
Proof. destruct x as [[|]|[|]| |]; cbn; auto. Qed.

Lemma summands_bounded (u v : float) :
  is_finite (u * u + v * v)%float = true ->
  SFbounded (Prim2SF u) = true /\ SFbounded (Prim2SF v) = true.
Proof.
  intros H. apply finite_spec in H. revert H.
  rewrite FloatAxioms.add_spec, !FloatAxioms.mul_spec. intros H.
  apply SFadd_bounded in H. destruct H as [Hu Hv].
  split; apply SFmul_self_bounded; assumption.
Qed.

Lemma zero_mul_bounded (z u : float) :
  zero64 z -> SFbounded (Prim2SF u) = true -> zero64 (z * u)%float.
Proof.
  unfold zero64. rewrite FloatAxioms.mul_spec.
  destruct (Prim2SF z), (Prim2SF u); cbn; congruence.
Qed.

Lemma zero_add_zero (a b : float) :
  zero64 a -> zero64 b -> zero64 (a + b)%float.
Proof.
  unfold zero64. rewrite FloatAxioms.add_spec.
  destruct (Prim2SF a) as [[|]| | |], (Prim2SF b) as [[|]| | |]; cbn;
    congruence.
Qed.

Lemma zero_div_finite (z l : float) :
  zero64 z -> is_finite l = true -> (l =? 0)%float = false ->
  zero64 (z / l)%float.
Proof.
  unfold zero64. intros Hz Hl. apply finite_spec in Hl.
  rewrite FloatAxioms.eqb_spec, FloatAxioms.div_spec.
  change (Prim2SF 0) with (S754_zero false).
  destruct (Prim2SF z), (Prim2SF l) as [[|]| | |]; cbn in *; congruence.
Qed.

Lemma clamp_zero (q : float) :
  zero64 q -> Math_max 0%float (Math_min 1%float q) = 0%float.
Proof.
  intros H. destruct (zero64_cases q H) as [-> | ->]; reflexivity.
Qed.

Lemma offset_from_itself (x z : float) :
  SFbounded (Prim2SF x) = true -> zero64 z -> zero64 (x - (x + z))%float.
Proof.
  intros Hx Hz. pose proof Hx as Hb.
  destruct (Prim2SF x) as [s| | |s m e] eqn:E in Hb; try discriminate Hb.
  - assert (Hx0 : zero64 x) by (unfold zero64; rewrite E; reflexivity).
    destruct (zero64_cases x Hx0) as [-> | ->],
             (zero64_cases z Hz) as [-> | ->]; reflexivity.
  - assert (Hs : (x + z)%float = x).
    { apply Prim2SF_inj. rewrite FloatAxioms.add_spec, E.
      unfold zero64 in Hz. destruct (Prim2SF z); try discriminate Hz.
      reflexivity. }
    rewrite Hs, (sub_self x Hx). reflexivity.
Qed.

Lemma sqrt_of_zeros (a b : float) :
  zero64 a -> zero64 b -> PrimFloat.sqrt (a * a + b * b)%float = 0%float.
Proof.
  intros Ha Hb.
  destruct (zero64_cases a Ha) as [-> | ->],
           (zero64_cases b Hb) as [-> | ->]; reflexivity.
Qed.

Lemma distance_at_start (x1 y1 x2 y2 : float) :
  is_finite ((x2 - x1) * (x2 - x1) + (y2 - y1) * (y2 - y1))%float = true ->
  pointToLineDistance64 x1 y1 x1 y1 x2 y2 = 0%float.
Proof.
  intros HL. unfold pointToLineDistance64.
  destruct (summands_bounded _ _ HL) as [Hdx Hdy].
  assert (Hx : SFbounded (Prim2SF x1) = true).
  { pose proof Hdx as H. rewrite FloatAxioms.sub_spec in H.
    apply SFsub_bounded in H. apply H. }
  assert (Hy : SFbounded (Prim2SF y1) = true).
  { pose proof Hdy as H. rewrite FloatAxioms.sub_spec in H.
    apply SFsub_bounded in H. apply H. }
  rewrite (sub_self x1 Hx), (sub_self y1 Hy).
  destruct (_ =? 0)%float eqn:Hz; [reflexivity|].
  assert (H0 : zero64 0%float) by reflexivity.
  rewrite clamp_zero.
  - apply sqrt_of_zeros; apply offset_from_itself;
      auto using zero_mul_bounded.
  - apply zero_div_finite; [|exact HL|exact Hz].
    apply zero_add_zero; apply zero_mul_bounded; assumption.
Qed.

(** Claim C6, on the double-precision numbers of the source.  For every
    point p and endpoints a, b:
    - the result is NaN or at least 0;
    - when the squared length of ab is computed as 0 (in particular when
      a = b is finite) the result is the computed distance from p to a;
    - otherwise it is the computed distance from p to a + t (b - a), where
      t is the computed projection parameter clamped with [Math.max] and
      [Math.min], which is NaN or lies in [0,1];
    - when p is the endpoint a and the squared length of ab is computed
      as a finite number, the result is 0. *)
Theorem pointToLineDistance64_spec (px py x1 y1 x2 y2 : float) :
  let d := pointToLineDistance64 px py x1 y1 x2 y2 in
  let t := projection_parameter64 px py x1 y1 x2 y2 in
  let lineLengthSq :=
    ((x2 - x1) * (x2 - x1) + (y2 - y1) * (y2 - y1))%float in
  (is_nan d = true \/ (0 <=? d)%float = true)
  /\ ((lineLengthSq =? 0)%float = true -> d = euclid64 px py x1 y1)
  /\ (is_finite x1 = true -> is_finite y1 = true -> x2 = x1 -> y2 = y1 ->
      d = euclid64 px py x1 y1)
  /\ ((lineLengthSq =? 0)%float = false ->
      (is_nan t = true \/ in_unit_interval t)
      /\ d = euclid64 px py (x1 + t * (x2 - x1))%float
                           (y1 + t * (y2 - y1))%float)
  /\ (is_finite lineLengthSq = true -> px = x1 -> py = y1 -> d = 0%float).
Proof.
  cbv zeta.
  unfold pointToLineDistance64, projection_parameter64, euclid64.
  split; [|split; [|split; [|split]]].
  - destruct (_ =? _)%float; apply sqrt_nonneg.
  - intros ->. reflexivity.
  - intros Hx Hy -> ->.
    rewrite (sub_self x1 (finite_spec x1 Hx)),
      (sub_self y1 (finite_spec y1 Hy)).
    reflexivity.
  - intros ->. split; [apply clamp_unit|reflexivity].
  - intros HL -> ->. apply distance_at_start, HL.
Qed.

Lemma pointToLineDistance64_spec_witness :
  pointToLineDistance64 3 4 0 0 0 0 = 5%float
  /\ in_unit_interval (projection_parameter64 3 4 0 0 8 0)
  /\ pointToLineDistance64 3 4 0 0 8 0 = 4%float
  /\ pointToLineDistance64 0 0 0 0 8 0 = 0%float.
Proof.
  destruct (pointToLineDistance64_spec 3 4 0 0 0 0) as (_ & _ & Hd & _).
  destruct (pointToLineDistance64_spec 3 4 0 0 8 0) as (_ & _ & _ & Hp & _).
  destruct (pointToLineDistance64_spec 0 0 0 0 8 0) as (_ & _ & _ & _ & Ha).
  split; [rewrite Hd by reflexivity; reflexivity|].
  destruct (Hp eq_refl) as [[Hn|Ht] Hv].
  - discriminate Hn.
  - split; [exact Ht|]. split; [rewrite Hv; reflexivity|].
    apply Ha; reflexivity.
Defined.

Lemma value_tiny : 0 < value 0x1p-600%float.
Proof.
  unfold value.
  replace (Prim2SF 0x1p-600%float)
    with (S754_finite false 4503599627370496 (-652))
    by (vm_compute; reflexivity).
  apply Rmult_lt_0_compat; [lra|].
  apply powerRZ_lt. lra.
Qed.

(** Claim C6 as written fails in both directions of its last part.  The
    endpoint b = (0.1, 0) of the segment from a = (0.5, 0) lies on the
    segment, yet the result there is positive, because a + 1 * (b - a) is
    rounded away from b.  The point (0, 2^-600) lies off the segment from
    (0, 0) to (1, 0), yet the result is 0, because its square underflows. *)
Lemma zero_distance_differs_from_on_segment :
  (on_segment (value tenth) (value 0%float) (value 0.5%float) (value 0%float)
     (value tenth) (value 0%float)
   /\ (0 <? pointToLineDistance64 tenth 0 0.5 0 tenth 0)%float = true)
  /\ (~ on_segment (value 0%float) (value 0x1p-600%float) (value 0%float)
        (value 0%float) (value 1%float) (value 0%float)
      /\ pointToLineDistance64 0 0x1p-600 0 0 1 0 = 0%float).
Proof.
  split; split.
  - exists 1. split; [lra|]. split; ring.
  - vm_compute. reflexivity.
  - intros (t & _ & _ & H). pose proof value_tiny as Hp.
    replace (value 0%float) with 0 in H by (unfold value; reflexivity).
    nra.
  - vm_compute. reflexivity.
Qed.

(* ------------------------------------------------------------------ *)
(** ** The stroke outline *)
(* ------------------------------------------------------------------ *)

Lemma mapi_from_length {A B : Type} (f : A -> nat -> B) (l : list A) (i : nat) :
  length (mapi_from f i l) = length l.
Proof.
  revert i. induction l as [|a l IH]; intros i; simpl; [reflexivity|].
  now rewrite IH.
Qed.

Lemma flat_map_singletons {A : Type} (f : nat -> list A) (k m : nat) :
  (forall j, length (f (S j)) = 1%nat) ->
  length (flat_map f (seq (S k) m)) = m.
Proof.
  intros Hf. revert k. induction m as [|m IH]; intros k; simpl; [reflexivity|].
  rewrite length_app, Hf, IH. reflexivity.
Qed.

Lemma getStroke_length (points : list Point) (options : StrokeOptions) :
  length (getStroke points options)
  = match points with
    | [] => 0%nat
    | _ :: _ => (2 * length points + 1)%nat
    end.
Proof.
  unfold getStroke.
  rewrite length_app, length_map, length_rev, length_seq.
  unfold mapi. rewrite mapi_from_length.
  destruct points as [|p ps]; [reflexivity|].
  cbn [length seq flat_map]. rewrite length_app.
  rewrite flat_map_singletons by (intros j; reflexivity).
  cbn [length]. unfold Point in *. lia.
Qed.

(** Claim C3, amended.  For every options value: the outline of an empty
    input is empty; the outline of a single point has 3 points; the outline
    of n >= 1 points has 2n + 1 points; and the number of outline points
    never decreases when the number of input points grows. *)
Theorem getStroke_point_count :
  (forall options, getStroke [] options = [])
  /\ (forall options p, length (getStroke [p] options) = 3%nat)
  /\ (forall options points,
        (1 <= length points)%nat ->
        length (getStroke points options) = (2 * length points + 1)%nat)
  /\ (forall options ps qs,
        (length ps <= length qs)%nat ->
        (length (getStroke ps options) <= length (getStroke qs options))%nat).
Proof.
  split; [|split; [|split]].
  - intros options. apply length_zero_iff_nil. apply getStroke_length.
  - intros options p. rewrite getStroke_length. reflexivity.
  - intros options points H. rewrite getStroke_length.
    destruct points; [simpl in H; lia|reflexivity].
  - intros options ps qs H. rewrite !getStroke_length.
    destruct ps, qs; simpl in *; lia.
Qed.

Lemma getStroke_single_point_not_empty :
  getStroke [(0, 0)] default_options <> [].
Proof.
  intros H. apply (f_equal (@length Point)) in H.
  rewrite getStroke_length in H. discriminate H.
Qed.

(* ------------------------------------------------------------------ *)
(** ** The history log and the model operations *)
(* ------------------------------------------------------------------ *)

(** Evaluation of a closed store expression, with numbers left as written. *)
Ltac run :=
  lazy -[IZR INR Rplus Rminus Rmult Rdiv Ropp Rinv Rabs Rmax Rmin sqrt].

Lemma slice0_firstn {A : Type} (l : list A) (e : Z) :
  (0 <= e)%Z -> slice0 l e = firstn (Z.to_nat e) l.
Proof.
  intros He. unfold slice0.
  destruct (e <? 0)%Z eqn:E; [apply Z.ltb_lt in E; lia|].
  destruct (Z.le_ge_cases e (Z.of_nat (length l))) as [H|H].
  - rewrite Z.min_l by exact H. reflexivity.
  - rewrite Z.min_r by lia. rewrite Nat2Z.id.
    rewrite firstn_all. symmetry. apply firstn_all2. lia.
Qed.

Lemma slice0_bounded {A : Type} (l : list A) (e : Z) :
  (length (slice0 l e) <= length l)%nat.
Proof. unfold slice0. rewrite length_firstn. lia. Qed.

Lemma saveToHistory_paths (s : CanvasStore) :
  paths (saveToHistory s) = paths s.
Proof. unfold saveToHistory. destruct (_ <? _)%nat; reflexivity. Qed.

Lemma saveToHistory_shapes (s : CanvasStore) :
  shapes (saveToHistory s) = shapes s.
Proof. unfold saveToHistory. destruct (_ <? _)%nat; reflexivity. Qed.

Lemma saveToHistory_unfold (s : CanvasStore) :
  cursor_ok s ->
  let kept := firstn (Z.to_nat (historyIndex s + 1)) (history s) in
  let snap := mkEntry (paths s) (shapes s) in
  length kept = Z.to_nat (historyIndex s + 1)
  /\ if (length kept <? 50)%nat
     then history (saveToHistory s) = kept ++ [snap]
          /\ historyIndex (saveToHistory s) = (historyIndex s + 1)%Z
     else history (saveToHistory s) = tl kept ++ [snap]
          /\ historyIndex (saveToHistory s) = historyIndex s.
Proof.
  intros Hc kept snap. unfold cursor_ok in Hc.
  assert (Hlen : length kept = Z.to_nat (historyIndex s + 1)).
  { unfold kept. apply firstn_length_le. lia. }
  split; [exact Hlen|].
  unfold saveToHistory. rewrite slice0_firstn by lia. fold kept snap.
  rewrite length_app. cbn [length].
  destruct (length kept <? 50)%nat eqn:E.
  - apply Nat.ltb_lt in E.
    destruct (50 <? length kept + 1)%nat eqn:E2;
      [apply Nat.ltb_lt in E2; lia|]. split; reflexivity.
  - apply Nat.ltb_ge in E.
    destruct (50 <? length kept + 1)%nat eqn:E2;
      [|apply Nat.ltb_ge in E2; lia].
    split; [|reflexivity]. cbn [history set_history].
    destruct kept; [simpl in E; lia|reflexivity].
Qed.

Lemma saveToHistory_cursor (s : CanvasStore) :
  cursor_ok s ->
  historyIndex (saveToHistory s)
  = (Z.of_nat (length (history (saveToHistory s))) - 1)%Z.
Proof.
  intros Hc. destruct (saveToHistory_unfold s Hc) as [Hlen H].
  unfold cursor_ok in Hc.
  destruct (_ <? 50)%nat eqn:E; destruct H as [-> ->];
    rewrite length_app; cbn [length].
  - rewrite Hlen. lia.
  - apply Nat.ltb_ge in E.
    destruct (firstn _ _) as [|e l]; [simpl in E; lia|].
    cbn [tl length] in *. lia.
Qed.

Lemma saveToHistory_bounded (s : CanvasStore) :
  (length (history s) <= 50)%nat ->
  (length (history (saveToHistory s)) <= 50)%nat.
Proof.
  intros Hb. unfold saveToHistory.
  pose proof (slice0_bounded (history s) (historyIndex s + 1)) as Hs.
  destruct (50 <? _)%nat eqn:E; cbn [history set_history set_historyIndex].
  - rewrite length_app in *. cbn [length] in *.
    destruct (slice0 _ _); cbn [app tl length] in *; [lia|].
    rewrite length_app. cbn [length]. lia.
  - apply Nat.ltb_ge in E. exact E.
Qed.

Lemma saveToHistory_synced (s : CanvasStore) :
  cursor_ok s -> synced (saveToHistory s).
Proof.
  intros Hc. unfold synced.
  rewrite saveToHistory_paths, saveToHistory_shapes.
  pose proof (saveToHistory_cursor s Hc) as Hi.
  destruct (saveToHistory_unfold s Hc) as [Hlen H].
  unfold cursor_ok in Hc. unfold nth_Z.
  destruct (_ <? 50)%nat eqn:E; destruct H as [Hh Hx].
  - rewrite Hx, Hh.
    destruct (_ <? 0)%Z eqn:E0; [apply Z.ltb_lt in E0; lia|].
    rewrite nth_error_app2 by lia.
    replace (_ - _)%nat with 0%nat by lia. reflexivity.
  - apply Nat.ltb_ge in E. rewrite Hx, Hh.
    destruct (_ <? 0)%Z eqn:E0; [apply Z.ltb_lt in E0; lia|].
    destruct (firstn _ _) as [|e l]; [simpl in E; lia|].
    cbn [tl length] in *.
    rewrite nth_error_app2 by lia.
    replace (_ - _)%nat with 0%nat by lia. reflexivity.
Qed.

Lemma skipn_succ_tl {A : Type} (j : nat) (l : list A) :
  skipn (S j) l = tl (skipn j l).
Proof.
  revert l. induction j as [|j IH]; intros [|a l]; try reflexivity.
  change (skipn (S j) l = tl (skipn j l)). apply IH.
Qed.

Lemma lastn_snoc {A : Type} (d : list A) (m : A) :
  lastn 50 (d ++ [m])
  = if (length (lastn 50 d) <? 50)%nat
    then lastn 50 d ++ [m]
    else tl (lastn 50 d) ++ [m].
Proof.
  unfold lastn. rewrite length_app, length_skipn. cbn [length].
  destruct (Nat.lt_ge_cases (length d) 50) as [H|H].
  - replace (length d - 50)%nat with 0%nat by lia.
    replace (length d + 1 - 50)%nat with 0%nat by lia.
    cbn [skipn]. rewrite Nat.sub_0_r.
    destruct (_ <? 50)%nat eqn:E; [reflexivity|].
    apply Nat.ltb_ge in E. lia.
  - destruct (_ <? 50)%nat eqn:E; [apply Nat.ltb_lt in E; lia|].
    rewrite skipn_app.
    replace (length d + 1 - 50 - length d)%nat with 0%nat by lia.
    cbn [skipn]. f_equal.
    replace (length d + 1 - 50)%nat with (S (length d - 50)) by lia.
    apply skipn_succ_tl.
Qed.

Lemma commit_entry (m : HistoryEntry) (s : CanvasStore) :
  mkEntry (paths (set_shapes (set_paths s (entry_paths m)) (entry_shapes m)))
          (shapes (set_shapes (set_paths s (entry_paths m)) (entry_shapes m)))
  = m.
Proof. destruct m; reflexivity. Qed.

Lemma commit_all_history (ms done : list HistoryEntry) (s : CanvasStore) :
  history s = lastn 50 done ->
  historyIndex s = (Z.of_nat (length (history s)) - 1)%Z ->
  history (commit_all ms s) = lastn 50 (done ++ ms)
  /\ historyIndex (commit_all ms s)
     = (Z.of_nat (length (history (commit_all ms s))) - 1)%Z
  /\ (ms <> [] -> synced (commit_all ms s)).
Proof.
  revert done s. induction ms as [|m ms IH]; intros done s Hh Hi.
  - rewrite app_nil_r. cbn [commit_all fold_left].
    split; [exact Hh|]. split; [exact Hi|]. intros N; contradiction.
  - cbn [commit_all fold_left]. fold (commit_all ms (commit m s)).
    set (s0 := set_shapes (set_paths s (entry_paths m)) (entry_shapes m)).
    assert (Hc : cursor_ok s0) by (unfold cursor_ok, s0; cbn; lia).
    assert (Hh1 : history (commit m s) = lastn 50 (done ++ [m])).
    { unfold commit. fold s0.
      destruct (saveToHistory_unfold s0 Hc) as [Hlen H].
      assert (Hk : firstn (Z.to_nat (historyIndex s0 + 1)) (history s0)
                   = lastn 50 done).
      { unfold s0. cbn [history historyIndex set_shapes set_paths].
        rewrite Hi, <- Hh. replace (_ - 1 + 1)%Z with (Z.of_nat (length (history s))) by lia.
        rewrite Nat2Z.id. apply firstn_all. }
      rewrite Hk in H. unfold s0 in H. rewrite commit_entry in H. fold s0 in H.
      rewrite lastn_snoc.
      destruct (_ <? 50)%nat; destruct H as [-> _]; reflexivity. }
    assert (Hi1 : historyIndex (commit m s)
                  = (Z.of_nat (length (history (commit m s))) - 1)%Z).
    { apply saveToHistory_cursor. exact Hc. }
    destruct (IH (done ++ [m]) (commit m s) Hh1 Hi1) as (IH1 & IH2 & IH3).
    rewrite <- app_assoc in IH1. split; [exact IH1|]. split; [exact IH2|].
    intros _. destruct ms as [|m' ms'].
    + cbn [commit_all fold_left]. apply saveToHistory_synced. exact Hc.
    + apply IH3. discriminate.
Qed.

Lemma undo_n_at_oldest (k : nat) (s : CanvasStore) :
  historyIndex s = 0%Z -> undo_n k s = Some s.
Proof.
  intros H. induction k as [|k IH]; [reflexivity|].
  cbn [undo_n]. unfold undo. rewrite H. cbn. exact IH.
Qed.

Lemma undo_step (s : CanvasStore) (i : nat) :
  historyIndex s = Z.of_nat (S i) ->
  (S i < length (history s))%nat ->
  exists s', undo s = Some s'
             /\ historyIndex s' = Z.of_nat i
             /\ history s' = history s
             /\ synced s'.
Proof.
  intros Hi Hlt. unfold undo. rewrite Hi.
  destruct (0 <? Z.of_nat (S i))%Z eqn:E; [|apply Z.ltb_ge in E; lia].
  replace (Z.of_nat (S i) - 1)%Z with (Z.of_nat i) by lia.
  unfold nth_Z. destruct (Z.of_nat i <? 0)%Z eqn:E0; [apply Z.ltb_lt in E0; lia|].
  rewrite Nat2Z.id.
  destruct (nth_error (history s) i) as [prevState|] eqn:En.
  - eexists. split; [reflexivity|]. split; [reflexivity|]. split; [reflexivity|].
    unfold synced. cbn. unfold nth_Z. rewrite E0, Nat2Z.id, En.
    destruct prevState; reflexivity.
  - apply nth_error_None in En. lia.
Qed.

Lemma undo_n_reaches_oldest (i k : nat) (s : CanvasStore) :
  historyIndex s = Z.of_nat i ->
  (i < length (history s))%nat ->
  synced s ->
  (i <= k)%nat ->
  exists s', undo_n k s = Some s'
             /\ historyIndex s' = 0%Z
             /\ history s' = history s
             /\ synced s'.
Proof.
  revert k s. induction i as [|i IH]; intros k s Hi Hlt Hs Hk.
  - exists s. split; [apply undo_n_at_oldest; exact Hi|]. auto.
  - destruct k as [|k]; [lia|].
    destruct (undo_step s i Hi Hlt) as (s1 & Hu & Hi1 & Hh1 & Hs1).
    destruct (IH k s1 Hi1 ltac:(rewrite Hh1; lia) Hs1 ltac:(lia))
      as (s' & Hn & H0 & Hh & Hsy).
    exists s'. cbn [undo_n]. rewrite Hu. split; [exact Hn|].
    split; [exact H0|]. split; [congruence|exact Hsy].
Qed.

(** Claim C1.  The undo/redo log is bounded at 50 entries.
    (1) A commit keeps the entries up to the cursor, appends a snapshot of
    the current paths and shapes and advances the cursor; when the kept
    entries already number 50, the oldest one is dropped instead and the
    cursor stays where it is.
    (2) A log of at most 50 entries stays one.
    (3) After 60 commits from an empty log the log holds exactly the last
    50 snapshots with the cursor on the newest, and 50 calls of [undo()]
    all succeed and end on the oldest retained snapshot, the one written by
    the 11th commit, with the log itself untouched. *)
Theorem history_bounded_at_50 :
  (forall s, cursor_ok s ->
     let kept := firstn (Z.to_nat (historyIndex s + 1)) (history s) in
     let snap := mkEntry (paths s) (shapes s) in
     if (length kept <? 50)%nat
     then history (saveToHistory s) = kept ++ [snap]
          /\ historyIndex (saveToHistory s) = (historyIndex s + 1)%Z
     else history (saveToHistory s) = tl kept ++ [snap]
          /\ historyIndex (saveToHistory s) = historyIndex s)
  /\ (forall s, (length (history s) <= 50)%nat ->
                (length (history (saveToHistory s)) <= 50)%nat)
  /\ (forall s ms,
        history s = [] -> historyIndex s = (-1)%Z -> length ms = 60%nat ->
        let s60 := commit_all ms s in
        length (history s60) = 50%nat
        /\ history s60 = skipn 10 ms
        /\ historyIndex s60 = 49%Z
        /\ exists s', undo_n 50 s60 = Some s'
                      /\ historyIndex s' = 0%Z
                      /\ history s' = history s60
                      /\ nth_error ms 10
                         = Some (mkEntry (paths s') (shapes s'))).
Proof.
  split; [|split].
  - intros s Hc. apply (saveToHistory_unfold s Hc).
  - apply saveToHistory_bounded.
  - intros s ms Hh Hi Hlen s60.
    destruct (commit_all_history ms [] s) as (H1 & H2 & H3).
    { rewrite Hh. reflexivity. }
    { rewrite Hh, Hi. reflexivity. }
    fold s60 in H1, H2, H3. cbn [app] in H1.
    assert (Hsk : history s60 = skipn 10 ms).
    { rewrite H1. unfold lastn. rewrite Hlen. reflexivity. }
    assert (Hl : length (history s60) = 50%nat).
    { rewrite Hsk, length_skipn, Hlen. reflexivity. }
    assert (Hx : historyIndex s60 = 49%Z) by (rewrite H2, Hl; reflexivity).
    split; [exact Hl|]. split; [exact Hsk|]. split; [exact Hx|].
    destruct (undo_n_reaches_oldest 49 50 s60) as (s' & Hu & H0 & Hh' & Hs').
    { exact Hx. }
    { rewrite Hl. lia. }
    { apply H3. intros ->. discriminate Hlen. }
    { lia. }
    exists s'. split; [exact Hu|]. split; [exact H0|]. split; [exact Hh'|].
    unfold synced in Hs'. rewrite H0, Hh', Hsk in Hs'. unfold nth_Z in Hs'.
    cbn [Z.ltb Z.compare Z.to_nat] in Hs'.
    rewrite nth_error_skipn in Hs'. exact Hs'.
Qed.

Lemma history_bounded_at_50_witness :
  length (history (commit_all sixty_models empty_store)) = 50%nat.
Proof.
  apply (proj2 (proj2 history_bounded_at_50) empty_store sixty_models);
    reflexivity.
Defined.

Lemma cursor_ok_ext (s s' : CanvasStore) :
  history s' = history s -> historyIndex s' = historyIndex s ->
  cursor_ok s -> cursor_ok s'.
Proof. unfold cursor_ok. intros -> ->. auto. Qed.

Lemma saveToHistory_cursor_ok (s : CanvasStore) :
  cursor_ok s -> cursor_ok (saveToHistory s).
Proof.
  intros Hc. pose proof (saveToHistory_cursor s Hc) as H.
  unfold cursor_ok. lia.
Qed.

Lemma undo_cursor_ok (s s' : CanvasStore) :
  cursor_ok s -> undo s = Some s' ->
  cursor_ok s' /\ history s' = history s.
Proof.
  unfold undo, cursor_ok. intros Hc H.
  destruct (0 <? historyIndex s)%Z eqn:E.
  - apply Z.ltb_lt in E. destruct (nth_Z _ _); [|discriminate H].
    injection H as <-. cbn. split; [lia|reflexivity].
  - injection H as <-. auto.
Qed.

Lemma redo_cursor_ok (s s' : CanvasStore) :
  cursor_ok s -> redo s = Some s' ->
  cursor_ok s' /\ history s' = history s.
Proof.
  unfold redo, cursor_ok. intros Hc H.
  destruct (_ <? _)%Z eqn:E.
  - apply Z.ltb_lt in E. destruct (nth_Z _ _); [|discriminate H].
    injection H as <-. cbn. split; [lia|reflexivity].
  - injection H as <-. auto.
Qed.

(** Closes the goals left by the operations that end in one
    [saveToHistory] or leave the log alone. *)
Ltac log_step lemma_save lemma_ext :=
  repeat match goal with
         | |- context [if collab_active ?s then _ else _] =>
             destruct (collab_active s)
         end;
  first [ apply lemma_save; eapply lemma_ext; [..|eassumption]; reflexivity
        | eapply lemma_ext; [..|eassumption]; reflexivity ].

Lemma apply_op_cursor_ok (op : StoreOp) (s s' : CanvasStore) :
  cursor_ok s -> apply_op op s = Some s' -> cursor_ok s'.
Proof.
  intros Hc H.
  destruct op; cbn [apply_op] in H;
    try (injection H as <-);
    try (apply (undo_cursor_ok s s' Hc H));
    try (apply (redo_cursor_ok s s' Hc H));
    unfold setTool, setSnapEnabled, addPath, addShape, updateShape,
      deleteShape, deletePath, clearPaths, clearShapes, clearCanvas,
      setSelectedIds, clearSelection, deleteSelected, setStagePos,
      setStageScale, setPaths, setShapes, initializeCollaboration,
      stateChangeCallback, stopCollaborating, disconnectCollaboration,
      collaborativeAddPath, collaborativeAddShape, collaborativeUpdateShape,
      collaborativeDeleteSelected,
      collaborativeClearCanvas, addPath, addShape,
      updateShape, deleteSelected, clearCanvas;
    try exact (saveToHistory_cursor_ok s Hc);
    log_step saveToHistory_cursor_ok cursor_ok_ext.
Qed.

Lemma bounded_ext (s s' : CanvasStore) :
  history s' = history s ->
  (length (history s) <= 50)%nat -> (length (history s') <= 50)%nat.
Proof. intros ->. auto. Qed.

Lemma apply_op_bounded (op : StoreOp) (s s' : CanvasStore) :
  cursor_ok s ->
  (length (history s) <= 50)%nat -> apply_op op s = Some s' ->
  (length (history s') <= 50)%nat.
Proof.
  intros Hc Hb H.
  destruct op; cbn [apply_op] in H;
    try (injection H as <-);
    try (destruct (undo_cursor_ok s s' Hc H) as [_ ->]; exact Hb);
    try (destruct (redo_cursor_ok s s' Hc H) as [_ ->]; exact Hb);
    unfold setTool, setSnapEnabled, addPath, addShape, updateShape,
      deleteShape, deletePath, clearPaths, clearShapes, clearCanvas,
      setSelectedIds, clearSelection, deleteSelected, setStagePos,
      setStageScale, setPaths, setShapes, initializeCollaboration,
      stateChangeCallback, stopCollaborating, disconnectCollaboration,
      collaborativeAddPath, collaborativeAddShape, collaborativeUpdateShape,
      collaborativeDeleteSelected,
      collaborativeClearCanvas, addPath, addShape,
      updateShape, deleteSelected, clearCanvas;
    try exact (saveToHistory_bounded s Hb);
    log_step saveToHistory_bounded bounded_ext.
Qed.

Lemma initial_store_cursor_ok (ps : list CanvasPath) (ss : list CanvasShape) :
  cursor_ok (initial_store ps ss)
  /\ (length (history (initial_store ps ss)) <= 50)%nat.
Proof.
  unfold cursor_ok, initial_store. cbn [history historyIndex].
  destruct (_ || _); cbn; lia.
Qed.

Lemma reachable_by_log_invariant (allowed : StoreOp -> bool)
      (s : CanvasStore) :
  reachable_by allowed s ->
  cursor_ok s /\ (length (history s) <= 50)%nat.
Proof.
  induction 1 as [ps ss|op s s' _ [IHc IHb] _ Hop].
  - apply initial_store_cursor_ok.
  - split.
    + apply (apply_op_cursor_ok op s s' IHc Hop).
    + apply (apply_op_bounded op s s' IHc IHb Hop).
Qed.

Lemma commit_reachable (m : HistoryEntry) (s : CanvasStore) :
  store_reachable s -> store_reachable (commit m s).
Proof.
  intros H. unfold commit.
  apply (by_op _ OpSaveToHistory
               (set_shapes (set_paths s (entry_paths m)) (entry_shapes m)));
    [|reflexivity|reflexivity].
  apply (by_op _ (OpSetShapes (entry_shapes m))
               (set_paths s (entry_paths m)));
    [|reflexivity|reflexivity].
  apply (by_op _ (OpSetPaths (entry_paths m)) s);
    [exact H|reflexivity|reflexivity].
Qed.

Lemma commit_all_reachable (ms : list HistoryEntry) (s : CanvasStore) :
  store_reachable s -> store_reachable (commit_all ms s).
Proof.
  revert s. induction ms as [|m ms IH]; intros s H; [exact H|].
  cbn [commit_all fold_left]. apply IH. apply commit_reachable. exact H.
Qed.

(** Claim C10.  In every state the store can reach, the cursor right after
    [saveToHistory()] is [history.length - 1], whether the entry was
    appended or the oldest one evicted, and so [canRedo()] is false. *)
Theorem saveToHistory_cursor_at_newest (s : CanvasStore) :
  store_reachable s ->
  historyIndex (saveToHistory s)
  = (Z.of_nat (length (history (saveToHistory s))) - 1)%Z
  /\ canRedo (saveToHistory s) = false.
Proof.
  intros Hr. destruct (reachable_by_log_invariant _ s Hr) as [Hc _].
  pose proof (saveToHistory_cursor s Hc) as H.
  split; [exact H|]. unfold canRedo. rewrite H. apply Z.ltb_irrefl.
Qed.

Lemma saveToHistory_cursor_at_newest_witness :
  store_reachable full_store
  /\ length (history full_store) = 50%nat
  /\ length (history (saveToHistory full_store)) = 50%nat
  /\ historyIndex (saveToHistory full_store) = 49%Z
  /\ canRedo (saveToHistory full_store) = false.
Proof.
  assert (H : store_reachable full_store).
  { apply commit_all_reachable. apply by_create. }
  split; [exact H|].
  split; [run; reflexivity|]. split; [run; reflexivity|].
  split; [run; reflexivity|].
  apply (saveToHistory_cursor_at_newest full_store H).
Defined.

Lemma redo_undo_synced (s : CanvasStore) :
  synced s ->
  canRedo s = true ->
  exists s1 s2,
    redo s = Some s1 /\ undo s1 = Some s2
    /\ paths s2 = paths s /\ shapes s2 = shapes s
    /\ historyIndex s2 = historyIndex s /\ history s2 = history s.
Proof.
  intros Hs Hr. unfold synced, nth_Z in Hs. unfold canRedo in Hr.
  apply Z.ltb_lt in Hr.
  destruct (historyIndex s <? 0)%Z eqn:E0; [discriminate Hs|].
  apply Z.ltb_ge in E0.
  unfold redo. destruct (_ <? _)%Z eqn:E; [|apply Z.ltb_ge in E; lia].
  unfold nth_Z at 1.
  destruct (historyIndex s + 1 <? 0)%Z eqn:E1; [apply Z.ltb_lt in E1; lia|].
  destruct (nth_error (history s) (Z.to_nat (historyIndex s + 1)))
    as [nextState|] eqn:En; [|apply nth_error_None in En; lia].
  eexists. eexists. split; [reflexivity|].
  unfold undo.
  cbn [historyIndex history set_selectedIds set_historyIndex set_shapes
       set_paths].
  destruct (0 <? historyIndex s + 1)%Z eqn:E2; [|apply Z.ltb_ge in E2; lia].
  replace (historyIndex s + 1 - 1)%Z with (historyIndex s) by lia.
  unfold nth_Z.
  destruct (historyIndex s <? 0)%Z eqn:E3; [apply Z.ltb_lt in E3; lia|].
  rewrite Hs. split; [reflexivity|].
  cbn. repeat split; lia.
Qed.

Lemma log_matches_ext (s s' : CanvasStore) :
  history s' = history s -> historyIndex s' = historyIndex s ->
  paths s' = paths s -> shapes s' = shapes s ->
  log_matches_model s -> log_matches_model s'.
Proof.
  unfold log_matches_model, synced. intros -> -> -> ->. auto.
Qed.

Lemma saveToHistory_matches (s : CanvasStore) :
  cursor_ok s -> log_matches_model (saveToHistory s).
Proof. intros Hc. right. apply saveToHistory_synced. exact Hc. Qed.

Lemma undo_matches (s s' : CanvasStore) :
  log_matches_model s -> undo s = Some s' -> log_matches_model s'.
Proof.
  unfold undo. intros Hm H.
  destruct (0 <? historyIndex s)%Z eqn:E; [|injection H as <-; exact Hm].
  destruct (nth_Z _ _) as [prev|] eqn:En; [|discriminate H].
  injection H as <-. right. unfold synced. cbn. rewrite En.
  destruct prev; reflexivity.
Qed.

Lemma redo_matches (s s' : CanvasStore) :
  log_matches_model s -> redo s = Some s' -> log_matches_model s'.
Proof.
  unfold redo. intros Hm H.
  destruct (_ <? _)%Z eqn:E; [|injection H as <-; exact Hm].
  destruct (nth_Z _ _) as [next|] eqn:En; [|discriminate H].
  injection H as <-. right. unfold synced. cbn. rewrite En.
  destruct next; reflexivity.
Qed.

Lemma apply_op_matches (op : StoreOp) (s s' : CanvasStore) :
  is_inbound op = false ->
  cursor_ok s -> log_matches_model s ->
  apply_op op s = Some s' -> log_matches_model s'.
Proof.
  intros Hin Hc Hm H.
  destruct op; try discriminate Hin; cbn [apply_op] in H;
    try (injection H as <-);
    try (apply (undo_matches s s' Hm H));
    try (apply (redo_matches s s' Hm H));
    unfold setTool, setSnapEnabled, addPath, addShape, updateShape,
      deleteShape, deletePath, clearPaths, clearShapes, clearCanvas,
      setSelectedIds, clearSelection, deleteSelected, setStagePos,
      setStageScale, initializeCollaboration,
      stopCollaborating, disconnectCollaboration,
      collaborativeAddPath, collaborativeAddShape, collaborativeUpdateShape,
      collaborativeDeleteSelected,
      collaborativeClearCanvas, addPath, addShape,
      updateShape, deleteSelected, clearCanvas;
    try exact (saveToHistory_matches s Hc);
    repeat match goal with
           | |- context [if collab_active ?s then _ else _] =>
               destruct (collab_active s)
           end;
    first [ apply saveToHistory_matches;
            eapply cursor_ok_ext; [..|exact Hc]; reflexivity
          | eapply log_matches_ext; [..|exact Hm]; reflexivity ].
Qed.

Lemma initial_store_matches (ps : list CanvasPath) (ss : list CanvasShape) :
  log_matches_model (initial_store ps ss).
Proof.
  unfold log_matches_model, synced, initial_store.
  cbn [history historyIndex paths shapes].
  destruct (_ || _); [right|left]; auto.
Qed.

Lemma locally_reachable_matches (s : CanvasStore) :
  locally_reachable s -> log_matches_model s.
Proof.
  intros Hr.
  assert (H : cursor_ok s /\ log_matches_model s).
  { induction Hr as [ps ss|op s s' _ [IHc IHm] Hal Hop].
    - split; [apply initial_store_cursor_ok|apply initial_store_matches].
    - split; [apply (apply_op_cursor_ok op s s' IHc Hop)|].
      apply negb_true_iff in Hal.
      apply (apply_op_matches op s s' Hal IHc IHm Hop). }
  apply H.
Qed.

Lemma matches_redo_synced (s : CanvasStore) :
  log_matches_model s -> canRedo s = true -> synced s.
Proof.
  intros [[Hh Hi]|Hs] Hr; [|exact Hs].
  unfold canRedo in Hr. rewrite Hh, Hi in Hr. discriminate Hr.
Qed.

(** Claim C7, amended.  When the arrays on screen are the snapshot under
    the cursor, which holds in every state reached without the
    collaboration callback writing into the arrays, and [redo()] is
    enabled, then [redo()] followed by [undo()] both succeed and give back
    the paths, the shapes, the cursor and the log as they were. *)
Theorem redo_then_undo_restores (s : CanvasStore) :
  synced s \/ locally_reachable s ->
  canRedo s = true ->
  exists s1 s2,
    redo s = Some s1 /\ undo s1 = Some s2
    /\ paths s2 = paths s /\ shapes s2 = shapes s
    /\ historyIndex s2 = historyIndex s /\ history s2 = history s.
Proof.
  intros H Hr. apply redo_undo_synced; [|exact Hr].
  destruct H as [Hs|Hl]; [exact Hs|].
  apply matches_redo_synced; [|exact Hr].
  apply locally_reachable_matches. exact Hl.
Qed.

Lemma redo_then_undo_restores_witness :
  exists s s1 s2,
    undone_once = Some s /\ redo s = Some s1 /\ undo s1 = Some s2
    /\ paths s2 = paths s /\ shapes s2 = shapes s.
Proof.
  eexists. 
  destruct (redo_then_undo_restores
              (set_selectedIds
                 (set_historyIndex
                    (set_shapes (set_paths after_two_shapes [])
                                [sample_shape "a" 0 0 100 100]) 0%Z) []))
    as (s1 & s2 & H1 & H2 & H3 & H4 & _).
  - left. run. reflexivity.
  - run. reflexivity.
  - exists s1, s2. split; [run; reflexivity|]. repeat split; assumption.
Defined.

Lemma redo_then_undo_after_remote_update :
  exists s s1 s2,
    remote_update_after_undo = Some s
    /\ canRedo s = true
    /\ redo s = Some s1 /\ undo s1 = Some s2
    /\ paths s = [sample_path "p"] /\ paths s2 = [].
Proof.
  unfold remote_update_after_undo.
  assert (E : undo after_two_shapes
     = Some (set_selectedIds
                 (set_historyIndex
                    (set_shapes (set_paths after_two_shapes [])
                                [sample_shape "a" 0 0 100 100]) 0%Z) [])).
  { run. reflexivity. }
  rewrite E. cbn [option_map].
  eexists. eexists. eexists.
  split; [reflexivity|]. 
  split; [run; reflexivity|]. split; [run; reflexivity|].
  split; [run; reflexivity|]. split; reflexivity.
Qed.

Lemma map_no_match {A : Type} (key : A -> string) (f : A -> A) (id : string)
      (l : list A) :
  ~ In id (map key l) ->
  map (fun a => if String.eqb (key a) id then f a else a) l = l.
Proof.
  induction l as [|a l IH]; intros H; [reflexivity|].
  cbn [map] in *. destruct (String.eqb_spec (key a) id) as [E|N].
  - exfalso. apply H. left. exact E.
  - f_equal. apply IH. intros Hin. apply H. right. exact Hin.
Qed.

Lemma filter_no_match {A : Type} (key : A -> string) (id : string)
      (l : list A) :
  ~ In id (map key l) ->
  filter (fun a => negb (String.eqb (key a) id)) l = l.
Proof.
  induction l as [|a l IH]; intros H; [reflexivity|].
  cbn [map filter] in *. destruct (String.eqb_spec (key a) id) as [E|N].
  - exfalso. apply H. left. exact E.
  - cbn [negb]. f_equal. apply IH. intros Hin. apply H. right. exact Hin.
Qed.

(** Claim C8.  For an id carried by no shape and no path,
    [updateShape(id, updates)], [deleteShape(id)] and [deletePath(id)]
    leave the paths and the shapes arrays as they were.  The three
    operations are total functions of the store: none of them can throw. *)
Theorem absent_id_leaves_model_unchanged
        (s : CanvasStore) (id : string) (updates : ShapeUpdates) :
  ~ In id (map shape_id (shapes s)) ->
  ~ In id (map path_id (paths s)) ->
  (paths (updateShape id updates s) = paths s
   /\ shapes (updateShape id updates s) = shapes s)
  /\ (paths (deleteShape id s) = paths s
      /\ shapes (deleteShape id s) = shapes s)
  /\ (paths (deletePath id s) = paths s
      /\ shapes (deletePath id s) = shapes s).
Proof.
  intros Hs Hp. unfold updateShape, deleteShape, deletePath.
  rewrite !saveToHistory_paths, !saveToHistory_shapes.
  cbn [paths shapes set_paths set_shapes].
  rewrite (map_no_match shape_id _ id _ Hs).
  rewrite (filter_no_match shape_id id _ Hs).
  rewrite (filter_no_match path_id id _ Hp).
  repeat split; reflexivity.
Qed.

Lemma absent_id_leaves_model_unchanged_witness :
  shapes (updateShape "zz" (updates_xy 7 7) one_of_each) = shapes one_of_each
  /\ shapes (deleteShape "zz" one_of_each) = shapes one_of_each
  /\ paths (deletePath "zz" one_of_each) = paths one_of_each.
Proof.
  destruct (absent_id_leaves_model_unchanged one_of_each "zz" (updates_xy 7 7))
    as ((_ & H1) & (_ & H2) & (H3 & _)).
  - cbn. intros [H|[]]. discriminate H.
  - cbn. intros [H|[]]. discriminate H.
  - split; [exact H1|]. split; [exact H2|exact H3].
Defined.

(* ------------------------------------------------------------------ *)
(** ** The interaction session *)
(* ------------------------------------------------------------------ *)

Lemma same_flags_trans (a b c : Canvas) :
  same_flags a b -> same_flags b c -> same_flags a c.
Proof. unfold same_flags. intuition congruence. Qed.

Lemma handleEraserMouseMove_flags (w : World) (pos : Point) (c : Canvas)
      (s : CanvasStore) :
  same_flags (comp (state_of (handleEraserMouseMove w pos c s))) c.
Proof.
  unfold handleEraserMouseMove.
  destruct (findShapeAtPosition _ _ _) as [sh|];
    [destruct (negb (includes _ (shape_id sh)))|];
    (destruct (findPathAtPosition _ _ _ _) as [p|];
     [destruct (negb (includes _ (path_id p)))|]);
    unfold same_flags; cbn; auto.
Qed.

Lemma handleMouseMove_flags (env : Env) (e : MouseEvent) (w : World) :
  same_flags (comp (handleMouseMove env e w)) (comp w).
Proof.
  destruct w as [c0 s0]. unfold handleMouseMove. cbn [comp store].
  set (c := if negb (isDragging c0) && negb (isResizing c0)
               && negb (isDrawing c0)
            then setTempGuides [] c0 else c0).
  assert (Hc : same_flags c c0).
  { unfold c. destruct (_ && _); unfold same_flags; cbn; auto. }
  clearbody c.
  destruct (Tool_eqb (tool s0) tool_eraser && isMouseDown c0).
  { eapply same_flags_trans; [apply handleEraserMouseMove_flags|exact Hc]. }
  unfold with_guides.
  repeat match goal with
         | |- context [applySnapping ?a ?b ?c ?d ?e ?f ?g ?h] =>
             destruct (applySnapping a b c d e f g h) as [? [?|]]
         | |- context [match isPanning c0 with _ => _ end] =>
             destruct (isPanning c0)
         | |- context [match isResizing c0 with _ => _ end] =>
             destruct (isResizing c0)
         | |- context [match isDragging c0 with _ => _ end] =>
             destruct (isDragging c0)
         | |- context [if negb (isDrawing c0) then _ else _] =>
             destruct (isDrawing c0)
         | |- context [match lastPanPoint c0 with _ => _ end] =>
             destruct (lastPanPoint c0)
         | |- context [match resizeHandle c0 with _ => _ end] =>
             destruct (resizeHandle c0)
         | |- context [match startPos c0 with _ => _ end] =>
             destruct (startPos c0)
         | |- context [match currentShape c0 with _ => _ end] =>
             destruct (currentShape c0)
         | |- context [match selectedIds s0 with _ => _ end] =>
             destruct (selectedIds s0) as [|? [|? ?]]
         | |- context [match find_shape ?a ?b with _ => _ end] =>
             destruct (find_shape a b)
         | |- context [match (0 <? ?n)%nat with _ => _ end] =>
             destruct (0 <? n)%nat
         | |- context [if Tool_eqb ?a ?b then _ else _] =>
             destruct (Tool_eqb a b)
         end;
    unfold same_flags in *; cbn; tauto.
Qed.

Lemma Tool_eqb_eq (a b : Tool) : Tool_eqb a b = true <-> a = b.
Proof. destruct a, b; cbn; split; intros H; congruence. Qed.

Lemma handleMouseUp_resets (env : Env) (w : World) :
  tool (store w) <> tool_eraser ->
  idle (comp (handleMouseUp env w))
  /\ tempGuides (comp (handleMouseUp env w)) = [].
Proof.
  intros Ht. destruct w as [c0 s0]. cbn [store] in Ht.
  unfold handleMouseUp, idle, active_modes. cbn [comp store].
  destruct (Tool_eqb (tool s0) tool_eraser) eqn:Ee;
    [apply Tool_eqb_eq in Ee; contradiction|].
  destruct (isDrawing c0) eqn:Ed; cbn [negb];
    [destruct (Tool_eqb (tool s0) tool_pen && (0 <? length (currentPath c0))%nat);
     [|destruct (currentShape c0)]|];
    cbn; rewrite ?Ed; auto.
Qed.

(** With the eraser the handler is left at the throw of
    [handleEraserMouseUp]: only [setIsMouseDown(false)] has run. *)
Lemma handleMouseUp_eraser (env : Env) (w : World) :
  tool (store w) = tool_eraser ->
  handleMouseUp env w = mkWorld (setIsMouseDown false (comp w)) (store w).
Proof.
  intros Ht. unfold handleMouseUp, handleEraserMouseUp. rewrite Ht.
  reflexivity.
Qed.

Lemma handleMouseUp_modes (env : Env) (w : World) :
  at_most_one_mode (comp w) ->
  at_most_one_mode (comp (handleMouseUp env w)).
Proof.
  intros H. destruct (Tool_eqb (tool (store w)) tool_eraser) eqn:Ee.
  - apply Tool_eqb_eq in Ee. rewrite (handleMouseUp_eraser env w Ee).
    exact H.
  - assert (Ht : tool (store w) <> tool_eraser).
    { intros E. apply Tool_eqb_eq in E. congruence. }
    destruct (handleMouseUp_resets env w Ht) as [Hi _].
    unfold idle in Hi. unfold at_most_one_mode. rewrite Hi. lia.
Qed.

Lemma idle_flags (c : Canvas) :
  idle c ->
  isPanning c = false /\ isDragging c = false
  /\ isResizing c = false /\ isDrawing c = false.
Proof.
  unfold idle, active_modes.
  destruct (isPanning c), (isDragging c), (isResizing c), (isDrawing c);
    cbn; intros H; try discriminate H; auto.
Qed.

Lemma handleMouseDown_from_idle (env : Env) (e : MouseEvent) (w : World) :
  idle (comp w) -> at_most_one_mode (comp (handleMouseDown env e w)).
Proof.
  intros Hi. apply idle_flags in Hi. destruct Hi as (Hp & Hd & Hr & Hw).
  destruct w as [c0 s0]. cbn [comp] in *.
  unfold handleMouseDown, at_most_one_mode, active_modes, startTextCreation,
    handleEraserMouseDown, with_guides.
  cbn [comp store].
  destruct (tool s0);
    repeat match goal with
           | |- context [applySnapping ?a ?b ?c ?d ?e ?f ?g ?h] =>
               destruct (applySnapping a b c d e f g h) as [? [?|]]
           | |- context [match selection_handle ?a ?b ?c ?d with _ => _ end] =>
               destruct (selection_handle a b c d)
           | |- context [match findShapeAtPosition ?a ?b ?c with _ => _ end] =>
               destruct (findShapeAtPosition a b c)
           | |- context [match canvas_rect env with _ => _ end] =>
               destruct (canvas_rect env) as [[? ?]|]
           end;
    cbn; rewrite ?Hp, ?Hd, ?Hr, ?Hw; cbn; lia.
Qed.

Lemma same_flags_modes (c c' : Canvas) :
  same_flags c c' -> active_modes c = active_modes c'.
Proof.
  unfold same_flags, active_modes. intros (-> & -> & -> & ->). reflexivity.
Qed.

Lemma reachable_from_idle_invariant (w : World) :
  reachable_from_idle w -> at_most_one_mode (comp w).
Proof.
  induction 1 as [s|env e w _ _ Hi|env e w _ IH|env w _ IH|op w _ IH].
  - unfold at_most_one_mode. cbn. lia.
  - apply handleMouseDown_from_idle. exact Hi.
  - unfold at_most_one_mode in *.
    rewrite (same_flags_modes _ _ (handleMouseMove_flags env e w)). exact IH.
  - apply handleMouseUp_modes. exact IH.
  - cbn [step]. destruct (apply_op op (store w)); exact IH.
Qed.

(** Claim C9, amended.  (1) Along every sequence of events in which a
    pointer-down only arrives while no mode is active, at most one of
    panning, dragging, resizing and drawing is active.  (2) A pointer-down
    from the idle state activates at most one mode.  (3) Pointer-up with
    any tool but the eraser leaves no mode active and no temporary guide
    line, whatever the state before it. *)
Theorem one_mode_when_entered_from_idle :
  (forall w, reachable_from_idle w -> at_most_one_mode (comp w))
  /\ (forall env e w,
        idle (comp w) -> at_most_one_mode (comp (handleMouseDown env e w)))
  /\ (forall env w,
        tool (store w) <> tool_eraser ->
        idle (comp (handleMouseUp env w))
        /\ tempGuides (comp (handleMouseUp env w)) = []).
Proof.
  split; [exact reachable_from_idle_invariant|].
  split; [exact handleMouseDown_from_idle|exact handleMouseUp_resets].
Qed.

Lemma one_mode_when_entered_from_idle_witness :
  at_most_one_mode
    (comp (handleMouseDown sample_env (click_at 10 20) mounted)).
Proof.
  apply (proj1 (proj2 one_mode_when_entered_from_idle)).
  reflexivity.
Defined.

Lemma two_modes_after_second_pointer_down :
  reachable (run_events pen_then_hand mounted)
  /\ isDrawing (comp (run_events pen_then_hand mounted)) = true
  /\ isPanning (comp (run_events pen_then_hand mounted)) = true
  /\ ~ at_most_one_mode (comp (run_events pen_then_hand mounted)).
Proof.
  split.
  - unfold run_events, pen_then_hand. cbn [fold_left].
    repeat apply reach_step. apply reach_mount.
  - assert (Hd : isDrawing (comp (run_events pen_then_hand mounted)) = true)
      by (run; reflexivity).
    assert (Hp : isPanning (comp (run_events pen_then_hand mounted)) = true)
      by (run; reflexivity).
    split; [exact Hd|]. split; [exact Hp|].
    unfold at_most_one_mode, active_modes. rewrite Hd, Hp. cbn. lia.
Qed.

(** Claim C2, evaluated where the code departs from it.  With the pen
    tool, a pointer-down followed at once by a pointer-up leaves a buffer
    of one sample point; [handleMouseUp] commits it: the model gains a path
    of two coordinates, one that the renderer's own guard refuses to draw,
    and the log gains an entry. *)
Theorem pen_click_commits_one_point_path :
  let p := mkPath (now sample_env) [10; 20] "#000000" 2 None (Some 1) in
  currentPath (comp (handleMouseDown sample_env (click_at 10 20) mounted))
  = [getCanvasCoordinates sample_env empty_store 10 20]
  /\ paths (store mounted) = []
  /\ history (store mounted) = []
  /\ paths (store pen_click) = [p]
  /\ path_is_drawn p = false
  /\ history (store pen_click) = [mkEntry [p] []].
Proof.
  intros p.
  assert (Hp : paths (store pen_click) = [p]).
  { unfold p. run. repeat f_equal; lra. }
  split; [reflexivity|]. split; [reflexivity|]. split; [reflexivity|].
  split; [exact Hp|]. split; [reflexivity|].
  unfold p. run. repeat f_equal; lra.
Qed.

Lemma pen_click_appends_path (env : Env) (e : MouseEvent) (w : World) :
  tool (store w) = tool_pen ->
  collab_active (store w) = false ->
  let pos := getCanvasCoordinates env (store w) (clientX e) (clientY e) in
  paths (store (handleMouseUp env (handleMouseDown env e w)))
  = paths (store w)
    ++ [mkPath (now env) [fst pos; snd pos] (strokeColor (store w))
               (strokeWidth (store w)) None (Some (opacity (store w)))].
Proof.
  intros Ht Hc pos. destruct w as [c s]. cbn [comp store] in *.
  unfold handleMouseDown. cbn [comp store]. rewrite Ht.
  unfold handleMouseUp. cbn [comp store]. rewrite Ht. cbn.
  unfold collaborativeAddPath. rewrite Hc. unfold addPath.
  rewrite saveToHistory_paths. reflexivity.
Qed.

Lemma pending_shape_has_no_size (env : Env) (s : CanvasStore) (ty : ShapeType)
      (filled segment : bool) (pos : Point) :
  hasSize (pending_shape env s ty filled segment pos) = false.
Proof.
  unfold hasSize, pending_shape, differs_from_0.
  cbn [shape_width shape_height shape_points].
  rewrite (Req_b_true 0 0) by reflexivity.
  destruct segment; cbn [negb orb]; [|reflexivity].
  rewrite !Req_b_true by reflexivity. reflexivity.
Qed.

(** The sibling path: a click with a shape tool, pointer-down and pointer-up
    with no move, commits nothing. *)
Lemma shape_click_adds_nothing (env : Env) (e : MouseEvent) (w : World) :
  tool (store w) = tool_rectangle \/ tool (store w) = tool_circle
  \/ tool (store w) = tool_arrow \/ tool (store w) = tool_line ->
  store (handleMouseUp env (handleMouseDown env e w)) = store w.
Proof.
  intros Ht. destruct w as [c s]. cbn [comp store] in *.
  unfold handleMouseDown. cbn [comp store].
  destruct Ht as [Ht|[Ht|[Ht|Ht]]]; rewrite Ht;
    destruct (applySnapping _ _ _ _ _ _ _ _) as [sp [gs|]];
    unfold handleMouseUp; cbn [comp store with_guides]; rewrite Ht; cbn;
    rewrite pending_shape_has_no_size; reflexivity.
Qed.

(* ------------------------------------------------------------------ *)
(** ** Snapping *)
(* ------------------------------------------------------------------ *)

Section ClosestSnap.
Variables (v tolerance : R) (coord : Point -> R).



Variable c0 : R.
Hypothesis c0_in_reach : Rabs (v - c0) <= tolerance.



End ClosestSnap.









(* ------------------------------------------------------------------ *)
(** ** The eraser sweep *)
(* ------------------------------------------------------------------ *)

Lemma includes_In (ids : list string) (id : string) :
  includes ids id = true <-> In id ids.
Proof.
  unfold includes. rewrite existsb_exists. split.
  - intros (x & Hx & E). apply String.eqb_eq in E. subst. exact Hx.
  - intros H. exists id. split; [exact H|apply String.eqb_refl].
Qed.

Lemma saveToHistory_grows (s : CanvasStore) :
  historyIndex s = (Z.of_nat (length (history s)) - 1)%Z ->
  (length (history s) < 50)%nat ->
  length (history (saveToHistory s)) = S (length (history s))
  /\ historyIndex (saveToHistory s)
     = (Z.of_nat (length (history (saveToHistory s))) - 1)%Z.
Proof.
  intros Hi Hl.
  assert (Hc : cursor_ok s) by (unfold cursor_ok; lia).
  split; [|apply saveToHistory_cursor; exact Hc].
  destruct (saveToHistory_unfold s Hc) as [Hlen H].
  destruct (_ <? 50)%nat eqn:E.
  - destruct H as [-> _]. rewrite length_app, Hlen. cbn [length]. lia.
  - apply Nat.ltb_ge in E. lia.
Qed.

Lemma inside_sample_box (px py : R) :
  0 <= px <= 100 -> 0 <= py <= 100 ->
  findShapeAtPosition [sample_shape "a" 0 0 100 100] px py
  = Some (sample_shape "a" 0 0 100 100).
Proof.
  intros Hx Hy. unfold findShapeAtPosition, num_or.
  cbn [rev app find sample_shape shape_x shape_y shape_width shape_height].
  rewrite Req_b_false by lra.
  rewrite !Rle_b_true by lra. reflexivity.
Qed.

Lemma eraser_move_store (env : Env) (e : MouseEvent) (w : World)
      (sh : CanvasShape) :
  let pos := getCanvasCoordinates env (store w) (clientX e) (clientY e) in
  tool (store w) = tool_eraser ->
  isMouseDown (comp w) = true ->
  collab_active (store w) = false ->
  findShapeAtPosition (shapes (store w)) (fst pos) (snd pos) = Some sh ->
  includes (erasedElements (comp w)) (shape_id sh) = false ->
  findPathAtPosition (paths (store w)) (stageScale (store w))
                     (fst pos) (snd pos) = None ->
  store (handleMouseMove env e w)
  = updateShape (shape_id sh) (updates_opacity (faded (shape_opacity sh)))
                (store w)
  /\ erasedElements (comp (handleMouseMove env e w))
     = erasedElements (comp w) ++ [shape_id sh].
Proof.
  intros pos Ht Hm Hc Hs Hi Hp. destruct w as [c s]. cbn [comp store] in *.
  unfold handleMouseMove, handleEraserMouseMove. cbn [comp store].
  rewrite Ht, Hm. cbn [Tool_eqb andb]. fold pos. rewrite Hs, Hi, Hp.
  cbn [negb comp store state_of]. unfold collaborativeUpdateShape.
  rewrite Hc. split; [reflexivity|].
  destruct (negb (isDragging c) && negb (isResizing c) && negb (isDrawing c));
    reflexivity.
Qed.

(** A path under the eraser that has not been touched yet makes the move
    handler throw, at the call of [collaborativeUpdatePath]: the path stays
    as it is and its id does not enter the touched set. *)
Lemma eraser_over_path_throws (w : World) (pos : Point) (c : Canvas)
      (s : CanvasStore) (p : CanvasPath) :
  findPathAtPosition (paths (store w)) (stageScale (store w))
                     (fst pos) (snd pos) = Some p ->
  includes (erasedElements (comp w)) (path_id p) = false ->
  threw (handleEraserMouseMove w pos c s) = true.
Proof.
  intros Hp Hi. unfold handleEraserMouseMove. rewrite Hp, Hi.
  destruct (findShapeAtPosition _ _ _) as [sh|];
    [destruct (negb (includes _ (shape_id sh)))|]; reflexivity.
Qed.

(** The release of the eraser: [handleEraserMouseUp] throws at once and
    [handleMouseUp] is left there, so the store, the touched set, the four
    mode switches and the guide lines are as they were; only
    [setIsMouseDown(false)] has run. *)
Lemma eraser_release_changes_nothing (env : Env) (w : World) :
  tool (store w) = tool_eraser ->
  threw (handleEraserMouseUp w (setIsMouseDown false (comp w)) (store w))
  = true
  /\ store (handleMouseUp env w) = store w
  /\ erasedElements (comp (handleMouseUp env w)) = erasedElements (comp w)
  /\ same_flags (comp (handleMouseUp env w)) (comp w)
  /\ tempGuides (comp (handleMouseUp env w)) = tempGuides (comp w)
  /\ isMouseDown (comp (handleMouseUp env w)) = false.
Proof.
  intros Ht. rewrite (handleMouseUp_eraser env w Ht).
  unfold same_flags. cbn. repeat split; reflexivity.
Qed.

(** Claim C5, evaluated where the code departs from it.  One rectangle is
    on the canvas and the eraser is picked; the pointer is pressed inside
    the rectangle, moved inside it and released.  The move has touched the
    rectangle: its id is in the touched set and its faded opacity has been
    written through [updateShape], with a history entry.  The release then
    throws at [eraseSelected]: the rectangle is still in the model, no
    entry is written for a deletion, and the touched set is not emptied. *)
Theorem eraser_release_deletes_nothing :
  let touched := run_events press_and_move eraser_ready in
  let released := run_events sweep eraser_ready in
  erasedElements (comp touched) = ["a"]
  /\ threw (handleEraserMouseUp touched
                                (setIsMouseDown false (comp touched))
                                (store touched)) = true
  /\ store released = store touched
  /\ map shape_id (shapes (store released)) = ["a"]
  /\ map shape_opacity (shapes (store released)) = [Some (faded (Some 1))]
  /\ erasedElements (comp released) = ["a"]
  /\ length (history (store eraser_ready)) = 1%nat
  /\ length (history (store released)) = 2%nat.
Proof.
  intros touched released.
  set (w1 := handleMouseDown sample_env (click_at 50 50) eraser_ready).
  assert (Et : touched = handleMouseMove sample_env (click_at 50 50) w1)
    by reflexivity.
  assert (Er : released = handleMouseUp sample_env touched).
  { unfold released, touched, sweep, run_events.
    rewrite fold_left_app. reflexivity. }
  assert (Hmove :
    store touched
    = updateShape "a" (updates_opacity (faded (Some 1)))
                  (store eraser_ready)
    /\ erasedElements (comp touched) = ["a"]).
  { rewrite Et.
    apply (eraser_move_store sample_env (click_at 50 50) w1
                             (sample_shape "a" 0 0 100 100));
      try reflexivity.
    apply inside_sample_box; cbn; lra. }
  destruct Hmove as [Hs He].
  assert (Htool : tool (store touched) = tool_eraser)
    by (rewrite Hs; reflexivity).
  destruct (eraser_release_changes_nothing sample_env touched Htool)
    as (Hthrew & Hstore & Herased & _).
  rewrite Er, Hstore, Herased, He, Hs.
  split; [reflexivity|]. split; [exact Hthrew|]. split; [reflexivity|].
  split; [run; reflexivity|]. split; [run; reflexivity|].
  split; [reflexivity|]. split; [reflexivity|]. run. reflexivity.
Qed.

(* ------------------------------------------------------------------ *)
(** ** The store: selection, zoom, images and the undo log *)
(* ------------------------------------------------------------------ *)

Lemma has_shape_In (shapes : list CanvasShape) (id : string) :
  has_shape shapes id = true <-> In id (map shape_id shapes).
Proof.
  unfold has_shape. rewrite existsb_exists, in_map_iff. split.
  - intros (x & Hx & E). apply String.eqb_eq in E. exists x. auto.
  - intros (x & E & Hx). exists x. split; [exact Hx|].
    apply String.eqb_eq. exact E.
Qed.

Lemma includes_false_not_In (ids : list string) (id : string) :
  includes ids id = false <-> ~ In id ids.
Proof.
  rewrite <- includes_In. destruct (includes ids id); split; intros H;
    try reflexivity; try discriminate; try (intros E; discriminate E).
  exfalso. apply H. reflexivity.
Qed.

Lemma filter_not_selected {A : Type} (key : A -> string) (ids : list string)
      (l : list A) (a : A) :
  In a (filter (fun x => negb (includes ids (key x))) l)
  <-> In a l /\ ~ In (key a) ids.
Proof.
  rewrite filter_In, negb_true_iff, includes_false_not_In. tauto.
Qed.

(** X1: after [deleteSelected()] the shapes and paths are those that carried no
    selected id, the selection is empty, and (the cursor being in range) the
    log's entry under the cursor is the new state, with nothing to redo. *)
Theorem deleteSelected_removes_selected (s : CanvasStore) :
  let s' := deleteSelected s in
  (forall sh, In sh (shapes s')
              <-> In sh (shapes s) /\ ~ In (shape_id sh) (selectedIds s))
  /\ (forall p, In p (paths s')
                <-> In p (paths s) /\ ~ In (path_id p) (selectedIds s))
  /\ selectedIds s' = []
  /\ (cursor_ok s -> synced s' /\ canRedo s' = false).
Proof.
  intros s'. unfold s', deleteSelected.
  rewrite saveToHistory_shapes, saveToHistory_paths.
  cbn [shapes paths set_selectedIds set_paths set_shapes].
  split; [intros sh; apply (filter_not_selected shape_id)|].
  split; [intros p; apply (filter_not_selected path_id)|].
  split.
  - unfold saveToHistory. destruct (_ <? _)%nat; reflexivity.
  - intros Hc.
    match goal with |- synced (saveToHistory ?x) /\ _ =>
      assert (Hc' : cursor_ok x) by (eapply cursor_ok_ext; [..|exact Hc]; reflexivity)
    end.
    split; [apply saveToHistory_synced; exact Hc'|].
    unfold canRedo. rewrite (saveToHistory_cursor _ Hc'). apply Z.ltb_irrefl.
Qed.

(** X2: [updateImage] at an id that no shape carries returns the store as it
    is, with no history entry; [updateShape] at the same id appends one
    (on a log below capacity with its cursor on the newest entry). *)
Theorem updateImage_absent_is_silent
        (s : CanvasStore) (id : string) (updates : ShapeUpdates) :
  ~ In id (map shape_id (shapes s)) ->
  updateImage id updates s = s
  /\ (historyIndex s = (Z.of_nat (length (history s)) - 1)%Z ->
      (length (history s) < 50)%nat ->
      length (history (updateShape id updates s)) = S (length (history s))).
Proof.
  intros Hn. split.
  - unfold updateImage.
    destruct (has_shape (shapes s) id) eqn:E; [|reflexivity].
    apply has_shape_In in E. contradiction.
  - intros Hi Hl. unfold updateShape.
    match goal with |- length (history (saveToHistory ?x)) = _ =>
      apply (saveToHistory_grows x); assumption
    end.
Qed.

Lemma updateImage_absent_is_silent_witness :
  updateImage "zz" (updates_xy 7 7) one_of_each = one_of_each
  /\ length (history (updateShape "zz" (updates_xy 7 7) one_of_each))
     = S (length (history one_of_each)).
Proof.
  destruct (updateImage_absent_is_silent one_of_each "zz" (updates_xy 7 7))
    as [H1 H2].
  - cbn. intros [H|[]]. discriminate H.
  - split; [exact H1|]. apply H2; [reflexivity|].
    assert (E : length (history one_of_each) = 2%nat) by (run; reflexivity).
    rewrite E. lia.
Defined.

(** [updateImage] at an id that some shape carries is [updateShape]. *)
Lemma updateImage_present (s : CanvasStore) (id : string)
      (updates : ShapeUpdates) :
  In id (map shape_id (shapes s)) ->
  updateImage id updates s = updateShape id updates s.
Proof.
  intros H. unfold updateImage. apply has_shape_In in H. rewrite H.
  reflexivity.
Qed.

Lemma set_selectedIds_same (s : CanvasStore) :
  set_selectedIds s (selectedIds s) = s.
Proof. destruct s; reflexivity. Qed.

Lemma filter_neq_notin (id : string) (l : list string) :
  ~ In id l ->
  filter (fun selectedId => negb (String.eqb selectedId id)) l = l.
Proof.
  induction l as [|a l IH]; intros H; [reflexivity|].
  cbn [filter]. destruct (String.eqb_spec a id) as [E|N].
  - exfalso. apply H. left. exact E.
  - cbn [negb]. f_equal. apply IH. intros Hin. apply H. right. exact Hin.
Qed.

(** X3: [addToSelection] puts the id in the selection once (no duplicates
    appear, and a second call changes nothing); [removeFromSelection]
    removes it and nothing else; removing an id just added to a selection
    that did not hold it gives back the store as it was. *)
Theorem selection_add_then_remove (s : CanvasStore) (id : string) :
  In id (selectedIds (addToSelection id s))
  /\ (NoDup (selectedIds s) -> NoDup (selectedIds (addToSelection id s)))
  /\ addToSelection id (addToSelection id s) = addToSelection id s
  /\ ~ In id (selectedIds (removeFromSelection id s))
  /\ (forall id', id' <> id ->
        (In id' (selectedIds (removeFromSelection id s))
         <-> In id' (selectedIds s)))
  /\ (~ In id (selectedIds s) ->
      removeFromSelection id (addToSelection id s) = s).
Proof.
  unfold addToSelection, removeFromSelection.
  cbn [selectedIds set_selectedIds].
  destruct (includes (selectedIds s) id) eqn:E.
  - pose proof (proj1 (includes_In _ _) E) as Hin.
    split; [exact Hin|]. split; [auto|].
    split; [cbn [selectedIds set_selectedIds]; rewrite E; destruct s; reflexivity|].
    split; [intros H; apply filter_In in H; destruct H as [_ H];
            rewrite String.eqb_refl in H; discriminate H|].
    split; [|intros Hn; contradiction].
    intros id' Hne. rewrite filter_In, negb_true_iff.
    split; [tauto|]. intros H. split; [exact H|].
    apply String.eqb_neq. exact Hne.
  - pose proof (proj1 (includes_false_not_In _ _) E) as Hn.
    split; [apply in_or_app; right; left; reflexivity|].
    split.
    { intros Hd. apply NoDup_app; [exact Hd|repeat constructor; intros []|].
      intros a Ha [<-|[]]. contradiction. }
    split.
    { cbn [selectedIds set_selectedIds].
      assert (E' : includes (selectedIds s ++ [id]) id = true).
      { apply includes_In. apply in_or_app. right. left. reflexivity. }
      rewrite E'. destruct s; reflexivity. }
    split; [intros H; apply filter_In in H; destruct H as [_ H];
            rewrite String.eqb_refl in H; discriminate H|].
    split.
    { intros id' Hne. rewrite filter_In, negb_true_iff.
      split; [tauto|]. intros H. split; [exact H|].
      apply String.eqb_neq. exact Hne. }
    intros _.
    change (set_selectedIds s
              (filter (fun selectedId => negb (String.eqb selectedId id))
                      (selectedIds s ++ [id])) = s).
    rewrite filter_app. cbn [filter]. rewrite String.eqb_refl. cbn [negb].
    rewrite app_nil_r, (filter_neq_notin id _ Hn).
    apply set_selectedIds_same.
Qed.

(** X4: the zoom operations keep the scale within [0.1, 5]: [zoomIn] never
    exceeds 5 and [zoomOut] never goes below 0.1, each preserving the other
    bound; [resetZoom] and [fitToScreen] set it to 1; at the clamp [zoomIn]
    and [zoomOut] hold the scale. *)
Theorem zoom_keeps_scale_in_range (s : CanvasStore) :
  in_zoom_range (stageScale s) ->
  in_zoom_range (stageScale (zoomIn s))
  /\ in_zoom_range (stageScale (zoomOut s))
  /\ in_zoom_range (stageScale (resetZoom s))
  /\ in_zoom_range (stageScale (fitToScreen s))
  /\ stageScale (resetZoom s) = 1
  /\ stageScale (fitToScreen s) = 1
  /\ (stageScale s = 5 -> stageScale (zoomIn s) = 5)
  /\ (stageScale s = 0.1 -> stageScale (zoomOut s) = 0.1).
Proof.
  unfold in_zoom_range, zoomIn, zoomOut, resetZoom, fitToScreen.
  cbn [stageScale set_stageScale set_stagePos].
  set (r := stageScale s). intros [Hlo Hhi]. clearbody r.
  repeat split; try lra.
  - apply Rmin_glb; lra.
  - apply Rmin_r.
  - apply Rmax_r.
  - apply Rmax_lub; lra.
  - intros ->. apply Rmin_right. lra.
  - intros ->. apply Rmax_right. lra.
Qed.

Lemma zoom_keeps_scale_in_range_witness :
  in_zoom_range (stageScale (zoomIn empty_store))
  /\ in_zoom_range (stageScale (zoomOut empty_store)).
Proof.
  assert (H : in_zoom_range (stageScale empty_store))
    by (unfold in_zoom_range; cbn; lra).
  destruct (zoom_keeps_scale_in_range empty_store H) as (H1 & H2 & _).
  split; [exact H1|exact H2].
Defined.

(** X5: in every state the store can reach, [undo()] and [redo()] return
    without throwing, leave the log as it is, keep the cursor in range, and
    are the identity exactly when [canUndo()], respectively [canRedo()],
    is false; otherwise they move the cursor by one. *)
Theorem undo_redo_never_throw (s : CanvasStore) :
  store_reachable s ->
  exists su sr,
    undo s = Some su /\ redo s = Some sr
    /\ history su = history s /\ history sr = history s
    /\ cursor_ok su /\ cursor_ok sr
    /\ (if canUndo s then historyIndex su = (historyIndex s - 1)%Z
        else su = s)
    /\ (if canRedo s then historyIndex sr = (historyIndex s + 1)%Z
        else sr = s).
Proof.
  intros Hr. destruct (reachable_by_log_invariant _ s Hr) as [Hc _].
  unfold cursor_ok in Hc.
  assert (Hu : exists su, undo s = Some su
             /\ (if canUndo s then historyIndex su = (historyIndex s - 1)%Z
                 else su = s)).
  { unfold undo, canUndo. destruct (0 <? historyIndex s)%Z eqn:E.
    - apply Z.ltb_lt in E. unfold nth_Z.
      destruct (_ <? 0)%Z eqn:E0; [apply Z.ltb_lt in E0; lia|].
      destruct (nth_error _ _) eqn:En; [|apply nth_error_None in En; lia].
      eexists. split; reflexivity.
    - exists s. auto. }
  assert (Hd : exists sr, redo s = Some sr
             /\ (if canRedo s then historyIndex sr = (historyIndex s + 1)%Z
                 else sr = s)).
  { unfold redo, canRedo. destruct (_ <? _)%Z eqn:E.
    - apply Z.ltb_lt in E. unfold nth_Z.
      destruct (_ <? 0)%Z eqn:E0; [apply Z.ltb_lt in E0; lia|].
      destruct (nth_error _ _) eqn:En; [|apply nth_error_None in En; lia].
      eexists. split; reflexivity.
    - exists s. auto. }
  destruct Hu as (su & Hu & Hu'). destruct Hd as (sr & Hd & Hd').
  exists su, sr.
  destruct (undo_cursor_ok s su Hc Hu) as [Hcu Hhu].
  destruct (redo_cursor_ok s sr Hc Hd) as [Hcr Hhr].
  split; [exact Hu|]. split; [exact Hd|]. split; [exact Hhu|].
  split; [exact Hhr|]. split; [exact Hcu|]. split; [exact Hcr|].
  split; [exact Hu'|exact Hd'].
Qed.

Lemma undo_redo_never_throw_witness :
  exists su sr, undo after_two_shapes = Some su
                /\ redo after_two_shapes = Some sr
                /\ historyIndex su = 0%Z /\ sr = after_two_shapes.
Proof.
  destruct (undo_redo_never_throw after_two_shapes)
    as (su & sr & Hu & Hr & _ & _ & _ & _ & H1 & H2).
  - unfold after_two_shapes.
    eapply (by_op _ (OpAddShape _)); [|reflexivity|reflexivity].
    eapply (by_op _ (OpAddShape _)); [|reflexivity|reflexivity].
    apply by_create.
  - exists su, sr. split; [exact Hu|]. split; [exact Hr|].
    split; [exact H1|exact H2].
Defined.

Lemma mutate_is_commit (m : Mutation) (s : CanvasStore) :
  exists s1, mutate m s = saveToHistory s1
             /\ history s1 = history s
             /\ historyIndex s1 = historyIndex s.
Proof.
  destruct m; cbn [mutate];
    unfold addPath, addShape, updateShape, deleteShape, deletePath,
      clearPaths, clearShapes, clearCanvas, deleteSelected;
    eexists; (split; [reflexivity|split; reflexivity]).
Qed.

Lemma nth_Z_nth_error {A : Type} (l : list A) (i : Z) :
  (0 <= i)%Z -> nth_Z l i = nth_error l (Z.to_nat i).
Proof.
  intros H. unfold nth_Z.
  destruct (i <? 0)%Z eqn:E; [apply Z.ltb_lt in E; lia|reflexivity].
Qed.

Lemma nth_error_tl {A : Type} (l : list A) (i : nat) :
  nth_error (tl l) i = nth_error l (S i).
Proof. destruct l; [destruct i; reflexivity|reflexivity]. Qed.

Lemma commit_then_undo (s s1 : CanvasStore) :
  synced s ->
  history s1 = history s ->
  historyIndex s1 = historyIndex s ->
  exists s' s'',
    undo (saveToHistory s1) = Some s'
    /\ paths s' = paths s /\ shapes s' = shapes s
    /\ redo s' = Some s''
    /\ paths s'' = paths s1 /\ shapes s'' = shapes s1.
Proof.
  intros Hs Hh Hi. unfold synced, nth_Z in Hs.
  destruct (historyIndex s <? 0)%Z eqn:E0; [discriminate Hs|].
  apply Z.ltb_ge in E0.
  assert (Hlt : (Z.to_nat (historyIndex s) < length (history s))%nat).
  { apply nth_error_Some. rewrite Hs. discriminate. }
  assert (Hc : cursor_ok s1) by (unfold cursor_ok; rewrite Hh, Hi; lia).
  destruct (saveToHistory_unfold s1 Hc) as [Hlen H].
  pose proof (saveToHistory_synced s1 Hc) as Hsy.
  rewrite Hh, Hi in Hlen, H.
  set (kept := firstn (Z.to_nat (historyIndex s + 1)) (history s)) in *.
  assert (Hk : nth_error kept (Z.to_nat (historyIndex s))
               = Some (mkEntry (paths s) (shapes s))).
  { unfold kept. rewrite nth_error_firstn.
    destruct (Z.to_nat (historyIndex s) <? Z.to_nat (historyIndex s + 1))%nat
      eqn:E'; [exact Hs|].
    apply Nat.ltb_ge in E'. lia. }
  assert (Hprev : nth_Z (history (saveToHistory s1))
                        (historyIndex (saveToHistory s1) - 1)
                  = Some (mkEntry (paths s) (shapes s))
                  /\ (0 < historyIndex (saveToHistory s1))%Z).
  { destruct (length kept <? 50)%nat eqn:E; destruct H as [Hh' Hi'];
      rewrite Hh', Hi'.
    - split; [|lia]. rewrite nth_Z_nth_error by lia.
      replace (historyIndex s + 1 - 1)%Z with (historyIndex s) by lia.
      rewrite nth_error_app1 by lia. exact Hk.
    - apply Nat.ltb_ge in E. split; [|lia].
      rewrite nth_Z_nth_error by lia.
      assert (Hl : length (tl kept) = (length kept - 1)%nat)
        by (destruct kept; cbn; lia).
      rewrite nth_error_app1 by lia.
      rewrite nth_error_tl.
      replace (S (Z.to_nat (historyIndex s - 1)))
        with (Z.to_nat (historyIndex s)) by lia.
      exact Hk. }
  destruct Hprev as [Hprev Hpos].
  pose proof (saveToHistory_cursor s1 Hc) as Hcur.
  set (t := saveToHistory s1) in *.
  set (s' := set_selectedIds
               (set_historyIndex
                  (set_shapes (set_paths t (paths s)) (shapes s))
                  (historyIndex t - 1)%Z) []).
  assert (Hu : undo t = Some s').
  { unfold undo. apply Z.ltb_lt in Hpos. rewrite Hpos, Hprev. reflexivity. }
  assert (Hr : redo s'
               = Some (set_selectedIds
                         (set_historyIndex
                            (set_shapes (set_paths s' (paths s1)) (shapes s1))
                            (historyIndex s' + 1)%Z) [])).
  { unfold redo.
    assert (Hlt' : (historyIndex s' <? Z.of_nat (length (history s')) - 1)%Z
                   = true).
    { apply Z.ltb_lt. unfold s'. cbn. lia. }
    rewrite Hlt'.
    assert (Hn : nth_Z (history s') (historyIndex s' + 1)
                 = Some (mkEntry (paths s1) (shapes s1))).
    { unfold s'. cbn [history historyIndex set_selectedIds set_historyIndex
                      set_shapes set_paths].
      replace (historyIndex t - 1 + 1)%Z with (historyIndex t) by lia.
      unfold synced in Hsy. rewrite Hsy. unfold t.
      rewrite saveToHistory_paths, saveToHistory_shapes. reflexivity. }
    rewrite Hn. reflexivity. }
  eexists. eexists. split; [exact Hu|].
  split; [reflexivity|]. split; [reflexivity|].
  split; [exact Hr|]. split; reflexivity.
Qed.

(** X6: every committing mutation can be undone and redone: when the arrays
    are the snapshot under the cursor, [undo()] right after the mutation
    gives back the arrays from before it, and [redo()] then gives the
    mutated arrays again. *)
Theorem mutation_then_undo_restores (m : Mutation) (s : CanvasStore) :
  synced s ->
  exists s' s'',
    undo (mutate m s) = Some s'
    /\ paths s' = paths s /\ shapes s' = shapes s
    /\ redo s' = Some s''
    /\ paths s'' = paths (mutate m s) /\ shapes s'' = shapes (mutate m s).
Proof.
  intros Hs. destruct (mutate_is_commit m s) as (s1 & -> & Hh & Hi).
  rewrite saveToHistory_paths, saveToHistory_shapes.
  apply commit_then_undo; assumption.
Qed.

Lemma mutation_then_undo_restores_witness :
  exists s' s'',
    undo (mutate MutClearCanvas after_two_shapes) = Some s'
    /\ shapes s' = shapes after_two_shapes
    /\ redo s' = Some s''
    /\ shapes s'' = shapes (mutate MutClearCanvas after_two_shapes).
Proof.
  destruct (mutation_then_undo_restores MutClearCanvas after_two_shapes)
    as (s' & s'' & H1 & _ & H3 & H4 & _ & H6).
  - run. reflexivity.
  - exists s', s''. split; [exact H1|]. split; [exact H3|].
    split; [exact H4|exact H6].
Defined.

(** X7: on a store whose log is still empty (the store built from empty
    initial data), the first mutation cannot be undone: it writes the
    log's only entry with the cursor on it, [canUndo()] is false and
    [undo()] changes nothing. *)
Theorem first_mutation_cannot_be_undone (m : Mutation) (s : CanvasStore) :
  history s = [] ->
  historyIndex s = (-1)%Z ->
  history (mutate m s)
  = [mkEntry (paths (mutate m s)) (shapes (mutate m s))]
  /\ historyIndex (mutate m s) = 0%Z
  /\ canUndo (mutate m s) = false
  /\ undo (mutate m s) = Some (mutate m s).
Proof.
  intros Hh Hi. destruct (mutate_is_commit m s) as (s1 & -> & Hh1 & Hi1).
  rewrite saveToHistory_paths, saveToHistory_shapes.
  assert (Hc : cursor_ok s1) by (unfold cursor_ok; rewrite Hh1, Hi1, Hh, Hi; cbn; lia).
  destruct (saveToHistory_unfold s1 Hc) as [_ H].
  rewrite Hh1, Hi1, Hh, Hi in H. cbn in H. destruct H as [H1 H2].
  split; [exact H1|]. split; [exact H2|].
  unfold canUndo, undo. rewrite H2. cbn. auto.
Qed.

Lemma first_mutation_cannot_be_undone_witness :
  shapes (mutate (MutAddShape box_100) empty_store) = [box_100]
  /\ undo (mutate (MutAddShape box_100) empty_store)
     = Some (mutate (MutAddShape box_100) empty_store).
Proof.
  split; [run; reflexivity|].
  apply (first_mutation_cannot_be_undone (MutAddShape box_100) empty_store);
    reflexivity.
Defined.

Lemma saveToHistory_index_nonneg (s : CanvasStore) :
  cursor_ok s -> (0 <= historyIndex (saveToHistory s))%Z.
Proof.
  intros Hc. destruct (saveToHistory_unfold s Hc) as [Hlen H].
  unfold cursor_ok in Hc.
  destruct (_ <? 50)%nat eqn:E; destruct H as [_ ->]; [lia|].
  apply Nat.ltb_ge in E. lia.
Qed.

Lemma apply_op_cursor_nonneg (op : StoreOp) (s s' : CanvasStore) :
  cursor_ok s ->
  (historyIndex s = (-1)%Z -> history s = []) ->
  apply_op op s = Some s' ->
  (historyIndex s' = (-1)%Z -> history s' = []).
Proof.
  intros Hc Hm H.
  assert (Hundo : forall t, undo s = Some t ->
                            historyIndex t = (-1)%Z -> history t = []).
  { unfold undo. intros t Ht. destruct (0 <? historyIndex s)%Z eqn:E.
    - apply Z.ltb_lt in E. destruct (nth_Z _ _); [|discriminate Ht].
      injection Ht as <-. cbn. lia.
    - injection Ht as <-. exact Hm. }
  assert (Hredo : forall t, redo s = Some t ->
                            historyIndex t = (-1)%Z -> history t = []).
  { unfold redo, cursor_ok in *. intros t Ht. destruct (_ <? _)%Z eqn:E.
    - destruct (nth_Z _ _); [|discriminate Ht].
      injection Ht as <-. cbn. lia.
    - injection Ht as <-. exact Hm. }
  assert (Hsave : forall t, history t = history s ->
                            historyIndex t = historyIndex s ->
                            historyIndex (saveToHistory t) = (-1)%Z ->
                            history (saveToHistory t) = []).
  { intros t Hh Hi Hneg.
    assert (Hct : cursor_ok t) by (eapply cursor_ok_ext; eassumption).
    pose proof (saveToHistory_index_nonneg t Hct). lia. }
  destruct op; cbn [apply_op] in H;
    try (injection H as <-);
    try (exact (Hundo s' H));
    try (exact (Hredo s' H));
    unfold setTool, setSnapEnabled, addPath, addShape, updateShape,
      deleteShape, deletePath, clearPaths, clearShapes, clearCanvas,
      setSelectedIds, clearSelection, deleteSelected, setStagePos,
      setStageScale, setPaths, setShapes, initializeCollaboration,
      stateChangeCallback, stopCollaborating, disconnectCollaboration,
      collaborativeAddPath, collaborativeAddShape, collaborativeUpdateShape,
      collaborativeDeleteSelected,
      collaborativeClearCanvas, addPath, addShape,
      updateShape, deleteSelected, clearCanvas;
    repeat match goal with
           | |- context [if collab_active ?s then _ else _] =>
               destruct (collab_active s)
           end;
    first [ apply Hsave; reflexivity | exact Hm ].
Qed.

(** X8: the data invariant of the log: in every state the store can reach the
    cursor is [-1] exactly when the log is empty and an index of the log
    otherwise, and the log never holds more than 50 entries; in every
    state reached without the collaboration callback writing into the
    arrays, a non-empty log has the arrays on screen under its cursor. *)
Theorem history_data_invariant (s : CanvasStore) :
  (store_reachable s ->
   (-1 <= historyIndex s < Z.of_nat (length (history s)))%Z
   /\ (length (history s) <= 50)%nat
   /\ (historyIndex s = (-1)%Z <-> history s = []))
  /\ (locally_reachable s -> history s <> [] -> synced s).
Proof.
  split.
  - intros Hr.
    destruct (reachable_by_log_invariant _ s Hr) as [Hc Hb].
    split; [exact Hc|]. split; [exact Hb|].
    split.
    + assert (H : cursor_ok s
                  /\ (historyIndex s = (-1)%Z -> history s = [])).
      { clear Hc Hb.
        induction Hr as [ps ss|op s s' _ [IHc IHe] _ Hop].
        - split; [apply initial_store_cursor_ok|].
          unfold initial_store. cbn [history historyIndex].
          destruct (_ || _); [discriminate|reflexivity].
        - split; [apply (apply_op_cursor_ok op s s' IHc Hop)|].
          apply (apply_op_cursor_nonneg op s s' IHc IHe Hop). }
      apply H.
    + intros E. unfold cursor_ok in Hc. rewrite E in Hc. cbn in Hc. lia.
  - intros Hl Hne.
    destruct (locally_reachable_matches s Hl) as [[E _]|Hs];
      [contradiction|exact Hs].
Qed.

Lemma history_data_invariant_witness :
  (historyIndex after_two_shapes = (-1)%Z <-> history after_two_shapes = [])
  /\ synced after_two_shapes.
Proof.
  destruct (history_data_invariant after_two_shapes) as (H1 & H2).
  split.
  - apply H1. unfold after_two_shapes.
    eapply (by_op _ (OpAddShape _)); [|reflexivity|reflexivity].
    eapply (by_op _ (OpAddShape _)); [|reflexivity|reflexivity].
    apply by_create.
  - apply H2.
    + unfold after_two_shapes.
      eapply (by_op _ (OpAddShape _)); [|reflexivity|reflexivity].
      eapply (by_op _ (OpAddShape _)); [|reflexivity|reflexivity].
      apply by_create.
    + run. discriminate.
Defined.

(* ------------------------------------------------------------------ *)
(** ** Hit tests *)
(* ------------------------------------------------------------------ *)



Lemma find_none_iff {A : Type} (f : A -> bool) (l : list A) :
  find f l = None <-> forall b, In b l -> f b = false.
Proof.
  split; [apply find_none|].
  induction l as [|c l IH]; [reflexivity|]. intros H. cbn [find].
  rewrite (H c) by (left; reflexivity). apply IH.
  intros b Hb. apply H. right. exact Hb.
Qed.







Lemma find_map {A B : Type} (f : B -> bool) (g : A -> B) (l : list A) :
  find f (map g l) = option_map g (find (fun a => f (g a)) l).
Proof.
  induction l as [|a l IH]; [reflexivity|]. cbn.
  destruct (f (g a)); [reflexivity|exact IH].
Qed.




(* ------------------------------------------------------------------ *)
(** ** Snapping in general *)
(* ------------------------------------------------------------------ *)

Lemma fold_pick_invariant (v tolerance : R) (coord : Point -> R)
      (seen rest : list Point) (acc : ExtNum) :
  match acc with
  | Infinity => forall q, In q seen -> tolerance < Rabs (v - coord q)
  | Fin c => nearest_in_reach v tolerance coord seen c
  end ->
  match fold_left (snap_pick v tolerance coord) rest acc with
  | Infinity => forall q, In q (seen ++ rest) -> tolerance < Rabs (v - coord q)
  | Fin c => nearest_in_reach v tolerance coord (seen ++ rest) c
  end.
Proof.
  revert seen acc. induction rest as [|p rest IH]; intros seen acc Hacc.
  - rewrite app_nil_r. exact Hacc.
  - cbn [fold_left].
    replace (seen ++ p :: rest) with ((seen ++ [p]) ++ rest)
      by (rewrite <- app_assoc; reflexivity).
    apply IH. unfold snap_pick.
    destruct acc as [c|]; cbn [abs_diff lt_ext].
    + destruct Hacc as ((q0 & Hq0 & Hc) & Hr & Hn).
      destruct (Rlt_dec (Rabs (v - coord p)) (Rabs (v - c))) as [L|G].
      * rewrite Rlt_b_true by exact L. rewrite Rle_b_true by lra.
        cbn [andb]. split; [|split].
        -- exists p. split; [apply in_or_app; right; left|]; reflexivity.
        -- lra.
        -- intros q Hq. apply in_app_or in Hq.
           destruct Hq as [Hq|[<-|[]]]; [|lra].
           specialize (Hn q Hq). lra.
      * rewrite Rlt_b_false by lra. cbn [andb]. split; [|split].
        -- exists q0. split; [apply in_or_app; left; exact Hq0|exact Hc].
        -- exact Hr.
        -- intros q Hq. apply in_app_or in Hq.
           destruct Hq as [Hq|[<-|[]]]; [apply Hn, Hq|lra].
    + cbn [andb]. destruct (Rle_dec (Rabs (v - coord p)) tolerance) as [L|G].
      * rewrite Rle_b_true by exact L. split; [|split].
        -- exists p. split; [apply in_or_app; right; left|]; reflexivity.
        -- exact L.
        -- intros q Hq. apply in_app_or in Hq.
           destruct Hq as [Hq|[<-|[]]]; [|lra].
           specialize (Hacc q Hq). lra.
      * rewrite Rle_b_false by lra.
        intros q Hq. apply in_app_or in Hq.
        destruct Hq as [Hq|[<-|[]]]; [apply Hacc, Hq|lra].
Qed.

Lemma closest_snap_cases (v tolerance : R) (coord : Point -> R)
      (snapPoints : list Point) :
  match closest_snap v tolerance coord snapPoints with
  | Infinity => forall q, In q snapPoints -> tolerance < Rabs (v - coord q)
  | Fin c => nearest_in_reach v tolerance coord snapPoints c
  end.
Proof.
  unfold closest_snap.
  apply (fold_pick_invariant v tolerance coord [] snapPoints Infinity).
  intros q [].
Qed.

Lemma closest_snap_fixed (v tolerance : R) (coord : Point -> R)
      (snapPoints : list Point) :
  let snapped :=
    match closest_snap v tolerance coord snapPoints with
    | Fin c => c
    | Infinity => v
    end in
  closest_snap snapped tolerance coord snapPoints
  = closest_snap v tolerance coord snapPoints.
Proof.
  cbv zeta.
  pose proof (closest_snap_cases v tolerance coord snapPoints) as H.
  destruct (closest_snap v tolerance coord snapPoints) as [c|] eqn:E;
    [|exact E].
  destruct H as ((q & Hq & Hc) & Hr & _).
  pose proof (closest_snap_cases c tolerance coord snapPoints) as H'.
  destruct (closest_snap c tolerance coord snapPoints) as [c'|].
  - destruct H' as (_ & _ & Hn). specialize (Hn q Hq).
    rewrite Hc in Hn.
    replace (c - c) with 0 in Hn by ring. rewrite Rabs_R0 in Hn.
    pose proof (Rabs_pos (c - c')) as Hp.
    assert (Hz : Rabs (c - c') = 0) by lra.
    f_equal. unfold Rabs in Hz. destruct (Rcase_abs (c - c')); lra.
  - exfalso. specialize (H' q Hq). rewrite Hc in H'.
    replace (c - c) with 0 in H' by ring. rewrite Rabs_R0 in H'.
    pose proof (Rabs_pos (v - c)). lra.
Qed.




(** X16 (applySnapping): snapping is idempotent: applied to its own result
    it returns the same point and asks for the same guide lines. *)
Theorem applySnapping_idempotent (now : string) (snapEnabled : bool)
        (snapDistance stageScale : R) (shapes : list CanvasShape)
        (x y : R) (shape : option CanvasShape) :
  let once :=
    applySnapping now snapEnabled snapDistance stageScale shapes x y shape in
  applySnapping now snapEnabled snapDistance stageScale shapes
                (fst (fst once)) (snd (fst once)) shape
  = once.
Proof.
  cbv zeta. destruct snapEnabled; [|reflexivity].
  unfold applySnapping. cbn [negb]. cbv zeta.
  pose proof (closest_snap_fixed x (snapDistance / stageScale) fst
                (getAllSnapPoints shapes shape)) as Hx.
  pose proof (closest_snap_fixed y (snapDistance / stageScale) snd
                (getAllSnapPoints shapes shape)) as Hy.
  cbv zeta in Hx, Hy.
  destruct (closest_snap x _ fst _) as [cx|] eqn:Ex;
    destruct (closest_snap y _ snd _) as [cy|] eqn:Ey;
    cbn [fst snd]; rewrite ?Hx, ?Hy, ?Ex, ?Ey; reflexivity.
Qed.

(* ------------------------------------------------------------------ *)
(** ** Pointer gestures *)
(* ------------------------------------------------------------------ *)

(** X17 (handleWheel): from a scale within [0.1, 5] one wheel event leaves
    the scale within [0.1, 5]; wheeling down (positive [deltaY]) never
    raises it and wheeling up never lowers it; paths, shapes and the
    history log are not touched; and without a canvas element nothing
    changes at all. *)
Theorem handleWheel_steps_scale_in_range (env : Env) (e : WheelEvent)
        (s : CanvasStore) :
  in_zoom_range (stageScale s) ->
  let s' := handleWheel env e s in
  in_zoom_range (stageScale s')
  /\ (0 < deltaY e -> stageScale s' <= stageScale s)
  /\ (deltaY e <= 0 -> stageScale s <= stageScale s')
  /\ same_model s s'
  /\ (canvas_rect env = None -> s' = s).
Proof.
  unfold in_zoom_range. intros Hr. cbv zeta.
  unfold handleWheel.
  destruct (canvas_rect env) as [[rect_left rect_top]|].
  - cbn [stageScale stagePos setStagePos setStageScale set_stagePos
         set_stageScale fst snd paths shapes history historyIndex].
    unfold Rlt_b. destruct (Rlt_dec 0 (deltaY e)) as [Hd|Hd].
    + split; [|split; [|split; [|split]]].
      * split; [apply Rmax_l|]. apply Rmax_lub; [lra|apply Rmin_l].
      * intros _. apply Rmax_lub; [lra|].
        eapply Rle_trans; [apply Rmin_r|]. lra.
      * intros H. lra.
      * repeat split.
      * discriminate.
    + split; [|split; [|split; [|split]]].
      * split; [apply Rmax_l|]. apply Rmax_lub; [lra|apply Rmin_l].
      * intros H. lra.
      * intros _. eapply Rle_trans; [|apply Rmax_r].
        apply Rmin_glb; lra.
      * repeat split.
      * discriminate.
  - split; [exact Hr|]. split; [intros _; lra|]. split; [intros _; lra|].
    split; [repeat split|reflexivity].
Qed.

Lemma handleWheel_steps_scale_in_range_witness :
  in_zoom_range (stageScale (handleWheel sample_env (mkWheelEvent 30 40 (-1))
                                         empty_store)).
Proof.
  apply (handleWheel_steps_scale_in_range sample_env
           (mkWheelEvent 30 40 (-1)) empty_store).
  unfold in_zoom_range. cbn. lra.
Defined.

Lemma handleMouseDown_view (env : Env) (e : MouseEvent)
        (w : World) :
  same_model (store w) (store (handleMouseDown env e w))
  /\ stagePos (store (handleMouseDown env e w)) = stagePos (store w)
  /\ stageScale (store (handleMouseDown env e w)) = stageScale (store w)
  /\ tool (store (handleMouseDown env e w)) = tool (store w).
Proof.
  unfold handleMouseDown, same_model. cbv zeta.
  destruct (applySnapping _ _ _ _ _ _ _ None) as [snappedPos g].
  destruct (tool (store w)) eqn:Et; cbn [store]; rewrite ?Et;
    try (repeat split; reflexivity).
  destruct (selection_handle _ _ _ _); cbn [store]; rewrite ?Et;
    [repeat split; reflexivity|].
  destruct (findShapeAtPosition _ _ _); cbn [store].
  - destruct (negb (includes _ _)); [destruct (shiftKey e)|]; cbn;
      rewrite ?Et; repeat split; reflexivity.
  - destruct (negb (shiftKey e)); cbn; rewrite ?Et; repeat split;
      reflexivity.
Qed.

Lemma moves_cons (env : Env) (e : MouseEvent) (es : list MouseEvent)
      (w : World) :
  moves env (e :: es) w = moves env es (handleMouseMove env e w).
Proof. reflexivity. Qed.

Lemma handleMouseMove_view (env : Env) (e : MouseEvent)
        (w : World) :
  isDragging (comp w) = false ->
  isResizing (comp w) = false ->
  tool (store w) <> tool_eraser \/ isMouseDown (comp w) = false ->
  same_model (store w) (store (handleMouseMove env e w))
  /\ selectedIds (store (handleMouseMove env e w)) = selectedIds (store w).
Proof.
  intros Hd Hr He. unfold handleMouseMove. cbv zeta.
  rewrite Hd, Hr.
  assert (Hne : Tool_eqb (tool (store w)) tool_eraser
                && isMouseDown (comp w) = false).
  { destruct He as [He|He]; [|rewrite He; apply andb_false_r].
    destruct (tool (store w)); try reflexivity. contradiction. }
  rewrite Hne. cbn [negb andb].
  set (c := if negb (isDrawing (comp w)) then _ else _).
  unfold same_model.
  destruct (isPanning (comp w)) eqn:Ep;
    [destruct (lastPanPoint (comp w)) as [lp|];
     [cbn; repeat split; reflexivity|]|];
    (destruct (negb (isDrawing (comp w)));
     [cbn; repeat split; reflexivity|];
     destruct (Tool_eqb (tool (store w)) tool_pen);
     [cbn; repeat split; reflexivity|];
     destruct (currentShape (comp w)), (startPos (comp w));
     try (cbn; repeat split; reflexivity);
     destruct (applySnapping _ _ _ _ _ _ _ _) as [snappedPos g];
     cbn; repeat split; reflexivity).
Qed.

(** X20 (handleMouseDown, handleMouseMove): pressing the pointer never
    changes paths, shapes or the history log, whatever the tool, and moving
    it changes them or the selection only while a drag, a resize or an
    eraser sweep is going on. *)
Theorem pointer_keeps_model_outside_gestures (env : Env) (e : MouseEvent)
        (w : World) :
  same_model (store w) (store (handleMouseDown env e w))
  /\ (isDragging (comp w) = false ->
      isResizing (comp w) = false ->
      tool (store w) <> tool_eraser \/ isMouseDown (comp w) = false ->
      same_model (store w) (store (handleMouseMove env e w))
      /\ selectedIds (store (handleMouseMove env e w))
         = selectedIds (store w)).
Proof.
  split; [apply handleMouseDown_view|apply handleMouseMove_view].
Qed.

Lemma pointer_keeps_model_outside_gestures_witness :
  same_model (store mounted)
             (store (handleMouseMove sample_env (click_at 3 4) mounted))
  /\ selectedIds (store (handleMouseMove sample_env (click_at 3 4) mounted))
     = selectedIds (store mounted).
Proof.
  apply (pointer_keeps_model_outside_gestures sample_env (click_at 3 4)
           mounted);
    [reflexivity | reflexivity | right; reflexivity].
Defined.

Lemma saveToHistory_view (s : CanvasStore) :
  tool (saveToHistory s) = tool s
  /\ selectedIds (saveToHistory s) = selectedIds s
  /\ stagePos (saveToHistory s) = stagePos s
  /\ stageScale (saveToHistory s) = stageScale s
  /\ snapEnabled (saveToHistory s) = snapEnabled s.
Proof.
  unfold saveToHistory. destruct (_ <? _)%nat; repeat split; reflexivity.
Qed.

Lemma saveToHistory_collab (s : CanvasStore) :
  collab_active (saveToHistory s) = collab_active s.
Proof.
  unfold saveToHistory, collab_active. destruct (_ <? _)%nat; reflexivity.
Qed.

Lemma collaborativeUpdateShape_view (id : string) (u : ShapeUpdates)
      (s : CanvasStore) :
  collab_active s = false ->
  let s' := collaborativeUpdateShape id u s in
  shapes s'
  = map (fun shape =>
           if String.eqb (shape_id shape) id then spread_shape shape u
           else shape)
        (shapes s)
  /\ paths s' = paths s
  /\ tool s' = tool s
  /\ selectedIds s' = selectedIds s
  /\ stagePos s' = stagePos s
  /\ stageScale s' = stageScale s
  /\ snapEnabled s' = snapEnabled s
  /\ collab_active s' = false.
Proof.
  intros Hc. cbv zeta. unfold collaborativeUpdateShape. rewrite Hc.
  unfold updateShape.
  rewrite saveToHistory_shapes, saveToHistory_paths, saveToHistory_collab.
  match goal with
  | |- context [saveToHistory ?t] =>
      destruct (saveToHistory_view t) as (-> & -> & -> & -> & ->)
  end.
  repeat split; try reflexivity. exact Hc.
Qed.

Lemma find_shape_updated (shapes : list CanvasShape) (id : string)
      (u : ShapeUpdates) :
  u_id u = None \/ u_id u = Some id ->
  find_shape
    (map (fun shape =>
            if String.eqb (shape_id shape) id then spread_shape shape u
            else shape)
         shapes) id
  = option_map (fun shape => spread_shape shape u) (find_shape shapes id).
Proof.
  intros Hu. unfold find_shape.
  induction shapes as [|a l IH]; [reflexivity|]. cbn [map find].
  destruct (String.eqb (shape_id a) id) eqn:E.
  - assert (Hid : String.eqb (shape_id (spread_shape a u)) id = true).
    { cbn [spread_shape shape_id].
      destruct Hu as [-> | ->]; cbn [over]; [exact E|apply String.eqb_refl]. }
    rewrite Hid. reflexivity.
  - rewrite E. exact IH.
Qed.

Lemma over_option_map {A : Type} (o : option A) :
  over (option_map Some o) o = o.
Proof. destruct o; reflexivity. Qed.

Lemma spread_resized (handle : Handle) (shape : CanvasShape)
      (deltaX deltaY : R) :
  spread_shape shape (updates_of_shape (resized handle shape deltaX deltaY))
  = resized handle shape deltaX deltaY.
Proof.
  destruct handle; unfold resized, with_geometry, spread_shape,
    updates_of_shape;
    cbn -[num_or]; rewrite ?over_option_map; reflexivity.
Qed.

Lemma resized_id (handle : Handle) (shape : CanvasShape)
      (deltaX deltaY : R) :
  shape_id (resized handle shape deltaX deltaY) = shape_id shape.
Proof. destruct handle; reflexivity. Qed.

Lemma find_shape_id (shapes : list CanvasShape) (id : string)
      (shape : CanvasShape) :
  find_shape shapes id = Some shape -> shape_id shape = id.
Proof.
  unfold find_shape. intros H. apply find_some in H.
  destruct H as [_ H]. apply String.eqb_eq, H.
Qed.

Lemma getCanvasCoordinates_ext (env : Env) (s s' : CanvasStore)
      (cx cy : R) :
  stagePos s' = stagePos s -> stageScale s' = stageScale s ->
  getCanvasCoordinates env s' cx cy = getCanvasCoordinates env s cx cy.
Proof.
  intros Hp Hs. unfold getCanvasCoordinates. rewrite Hp, Hs. reflexivity.
Qed.

Lemma resize_step (env : Env) (e : MouseEvent) (w : World)
      (handle : Handle) (id : string) (sp : Point) (shape : CanvasShape) :
  resizing_from handle id sp w ->
  find_shape (shapes (store w)) id = Some shape ->
  let pos := pointer_at env (store w) e in
  let w' := handleMouseMove env e w in
  resizing_from handle id pos w'
  /\ find_shape (shapes (store w')) id
     = Some (resized handle shape (fst pos - fst sp) (snd pos - snd sp))
  /\ stagePos (store w') = stagePos (store w)
  /\ stageScale (store w') = stageScale (store w)
  /\ paths (store w') = paths (store w).
Proof.
  intros (Ht & Hp & Hr & Hh & Hsel & Hsp & Hc) Hf. cbv zeta.
  unfold handleMouseMove, pointer_at. cbv zeta.
  rewrite Ht, Hp, Hr, Hh, Hsel, Hsp, Hf. cbn [Tool_eqb andb negb].
  set (pos := getCanvasCoordinates env (store w) (clientX e) (clientY e)).
  set (new := resized handle shape (fst pos - fst sp) (snd pos - snd sp)).
  destruct (collaborativeUpdateShape_view id (updates_of_shape new) (store w)
              Hc)
    as (Hsh & Hpa & Htool & Hids & Hpos & Hsc & _ & Hc').
  unfold resizing_from. cbn [store comp].
  rewrite Hsh, Hpa, Htool, Hids, Hpos, Hsc, Hc'.
  rewrite find_shape_updated, Hf
    by (right; cbn [updates_of_shape u_id]; subst new;
        rewrite resized_id; f_equal; eapply find_shape_id; exact Hf).
  cbn [option_map]. subst new. rewrite spread_resized.
  destruct (isDragging (comp w)); cbn;
    rewrite ?Hp, ?Hr, ?Hh; repeat split; try reflexivity; assumption.
Qed.

Lemma with_geometry_twice (shape : CanvasShape) (x y x' y' : R)
      (width height width' height' : option R) :
  with_geometry (with_geometry shape x y width height) x' y' width' height'
  = with_geometry shape x' y' width' height'.
Proof. reflexivity. Qed.

Lemma free_kept_refl (handle : Handle) (shape : CanvasShape) :
  free_kept handle shape shape.
Proof.
  unfold free_kept. split; [|repeat split; reflexivity].
  exists (shape_x shape), (shape_y shape), (shape_width shape),
    (shape_height shape).
  destruct shape; reflexivity.
Qed.

Lemma free_kept_resized (handle : Handle) (shape cur : CanvasShape)
      (deltaX deltaY : R) :
  free_kept handle shape cur ->
  free_kept handle shape (resized handle cur deltaX deltaY).
Proof.
  intros ((x & y & wd & ht & ->) & Hx & Hy & Hw & Hh).
  unfold free_kept. split.
  - destruct handle; cbv [resized]; cbv zeta; rewrite with_geometry_twice;
      eexists _, _, _, _; reflexivity.
  - destruct handle; cbn in *; repeat split; intros; auto; discriminate.
Qed.

Lemma resize_moves (env : Env) (handle : Handle) (id : string)
      (shape : CanvasShape) (es : list MouseEvent) :
  forall (sp : Point) (w : World) (cur : CanvasShape),
    resizing_from handle id sp w ->
    find_shape (shapes (store w)) id = Some cur ->
    free_kept handle shape cur ->
    exists shape',
      find_shape (shapes (store (moves env es w))) id = Some shape'
      /\ free_kept handle shape shape'.
Proof.
  induction es as [|e es IH]; intros sp w cur Hw Hf Hk.
  - exists cur. split; assumption.
  - rewrite moves_cons.
    destruct (resize_step env e w handle id sp cur Hw Hf)
      as (Hw1 & Hf1 & _).
    eapply IH; [exact Hw1|exact Hf1|].
    apply free_kept_resized, Hk.
Qed.

Ltac decide_Rle :=
  repeat match goal with
         | |- context [Rle_b ?a ?b] =>
             first [ rewrite (Rle_b_true a b) by lra
                   | rewrite (Rle_b_false a b) by lra ]
         | |- context [Req_b ?a ?b] =>
             first [ rewrite (Req_b_true a b) by lra
                   | rewrite (Req_b_false a b) by lra ]
         end.

(** X21 (handleMouseDown, handleMouseMove): with collaboration off, a resize
    begun on a handle of the one selected shape changes nothing but the
    origin and the size of that shape, and after any number of moves the
    coordinates the handle is not attached to are the ones it had: [x]
    unless the handle is on the left, [y] unless it is on top, [width]
    unless it is on the left or the right, [height] unless it is on top or
    at the bottom.  After the first move the attached coordinates are the
    old ones plus or minus the pointer's travel on the canvas, as the
    [switch] computes them. *)
Theorem resize_moves_attached_edges_only (env : Env) (e0 : MouseEvent)
        (es : list MouseEvent) (w : World) (handle : Handle) (id : string)
        (shape : CanvasShape) :
  collab_active (store w) = false ->
  tool (store w) = tool_select ->
  isPanning (comp w) = false ->
  selectedIds (store w) = [id] ->
  find_shape (shapes (store w)) id = Some shape ->
  getResizeHandle (stageScale (store w))
                  (fst (pointer_at env (store w) e0))
                  (snd (pointer_at env (store w) e0)) shape = Some handle ->
  (exists shape',
      find_shape (shapes (store (moves env es (handleMouseDown env e0 w)))) id
      = Some shape'
      /\ free_kept handle shape shape')
  /\ forall e,
       let dx := fst (pointer_at env (store w) e)
                 - fst (pointer_at env (store w) e0) in
       let dy := snd (pointer_at env (store w) e)
                 - snd (pointer_at env (store w) e0) in
       exists shape',
         find_shape
           (shapes (store (moves env [e] (handleMouseDown env e0 w)))) id
         = Some shape'
         /\ (grabs_left handle = true ->
             shape_x shape' = shape_x shape + dx
             /\ shape_width shape'
                = Some (num_or (shape_width shape) 0 - dx))
         /\ (grabs_right handle = true ->
             shape_width shape' = Some (num_or (shape_width shape) 0 + dx))
         /\ (grabs_top handle = true ->
             shape_y shape' = shape_y shape + dy
             /\ shape_height shape'
                = Some (num_or (shape_height shape) 0 - dy))
         /\ (grabs_bottom handle = true ->
             shape_height shape'
             = Some (num_or (shape_height shape) 0 + dy)).
Proof.
  intros Hc Ht Hp Hsel Hf Hh.
  assert (Hdown : store (handleMouseDown env e0 w) = store w
                  /\ resizing_from handle id (pointer_at env (store w) e0)
                                   (handleMouseDown env e0 w)).
  { unfold handleMouseDown, resizing_from, pointer_at in *. cbv zeta.
    destruct (applySnapping _ _ _ _ _ _ _ None) as [snappedPos g].
    rewrite Ht, Hsel. cbn [selection_handle]. rewrite Hf, Hh.
    cbn. rewrite Ht, Hp, Hsel. repeat split; try reflexivity. exact Hc. }
  destruct Hdown as (Hst & Hres). split.
  - apply (resize_moves env handle id shape es _ _ shape Hres).
    + rewrite Hst. exact Hf.
    + apply free_kept_refl.
  - intros e. cbv zeta. rewrite <- Hst in Hf.
    destruct (resize_step env e _ handle id _ shape Hres Hf)
      as (_ & Hf1 & _).
    rewrite Hst in Hf1.
    unfold moves, run_events. cbn [map fold_left step].
    eexists. split; [exact Hf1|].
    destruct handle; cbn; repeat split; intros; try discriminate;
      reflexivity.
Qed.

Lemma resize_moves_attached_edges_only_witness :
  exists shape',
    find_shape
      (shapes (store (moves sample_env [click_at 160 170; click_at 180 155]
                        (handleMouseDown sample_env (click_at 150 150)
                                         box_selected)))) "a"
    = Some shape'
    /\ shape_x shape' = shape_x box_100
    /\ shape_y shape' = shape_y box_100.
Proof.
  destruct (resize_moves_attached_edges_only sample_env (click_at 150 150)
              [click_at 160 170; click_at 180 155] box_selected se "a"
              box_100) as ((shape' & Hf & _ & Hx & Hy & _) & _);
    [reflexivity | reflexivity | reflexivity | reflexivity | reflexivity | |].
  - unfold getResizeHandle, num_or. cbn. decide_Rle. cbn. decide_Rle.
    reflexivity.
  - exists shape'. split; [exact Hf|].
    split; [apply Hx|apply Hy]; reflexivity.
Defined.

Lemma find_shape_none (shapes : list CanvasShape) (id : string) :
  find_shape shapes id = None <-> ~ In id (map shape_id shapes).
Proof.
  unfold find_shape. rewrite find_none_iff. split.
  - intros H Hin. apply in_map_iff in Hin.
    destruct Hin as (shape & <- & Hin).
    specialize (H shape Hin). rewrite String.eqb_refl in H. discriminate.
  - intros H shape Hin. apply String.eqb_neq. intros <-.
    apply H, in_map, Hin.
Qed.

Lemma map_shape_id_moved (ids : list string) (x y : R)
      (shapes : list CanvasShape) :
  map shape_id (map (moved_to ids x y) shapes) = map shape_id shapes.
Proof.
  rewrite map_map. apply map_ext. intros shape. unfold moved_to.
  destruct (includes ids (shape_id shape)); reflexivity.
Qed.

Lemma drag_fold (shapes0 : list CanvasShape) (x y : R) (ids : list string) :
  forall s : CanvasStore,
    collab_active s = false ->
    map shape_id (shapes s) = map shape_id shapes0 ->
    let s' :=
      fold_left
        (fun s id =>
           match find_shape shapes0 id with
           | Some _ => collaborativeUpdateShape id (updates_xy x y) s
           | None => s
           end)
        ids s in
    shapes s' = map (moved_to ids x y) (shapes s)
    /\ paths s' = paths s
    /\ tool s' = tool s
    /\ selectedIds s' = selectedIds s
    /\ stagePos s' = stagePos s
    /\ stageScale s' = stageScale s
    /\ snapEnabled s' = snapEnabled s
    /\ collab_active s' = false.
Proof.
  induction ids as [|id ids IH]; intros s Hc Hids; cbv zeta.
  - cbn [fold_left]. split; [|repeat split; try reflexivity; exact Hc].
    symmetry. rewrite <- (map_id (shapes s)) at 2. apply map_ext.
    intros shape. reflexivity.
  - cbn [fold_left].
    destruct (find_shape shapes0 id) as [found|] eqn:Ef.
    + destruct (collaborativeUpdateShape_view id (updates_xy x y) s Hc)
        as (Hsh & Hpa & Htool & Hsel & Hpos & Hsc & Hsn & Hc1).
      set (s1 := collaborativeUpdateShape id (updates_xy x y) s) in *.
      assert (Hids1 : map shape_id (shapes s1) = map shape_id shapes0).
      { rewrite Hsh, <- Hids, map_map. apply map_ext. intros shape.
        destruct (String.eqb (shape_id shape) id); reflexivity. }
      destruct (IH s1 Hc1 Hids1) as (A1 & A2 & A3 & A4 & A5 & A6 & A7 & A8).
      rewrite A1, A2, A3, A4, A5, A6, A7, A8, Hpa, Htool, Hsel, Hpos, Hsc,
        Hsn.
      split; [|repeat split; reflexivity].
      rewrite Hsh, map_map. apply map_ext. intros shape.
      unfold moved_to, includes. cbn [existsb].
      destruct (String.eqb (shape_id shape) id) eqn:E.
      * cbn [spread_shape shape_id updates_xy u_id over]. rewrite ?E.
        cbn [orb]. destruct (existsb _ ids); reflexivity.
      * rewrite ?E. cbn [orb]. reflexivity.
    + destruct (IH s Hc Hids) as (A1 & A2).
      split; [|exact A2]. rewrite A1. apply map_ext_in. intros shape Hin.
      unfold moved_to, includes. cbn [existsb].
      assert (Hne : String.eqb (shape_id shape) id = false).
      { apply String.eqb_neq. intros <-.
        apply (proj1 (find_shape_none shapes0 (shape_id shape)) Ef).
        rewrite <- Hids. apply in_map, Hin. }
      rewrite Hne. reflexivity.
Qed.

Lemma applySnapping_off (now : string) (snapDistance stageScale : R)
      (shapes : list CanvasShape) (x y : R) (shape : option CanvasShape) :
  applySnapping now false snapDistance stageScale shapes x y shape
  = ((x, y), None).
Proof. reflexivity. Qed.

Lemma drag_step (env : Env) (e : MouseEvent) (w : World)
      (ids : list string) (offset : Point) :
  dragging_from ids offset w ->
  let pos := pointer_at env (store w) e in
  let w' := handleMouseMove env e w in
  dragging_from ids offset w'
  /\ shapes (store w')
     = map (moved_to ids (fst pos - fst offset) (snd pos - snd offset))
           (shapes (store w))
  /\ paths (store w') = paths (store w)
  /\ stagePos (store w') = stagePos (store w)
  /\ stageScale (store w') = stageScale (store w).
Proof.
  intros (Ht & Hc & Hsn & Hp & Hr & Hd & Hsel & Hne & Hsp & Hoff). cbv zeta.
  unfold handleMouseMove, pointer_at. cbv zeta.
  rewrite Ht, Hsn, Hp, Hr, Hd, Hsel, Hoff. cbn [Tool_eqb andb negb].
  destruct ids as [|id ids]; [contradiction|].
  cbn [length Nat.ltb Nat.leb].
  destruct (startPos (comp w)) as [sp|] eqn:Esp; [|contradiction].
  rewrite applySnapping_off. cbn [fst snd with_guides].
  set (pos := getCanvasCoordinates env (store w) (clientX e) (clientY e)).
  destruct (drag_fold (shapes (store w)) (fst pos - fst offset)
                      (snd pos - snd offset) (id :: ids) (store w) Hc
                      eq_refl)
    as (A1 & A2 & A3 & A4 & A5 & A6 & A7 & A8).
  unfold dragging_from. cbn [store comp].
  rewrite A1, A2, A3, A4, A5, A6, A7, A8.
  cbn. rewrite Ht, Hsn, Hp, Hr, Hd, Hsel, Hoff.
  repeat split; try reflexivity; discriminate.
Qed.

Lemma moves_snoc (env : Env) (es : list MouseEvent) (e : MouseEvent)
      (w : World) :
  moves env (es ++ [e]) w = handleMouseMove env e (moves env es w).
Proof.
  unfold moves, run_events. rewrite map_app, fold_left_app. reflexivity.
Qed.

Lemma drag_moves (env : Env) (ids : list string) (offset : Point)
      (es : list MouseEvent) :
  forall w : World,
    dragging_from ids offset w ->
    dragging_from ids offset (moves env es w)
    /\ map shape_id (shapes (store (moves env es w)))
       = map shape_id (shapes (store w))
    /\ paths (store (moves env es w)) = paths (store w)
    /\ stagePos (store (moves env es w)) = stagePos (store w)
    /\ stageScale (store (moves env es w)) = stageScale (store w)
    /\ forall k shape,
         nth_error (shapes (store w)) k = Some shape ->
         includes ids (shape_id shape) = false ->
         nth_error (shapes (store (moves env es w))) k = Some shape.
Proof.
  induction es as [|e es IH] using rev_ind; intros w Hw.
  - repeat split; try reflexivity; try apply Hw. intros k shape H _. exact H.
  - rewrite moves_snoc.
    destruct (IH w Hw) as (Hw1 & Hids & Hpa & Hpos & Hsc & Hkeep).
    destruct (drag_step env e _ ids offset Hw1) as (Hw2 & Hsh & B1 & B2 & B3).
    split; [exact Hw2|].
    rewrite Hsh, map_shape_id_moved, B1, B2, B3.
    repeat split; try assumption.
    intros k shape Hk Hi. rewrite nth_error_map, (Hkeep k shape Hk Hi).
    cbn [option_map]. unfold moved_to. rewrite Hi. reflexivity.
Qed.

Lemma moved_to_id (ids : list string) (x y : R) (shape : CanvasShape) :
  shape_id (moved_to ids x y shape) = shape_id shape.
Proof. unfold moved_to. destruct (includes _ _); reflexivity. Qed.

(** X22 (handleMouseDown, handleMouseMove): with snapping and collaboration
    switched off, a drag begun on a shape puts every selected shape, after
    each move, at the pointer's position on the canvas minus the offset
    taken at pointer-down between the pointer and the shape that was
    pressed: the pressed shape follows the pointer, and the other selected
    shapes land on top of it.  Shapes outside the selection stay as they
    were and no shape is added, removed or reordered. *)
Theorem drag_follows_pointer (env : Env) (e0 e : MouseEvent)
        (es : list MouseEvent) (w : World) (clicked : CanvasShape) :
  collab_active (store w) = false ->
  tool (store w) = tool_select ->
  snapEnabled (store w) = false ->
  isPanning (comp w) = false ->
  isResizing (comp w) = false ->
  selection_handle (shapes (store w)) (stageScale (store w))
                   (pointer_at env (store w) e0) (selectedIds (store w))
  = None ->
  findShapeAtPosition (shapes (store w))
                      (fst (pointer_at env (store w) e0))
                      (snd (pointer_at env (store w) e0)) = Some clicked ->
  let w' := moves env (es ++ [e]) (handleMouseDown env e0 w) in
  let dragOffset :=
    (fst (pointer_at env (store w) e0) - shape_x clicked,
     snd (pointer_at env (store w) e0) - shape_y clicked) in
  In (shape_id clicked) (selectedIds (store w'))
  /\ map shape_id (shapes (store w')) = map shape_id (shapes (store w))
  /\ forall shape',
       In shape' (shapes (store w')) ->
       if includes (selectedIds (store w')) (shape_id shape')
       then shape_x shape'
            = fst (pointer_at env (store w) e) - fst dragOffset
            /\ shape_y shape'
               = snd (pointer_at env (store w) e) - snd dragOffset
       else exists k, nth_error (shapes (store w)) k = Some shape'
                      /\ nth_error (shapes (store w')) k = Some shape'.
Proof.
  intros Hcol Ht Hsn Hp Hr Hh Hc. cbv zeta.
  set (pos0 := pointer_at env (store w) e0) in *.
  set (offset := (fst pos0 - shape_x clicked, snd pos0 - shape_y clicked)).
  assert (Hdown : exists ids,
             dragging_from ids offset (handleMouseDown env e0 w)
             /\ In (shape_id clicked) ids
             /\ shapes (store (handleMouseDown env e0 w)) = shapes (store w)
             /\ stagePos (store (handleMouseDown env e0 w))
                = stagePos (store w)
             /\ stageScale (store (handleMouseDown env e0 w))
                = stageScale (store w)).
  { unfold handleMouseDown, dragging_from. cbv zeta.
    destruct (applySnapping _ _ _ _ _ _ _ None) as [snappedPos g].
    fold (pointer_at env (store w) e0). fold pos0.
    rewrite Ht, Hh, Hc. cbn [comp store].
    destruct (includes (selectedIds (store w)) (shape_id clicked)) eqn:Ei;
      cbn [negb]; [|destruct (shiftKey e0)].
    - exists (selectedIds (store w)). cbn. rewrite Ht, Hsn, Hp, Hr.
      apply includes_In in Ei.
      repeat split; try reflexivity; try discriminate; try exact Ei;
        try exact Hcol.
      intros E. rewrite E in Ei. destruct Ei.
    - exists (selectedIds (store w) ++ [shape_id clicked]).
      cbn. rewrite Ht, Hsn, Hp, Hr.
      repeat split; try reflexivity; try discriminate; try exact Hcol.
      + intros E. apply app_eq_nil in E. destruct E as [_ E]. discriminate.
      + apply in_or_app. right. left. reflexivity.
    - exists [shape_id clicked]. cbn. rewrite Ht, Hsn, Hp, Hr.
      repeat split; try reflexivity; try discriminate; try exact Hcol.
      left. reflexivity. }
  destruct Hdown as (ids & Hdrag & Hin & Hsh0 & Hpos0 & Hsc0).
  rewrite moves_snoc.
  destruct (drag_moves env ids offset es _ Hdrag)
    as (Hdrag1 & Hids1 & _ & Hpos1 & Hsc1 & Hkeep).
  set (w1 := moves env es (handleMouseDown env e0 w)) in *.
  destruct (drag_step env e w1 ids offset Hdrag1)
    as (Hdrag2 & Hsh2 & _ & _ & _).
  assert (Hat : pointer_at env (store w1) e = pointer_at env (store w) e).
  { apply getCanvasCoordinates_ext; congruence. }
  rewrite Hat in Hsh2.
  destruct Hdrag2 as (_ & _ & _ & _ & _ & _ & Hsel2 & _).
  rewrite Hsel2, Hsh2. split; [exact Hin|]. split.
  - rewrite map_shape_id_moved, Hids1, Hsh0. reflexivity.
  - intros shape' Hin'. apply In_nth_error in Hin'.
    destruct Hin' as (k & Hk). rewrite nth_error_map in Hk.
    destruct (nth_error (shapes (store w1)) k) as [shape|] eqn:Ek;
      [|discriminate]. cbn [option_map] in Hk.
    injection Hk as <-. rewrite moved_to_id. unfold moved_to.
    destruct (includes ids (shape_id shape)) eqn:Ei.
    + cbn [spread_shape updates_xy shape_x shape_y u_x u_y over].
      subst offset. cbn [fst snd]. split; reflexivity.
    + assert (Hk0 : exists shape0,
                 nth_error (shapes (store w)) k = Some shape0
                 /\ shape_id shape0 = shape_id shape).
      { pose proof (f_equal (fun l => nth_error l k) Hids1) as Hn.
        cbv beta in Hn. rewrite Hsh0, !nth_error_map, Ek in Hn.
        destruct (nth_error (shapes (store w)) k) as [shape0|];
          [|discriminate].
        exists shape0. split; [reflexivity|].
        cbn in Hn. congruence. }
      destruct Hk0 as (shape0 & Hk0 & Hid0).
      assert (Hsame : shape0 = shape).
      { rewrite <- Hsh0 in Hk0. rewrite <- Hid0 in Ei.
        pose proof (Hkeep k shape0 Hk0 Ei) as Hk1. congruence. }
      subst shape0. exists k. split; [exact Hk0|].
      rewrite nth_error_map, Ek. cbn [option_map]. unfold moved_to.
      rewrite Ei. reflexivity.
Qed.

Lemma drag_follows_pointer_witness :
  map shape_id
      (shapes (store (moves sample_env ([click_at 120 130] ++ [click_at 140 110])
                        (handleMouseDown sample_env (click_at 110 110)
                           (mkWorld initial_canvas
                              (setSnapEnabled false
                                 (setTool tool_select
                                    (initial_store [] [box_100]))))))))
  = ["a"].
Proof.
  destruct (drag_follows_pointer sample_env (click_at 110 110)
              (click_at 140 110) [click_at 120 130]
              (mkWorld initial_canvas
                 (setSnapEnabled false
                    (setTool tool_select (initial_store [] [box_100]))))
              box_100) as (_ & H & _);
    [reflexivity | reflexivity | reflexivity | reflexivity | reflexivity
     | reflexivity | |].
  - unfold findShapeAtPosition, num_or. cbn. decide_Rle. cbn. decide_Rle.
    reflexivity.
  - exact H.
Defined.

Lemma stroke_step (env : Env) (e : MouseEvent) (s : CanvasStore)
      (pts : list Point) (w : World) :
  stroking s pts w ->
  stroking s (pts ++ [pointer_at env s e]) (handleMouseMove env e w).
Proof.
  intros (Hs & Ht & Hp & Hd & Hr & Hi & Hc). subst s.
  unfold handleMouseMove, pointer_at, stroking. cbv zeta.
  rewrite Ht, Hp, Hd, Hr, Hi. cbn. rewrite Hp, Hd, Hr, Hi, Hc.
  repeat split; reflexivity.
Qed.

Lemma stroke_moves (env : Env) (s : CanvasStore) (es : list MouseEvent) :
  forall (pts : list Point) (w : World),
    stroking s pts w ->
    stroking s (pts ++ map (pointer_at env s) es) (moves env es w).
Proof.
  induction es as [|e es IH]; intros pts w Hw.
  - cbn [map]. rewrite app_nil_r. exact Hw.
  - rewrite moves_cons. cbn [map].
    replace (pts ++ pointer_at env s e :: map (pointer_at env s) es)
      with ((pts ++ [pointer_at env s e]) ++ map (pointer_at env s) es)
      by (rewrite <- app_assoc; reflexivity).
    apply IH, stroke_step, Hw.
Qed.

(** X23 (handleMouseDown, handleMouseMove, handleMouseUp): a stroke with the
    pen is one store action: releasing the pointer adds one path whose
    points are the canvas positions of the press and of every move, in
    order, and the component is left with no stroke in progress. *)
Theorem pen_stroke_commits_every_sample (env env_up : Env)
        (e0 : MouseEvent) (es : list MouseEvent) (w : World) :
  tool (store w) = tool_pen ->
  isPanning (comp w) = false ->
  isDragging (comp w) = false ->
  isResizing (comp w) = false ->
  let w' := handleMouseUp env_up (moves env es (handleMouseDown env e0 w)) in
  store w'
  = collaborativeAddPath
      {| path_id := now env_up;
         path_points :=
           flatten_points (map (pointer_at env (store w)) (e0 :: es));
         path_stroke := strokeColor (store w);
         path_strokeWidth := strokeWidth (store w);
         path_fill := None;
         path_opacity := Some (opacity (store w)) |}
      (store w)
  /\ isDrawing (comp w') = false
  /\ currentPath (comp w') = [].
Proof.
  intros Ht Hp Hd Hr. cbv zeta.
  assert (Hdown : stroking (store w) [pointer_at env (store w) e0]
                           (handleMouseDown env e0 w)).
  { unfold handleMouseDown, stroking, pointer_at. cbv zeta.
    destruct (applySnapping _ _ _ _ _ _ _ None) as [snappedPos g].
    rewrite Ht. cbn. rewrite Hp, Hd, Hr. repeat split; reflexivity. }
  apply (stroke_moves env _ es) in Hdown.
  set (w1 := moves env es (handleMouseDown env e0 w)) in *.
  destruct Hdown as (Hs & _ & _ & _ & _ & Hi & Hc).
  unfold handleMouseUp. cbv zeta. rewrite Hs, Ht, Hi, Hc.
  cbn [Tool_eqb negb andb app length Nat.ltb Nat.leb].
  cbn [store comp map]. repeat split; reflexivity.
Qed.

Lemma pen_stroke_commits_every_sample_witness :
  paths (store (handleMouseUp sample_env
                  (moves sample_env [click_at 15 25; click_at 40 5]
                     (handleMouseDown sample_env (click_at 10 20) mounted))))
  = paths
      (collaborativeAddPath
         {| path_id := now sample_env;
            path_points :=
              flatten_points
                (map (pointer_at sample_env (store mounted))
                     [click_at 10 20; click_at 15 25; click_at 40 5]);
            path_stroke := strokeColor (store mounted);
            path_strokeWidth := strokeWidth (store mounted);
            path_fill := None;
            path_opacity := Some (opacity (store mounted)) |}
         (store mounted)).
Proof.
  destruct (pen_stroke_commits_every_sample sample_env sample_env
              (click_at 10 20) [click_at 15 25; click_at 40 5] mounted)
    as (H & _); [reflexivity | reflexivity | reflexivity | reflexivity |].
  rewrite H. reflexivity.
Defined.

Lemma applySnapping_same_id (now : string) (snapEnabled : bool)
      (snapDistance stageScale : R) (shapes : list CanvasShape) (x y : R)
      (a b : CanvasShape) :
  shape_id a = shape_id b ->
  applySnapping now snapEnabled snapDistance stageScale shapes x y (Some a)
  = applySnapping now snapEnabled snapDistance stageScale shapes x y (Some b).
Proof.
  intros H. unfold applySnapping, getAllSnapPoints. rewrite H. reflexivity.
Qed.

Lemma grown_from_regrow (pending cur : CanvasShape)
      (width height : option R) :
  grown_from pending cur ->
  with_geometry cur (shape_x cur) (shape_y cur) width height
  = with_geometry pending (shape_x pending) (shape_y pending) width height
  /\ shape_id cur = shape_id pending.
Proof.
  intros [->|(w0 & h0 & ->)]; split; reflexivity.
Qed.

Lemma outline_step (env : Env) (e : MouseEvent) (s : CanvasStore)
      (snapDist : R) (sp : Point) (cur : CanvasShape) (w : World) :
  outlining s snapDist sp cur w ->
  let corner :=
    fst (applySnapping (now env) (snapEnabled s) snapDist (stageScale s)
                       (shapes s) (fst (pointer_at env s e))
                       (snd (pointer_at env s e)) (Some cur)) in
  outlining s snapDist sp
            (with_geometry cur (shape_x cur) (shape_y cur)
                           (Some (fst corner - fst sp))
                           (Some (snd corner - snd sp)))
            (handleMouseMove env e w).
Proof.
  intros (Hs & Ht & Hp & Hd & Hr & Hi & Hsn & Hsp & Hc). subst s. cbv zeta.
  unfold handleMouseMove, pointer_at, outlining. cbv zeta.
  rewrite Hp, Hd, Hr, Hi, Hsn, Hsp, Hc.
  destruct (applySnapping _ _ _ _ _ _ _ (Some cur)) as [snappedPos g].
  destruct Ht as [Ht|Ht]; rewrite Ht; cbn; rewrite ?Ht, ?Hp, ?Hd, ?Hr, ?Hi;
    destruct g; cbn; rewrite ?Hp, ?Hd, ?Hr, ?Hi, ?Hsn, ?Hsp;
    repeat split; auto.
Qed.

Lemma outline_moves (env : Env) (s : CanvasStore) (snapDist : R)
      (sp : Point) (pending : CanvasShape) (es : list MouseEvent) :
  forall (cur : CanvasShape) (w : World),
    outlining s snapDist sp cur w ->
    grown_from pending cur ->
    exists cur',
      outlining s snapDist sp cur' (moves env es w)
      /\ grown_from pending cur'.
Proof.
  induction es as [|e es IH]; intros cur w Hw Hg.
  - exists cur. split; assumption.
  - rewrite moves_cons.
    apply (IH _ _ (outline_step env e s snapDist sp cur w Hw)).
    right.
    destruct (grown_from_regrow pending cur
                (Some (fst (fst (applySnapping (now env) (snapEnabled s)
                                   snapDist (stageScale s) (shapes s)
                                   (fst (pointer_at env s e))
                                   (snd (pointer_at env s e)) (Some cur)))
                       - fst sp))
                (Some (snd (fst (applySnapping (now env) (snapEnabled s)
                                   snapDist (stageScale s) (shapes s)
                                   (fst (pointer_at env s e))
                                   (snd (pointer_at env s e)) (Some cur)))
                       - snd sp)) Hg) as (E & _).
    eexists _, _. exact E.
Qed.

(** X24 (handleMouseDown, handleMouseMove, handleMouseUp): drawing a
    rectangle or a circle is at most one store action, decided by the press
    and the last move alone: the shape is placed at the snapped press
    position and its size is the snapped position of the last move minus
    the unsnapped press position; it is added if it has a size and dropped
    otherwise. *)
Theorem shape_gesture_commits_last_move (env env_up : Env)
        (e0 e : MouseEvent) (es : list MouseEvent) (w : World) :
  tool (store w) = tool_rectangle \/ tool (store w) = tool_circle ->
  isPanning (comp w) = false ->
  isDragging (comp w) = false ->
  isResizing (comp w) = false ->
  let s := store w in
  let snap p cur :=
    fst (applySnapping (now env) (snapEnabled s) (snapDistance (comp w))
                       (stageScale s) (shapes s) (fst p) (snd p) cur) in
  let pos0 := pointer_at env s e0 in
  let origin := snap pos0 None in
  let pending :=
    pending_shape env s (drawn_type (tool s)) true false origin in
  let corner := snap (pointer_at env s e) (Some pending) in
  let drawn :=
    with_geometry pending (fst origin) (snd origin)
                  (Some (fst corner - fst pos0))
                  (Some (snd corner - snd pos0)) in
  let w' :=
    handleMouseUp env_up
      (moves env (es ++ [e]) (handleMouseDown env e0 w)) in
  store w' = (if hasSize drawn then collaborativeAddShape drawn s else s)
  /\ currentShape (comp w') = None
  /\ isDrawing (comp w') = false
  /\ (snapEnabled s = false ->
      origin = pos0 /\ corner = pointer_at env s e).
Proof.
  intros Ht Hp Hd Hr. cbv zeta.
  match goal with
  | |- _ /\ _ /\ _ /\ ?Q =>
      assert (Hoff : Q);
      [intros Hoff; rewrite Hoff; cbn [applySnapping negb fst];
       split; symmetry; apply surjective_pairing|]
  end.
  rewrite <- !and_assoc. split; [|exact Hoff]. clear Hoff.
  rewrite !and_assoc.
  set (s := store w).
  set (pos0 := pointer_at env s e0).
  set (origin := fst (applySnapping (now env) (snapEnabled s)
                        (snapDistance (comp w)) (stageScale s) (shapes s)
                        (fst pos0) (snd pos0) None)).
  set (pending := pending_shape env s (drawn_type (tool s)) true false
                                origin).
  assert (Hdown : outlining s (snapDistance (comp w)) pos0 pending
                            (handleMouseDown env e0 w)).
  { subst pending origin pos0 s.
    unfold handleMouseDown, outlining, pointer_at. cbv zeta.
    destruct (applySnapping _ _ _ _ _ _ _ None) as [snappedPos g].
    destruct Ht as [Ht|Ht]; rewrite Ht; destruct g; cbn;
      rewrite ?Ht, ?Hp, ?Hd, ?Hr; repeat split; auto. }
  destruct (outline_moves env s _ pos0 pending es pending _ Hdown
                          (or_introl eq_refl)) as (cur & Hw1 & Hg).
  rewrite moves_snoc.
  pose proof (outline_step env e s _ pos0 cur _ Hw1) as Hw2.
  cbv zeta in Hw2.
  destruct (grown_from_regrow pending cur None None Hg) as (_ & Hid).
  rewrite (applySnapping_same_id _ _ _ _ _ _ _ cur pending Hid) in Hw2.
  match type of Hw2 with
  | outlining _ _ _ (with_geometry cur _ _ ?W ?H) _ =>
      destruct (grown_from_regrow pending cur W H Hg) as (E & _);
      rewrite E in Hw2
  end.
  set (w2 := handleMouseMove env e (moves env es (handleMouseDown env e0 w)))
    in *.
  destruct Hw2 as (Hs & Htool & _ & _ & _ & Hi & _ & _ & Hc).
  unfold handleMouseUp. cbv zeta. rewrite Hs, Hi, Hc.
  assert (Hx : shape_x pending = fst origin /\ shape_y pending = snd origin)
    by (split; reflexivity).
  destruct Hx as (-> & ->).
  destruct Htool as [Htool|Htool]; rewrite Htool;
    cbn [Tool_eqb negb andb]; cbn [store comp currentShape isDrawing];
    repeat split; reflexivity.
Qed.

Lemma shape_gesture_commits_last_move_witness :
  currentShape
    (comp (handleMouseUp sample_env
             (moves sample_env ([click_at 30 30] ++ [click_at 60 50])
                (handleMouseDown sample_env (click_at 10 20)
                   (mkWorld initial_canvas
                            (setTool tool_rectangle empty_store))))))
  = None.
Proof.
  apply (shape_gesture_commits_last_move sample_env sample_env
           (click_at 10 20) (click_at 60 50) [click_at 30 30]
           (mkWorld initial_canvas (setTool tool_rectangle empty_store)));
    [left; reflexivity | reflexivity | reflexivity | reflexivity].
Defined.

(* ------------------------------------------------------------------ *)
(** ** Keyboard shortcuts and image import *)
(* ------------------------------------------------------------------ *)

(** Case analysis on the key of an event against every key the handler
    compares it with. *)
Ltac key_cases k :=
  repeat match goal with
         | |- context [String.eqb k ?c] =>
             destruct (String.eqb_spec k c) as [->|?];
             cbn [String.eqb Ascii.eqb Bool.eqb orb andb negb]
         end.

(** X25 (handleKeyDown): the clear-canvas shortcut is dead code: the answer
    of the confirmation dialog never changes what a key does, and Delete or
    Backspace, with any modifiers (Ctrl+Shift+Delete included), deletes the
    selection. *)
Theorem clear_canvas_shortcut_is_dead (closure : CanvasStore)
        (e : KeyboardEvent) (s : CanvasStore) :
  (forall confirmed,
      handleKeyDown closure confirmed e s = handleKeyDown closure true e s)
  /\ (target_is_input e = false ->
      key e = "Delete" \/ key e = "Backspace" ->
      forall confirmed,
        handleKeyDown closure confirmed e s = Some (deleteSelected s)).
Proof.
  destruct e as [k c m sh t]. split.
  - intros confirmed. unfold handleKeyDown.
    cbn [key ctrlKey metaKey key_shiftKey target_is_input].
    destruct t; [reflexivity|].
    destruct (String.eqb_spec k "Delete") as [->|N].
    + cbn [String.eqb Ascii.eqb Bool.eqb orb andb negb].
      rewrite !andb_false_r. cbn [String.eqb Ascii.eqb Bool.eqb orb andb].
      reflexivity.
    + rewrite !andb_false_r. reflexivity.
  - cbn [key target_is_input]. intros -> Hk confirmed.
    unfold handleKeyDown.
    cbn [key ctrlKey metaKey key_shiftKey target_is_input].
    destruct Hk as [-> | ->];
      cbn [String.eqb Ascii.eqb Bool.eqb orb andb negb tool_shortcut];
      rewrite ?andb_false_r; cbn [orb andb];
      destruct (negb (c || m)); reflexivity.
Qed.

Lemma clear_canvas_shortcut_is_dead_witness :
  handleKeyDown one_of_each true ctrl_shift_delete one_of_each
  = Some (deleteSelected one_of_each).
Proof.
  apply (clear_canvas_shortcut_is_dead one_of_each ctrl_shift_delete
           one_of_each); [reflexivity | left; reflexivity].
Defined.

(** X26 (handleKeyDown): Ctrl+S does not toggle snapping, it writes the
    negation of the value the handler closed over: pressed again through
    the same handler it changes nothing. *)
Theorem snap_shortcut_writes_stale_negation (closure : CanvasStore)
        (confirmed : bool) (e : KeyboardEvent) (s : CanvasStore) :
  target_is_input e = false ->
  ctrlKey e || metaKey e = true ->
  key e = "s" ->
  exists s',
    handleKeyDown closure confirmed e s = Some s'
    /\ snapEnabled s' = negb (snapEnabled closure)
    /\ handleKeyDown closure confirmed e s' = Some s'.
Proof.
  destruct e as [k c m sh t].
  cbn [key ctrlKey metaKey target_is_input]. intros -> Hc ->.
  unfold handleKeyDown.
  cbn [key ctrlKey metaKey key_shiftKey target_is_input].
  rewrite Hc. cbn [String.eqb Ascii.eqb Bool.eqb orb andb negb].
  eexists. split; [reflexivity|]. split; reflexivity.
Qed.

Lemma snap_shortcut_writes_stale_negation_witness :
  exists s',
    handleKeyDown empty_store true ctrl_s empty_store = Some s'
    /\ snapEnabled s' = negb (snapEnabled empty_store)
    /\ handleKeyDown empty_store true ctrl_s s' = Some s'.
Proof.
  apply (snap_shortcut_writes_stale_negation empty_store true ctrl_s
           empty_store); reflexivity.
Defined.

(** X27 (handleKeyDown): apart from Delete, Backspace, undo and redo, no key
    changes paths, shapes or the history log, and none makes the handler
    throw. *)
Theorem other_keys_keep_model (closure : CanvasStore) (confirmed : bool)
        (e : KeyboardEvent) (s : CanvasStore) :
  editing_key e = false ->
  exists s',
    handleKeyDown closure confirmed e s = Some s' /\ same_model s s'.
Proof.
  destruct e as [k c m sh t]. unfold editing_key, handleKeyDown, same_model.
  cbn [key ctrlKey metaKey key_shiftKey target_is_input].
  destruct t; [intros _; eexists; split; [reflexivity|repeat split]|].
  unfold tool_shortcut, zoom_shortcut_ctrl, zoom_shortcut_plain.
  destruct c, m, sh; cbn [orb andb negb]; key_cases k;
    intros H; try discriminate H;
    eexists; (split; [reflexivity|repeat split; reflexivity]).
Qed.

Lemma other_keys_keep_model_witness :
  exists s',
    handleKeyDown empty_store true ctrl_s one_of_each = Some s'
    /\ same_model one_of_each s'.
Proof.
  apply (other_keys_keep_model empty_store true ctrl_s one_of_each).
  reflexivity.
Defined.

(** X28 (handleImagesClick): an image of positive size is added as one new
    image shape.  Its size fits into 400 by 300 and is not larger than the
    image; it is the image's own size when that fits, and otherwise the
    width is 400 or the height is 300.  Its origin is half the window's
    size minus half the shape's, as [centerX] and [centerY] compute it. *)
Theorem imported_image_fits (id src : string) (imgWidth imgHeight : R)
        (innerWidth innerHeight : R) (s : CanvasStore) :
  0 < imgWidth ->
  0 < imgHeight ->
  exists image,
    shapes (img_onload id src imgWidth imgHeight innerWidth innerHeight s)
    = shapes s ++ [image]
    /\ shape_type image = st_image
    /\ exists width height,
        shape_width image = Some width
        /\ shape_height image = Some height
        /\ 0 < width <= 400
        /\ 0 < height <= 300
        /\ width <= imgWidth
        /\ height <= imgHeight
        /\ (imgWidth <= 400 -> imgHeight <= 300 ->
            width = imgWidth /\ height = imgHeight)
        /\ (400 < imgWidth \/ 300 < imgHeight ->
            width = 400 \/ height = 300)
        /\ shape_x image = (innerWidth - width) / 2
        /\ shape_y image = (innerHeight - height) / 2.
Proof.
  intros Hw Hh.
  assert (Hfit : exists width height,
             fitted_size imgWidth imgHeight = (width, height)
             /\ 0 < width <= 400 /\ 0 < height <= 300
             /\ width <= imgWidth
             /\ height <= imgHeight
             /\ (imgWidth <= 400 -> imgHeight <= 300 ->
                 width = imgWidth /\ height = imgHeight)
             /\ (400 < imgWidth \/ 300 < imgHeight ->
                 width = 400 \/ height = 300)).
  { unfold fitted_size. cbv zeta.
    destruct (Rlt_dec 400 imgWidth) as [Lw|Gw].
    - rewrite Rlt_b_true by exact Lw.
      assert (Hq : 0 < imgHeight * 400 / imgWidth).
      { apply Rdiv_lt_0_compat; lra. }
      assert (Hq1 : imgHeight * 400 / imgWidth < imgHeight).
      { apply (Rmult_lt_reg_r imgWidth); [exact Hw|].
        unfold Rdiv. rewrite Rmult_assoc, Rinv_l by lra. nra. }
      destruct (Rlt_dec 300 (imgHeight * 400 / imgWidth)) as [Lh|Gh].
      + rewrite Rlt_b_true by exact Lh.
        eexists _, _. split; [reflexivity|].
        assert (Hr : 0 < 400 * 300 / (imgHeight * 400 / imgWidth)).
        { apply Rdiv_lt_0_compat; lra. }
        assert (Hr4 : 400 * 300 / (imgHeight * 400 / imgWidth) < 400).
        { apply (Rmult_lt_reg_r (imgHeight * 400 / imgWidth)); [exact Hq|].
          unfold Rdiv at 1. rewrite Rmult_assoc, Rinv_l by lra. lra. }
        repeat split; try lra; intros _; right; reflexivity.
      + rewrite Rlt_b_false by lra.
        eexists _, _. split; [reflexivity|].
        repeat split; try lra; intros _; left; reflexivity.
    - rewrite Rlt_b_false by lra.
      destruct (Rlt_dec 300 imgHeight) as [Lh|Gh].
      + rewrite Rlt_b_true by exact Lh.
        eexists _, _. split; [reflexivity|].
        assert (Hr : 0 < imgWidth * 300 / imgHeight).
        { apply Rdiv_lt_0_compat; lra. }
        assert (Hr4 : imgWidth * 300 / imgHeight < imgWidth).
        { apply (Rmult_lt_reg_r imgHeight); [exact Hh|].
          unfold Rdiv. rewrite Rmult_assoc, Rinv_l by lra. nra. }
        repeat split; try lra; intros _; right; reflexivity.
      + rewrite Rlt_b_false by lra.
        eexists _, _. split; [reflexivity|]. repeat split; lra. }
  destruct Hfit as (width & height & Ef & Hwr & Hhr & Hle & Hle' & Hsame
                    & Hcap).
  unfold img_onload. rewrite Ef. unfold importImage, addShape. cbv zeta.
  rewrite saveToHistory_shapes. cbn [shapes set_shapes].
  eexists. split; [reflexivity|]. cbn [shape_type]. split; [reflexivity|].
  exists width, height. cbn [shape_width shape_height shape_x shape_y].
  repeat split; try lra; try assumption; try reflexivity;
    try (apply Hsame; assumption).
Qed.

Lemma imported_image_fits_witness :
  exists image,
    shapes (img_onload "img" "data:" 800 300 1000 700 empty_store)
    = shapes empty_store ++ [image]
    /\ shape_type image = st_image.
Proof.
  destruct (imported_image_fits "img" "data:" 800 300 1000 700 empty_store)
    as (image & H1 & H2 & _); [lra | lra |].
  exists image. split; assumption.
Defined.

(* ------------------------------------------------------------------ *)
(** ** The properties panel *)
(* ------------------------------------------------------------------ *)

Lemma update_each_snoc (ids : list string) (id : string)
      (u : ShapeUpdates) (s : CanvasStore) :
  update_each (ids ++ [id]) u s
  = collaborativeUpdateShape id u (update_each ids u s).
Proof. unfold update_each. rewrite fold_left_app. reflexivity. Qed.

Lemma synced_cursor_ok (s : CanvasStore) : synced s -> cursor_ok s.
Proof.
  unfold synced, cursor_ok, nth_Z. intros H.
  destruct (historyIndex s <? 0)%Z eqn:E; [discriminate|].
  apply Z.ltb_ge in E.
  assert (Z.to_nat (historyIndex s) < length (history s))%nat
    by (apply nth_error_Some; rewrite H; discriminate).
  lia.
Qed.

Lemma update_each_synced (u : ShapeUpdates) (ids : list string)
      (s : CanvasStore) :
  collab_active s = false ->
  synced s ->
  collab_active (update_each ids u s) = false
  /\ synced (update_each ids u s).
Proof.
  intros Hc Hs. induction ids as [|id ids IH] using rev_ind.
  - split; assumption.
  - rewrite update_each_snoc. destruct IH as (Hc1 & Hs1).
    unfold collaborativeUpdateShape. rewrite Hc1. unfold updateShape.
    split.
    + rewrite saveToHistory_collab. exact Hc1.
    + apply saveToHistory_synced. apply synced_cursor_ok in Hs1.
      exact Hs1.
Qed.

(** X29 (the change handlers of the properties panel): a change to a
    selection of several shapes is undone one shape at a time: one [undo]
    takes the change back from the last selected id only. *)
Theorem panel_change_is_undone_shape_by_shape (ids : list string)
        (id : string) (updates : ShapeUpdates) (s : CanvasStore) :
  collab_active s = false ->
  synced s ->
  exists s',
    undo (update_each (ids ++ [id]) updates s) = Some s'
    /\ shapes s' = shapes (update_each ids updates s)
    /\ paths s' = paths (update_each ids updates s).
Proof.
  intros Hc Hs.
  destruct (update_each_synced updates ids s Hc Hs) as (Hc1 & Hs1).
  rewrite update_each_snoc. unfold collaborativeUpdateShape.
  rewrite Hc1. unfold updateShape.
  match goal with
  | |- context [saveToHistory ?t] =>
      destruct (commit_then_undo (update_each ids updates s) t Hs1
                                 eq_refl eq_refl)
        as (s' & _ & Hu & Hp & Hsh & _)
  end.
  exists s'. repeat split; assumption.
Qed.

Lemma panel_change_is_undone_shape_by_shape_witness :
  exists s',
    undo (handleStrokeWidthChange (["a"] ++ ["c"]) 8 two_selected) = Some s'
    /\ shapes s' = shapes (handleStrokeWidthChange ["a"] 8 two_selected)
    /\ paths s' = paths (handleStrokeWidthChange ["a"] 8 two_selected).
Proof.
  apply (panel_change_is_undone_shape_by_shape ["a"] "c"
           (updates_strokeWidth 8) two_selected); reflexivity.
Defined.

Lemma add_each_shapes (copies : list CanvasShape) :
  forall s : CanvasStore,
    collab_active s = false ->
    let s' :=
      fold_left (fun s newShape => collaborativeAddShape newShape s)
                copies s in
    shapes s' = shapes s ++ copies
    /\ paths s' = paths s
    /\ selectedIds s' = selectedIds s.
Proof.
  induction copies as [|c copies IH] using rev_ind; intros s Hc; cbv zeta.
  - cbn. rewrite app_nil_r. repeat split; reflexivity.
  - rewrite fold_left_app. cbn [fold_left].
    destruct (IH s Hc) as (A1 & A2 & A3).
    set (s1 := fold_left _ copies s) in *.
    assert (Hc1 : collab_active s1 = false).
    { subst s1. clear A1 A2 A3 IH. revert s Hc.
      induction copies as [|d copies IH]; intros s Hc; [exact Hc|].
      cbn [fold_left]. apply IH. unfold collaborativeAddShape.
      rewrite Hc. unfold addShape. rewrite saveToHistory_collab. exact Hc. }
    unfold collaborativeAddShape. rewrite Hc1. unfold addShape.
    rewrite saveToHistory_shapes, saveToHistory_paths.
    destruct (saveToHistory_view (set_shapes s1 (shapes s1 ++ [c])))
      as (_ & -> & _).
    cbn [shapes paths selectedIds set_shapes].
    rewrite A1, A2, A3, <- app_assoc. repeat split; reflexivity.
Qed.

Lemma mapi_from_nth {A B : Type} (f : A -> nat -> B) (l : list A)
      (k i : nat) (d : A) (d' : B) :
  (i < length l)%nat ->
  nth i (mapi_from f k l) d' = f (nth i l d) (k + i)%nat.
Proof.
  revert k i. induction l as [|a l IH]; intros k i H; [cbn in H; lia|].
  destruct i as [|i]; cbn [mapi_from nth].
  - rewrite Nat.add_0_r. reflexivity.
  - rewrite IH by (cbn in H; lia). f_equal. lia.
Qed.

(** X30 (duplicateSelected): with collaboration off, duplicating appends one
    copy per selected shape, in the order of the shapes on the canvas.  A
    copy has the new id, [x + 20] and [y + 20] of its original, and every
    other field (type, size, radius, text and font, colours, stroke,
    points, opacity, rotation, image source and filter) equal to its
    original's.  The originals stay, and the paths and the selection are
    unchanged (the selection is not moved to the copies). *)
Theorem duplicateSelected_appends_copies (ids : list string)
        (newId : nat -> string) (s : CanvasStore) :
  collab_active s = false ->
  let originals :=
    filter (fun shape => includes ids (shape_id shape))
           (shapes s) in
  let s' := duplicateSelected ids (shapes s) newId s in
  exists copies,
    shapes s' = shapes s ++ copies
    /\ length copies = length originals
    /\ (forall k original,
           nth_error originals k = Some original ->
           nth_error copies k
           = Some
               {| shape_id := newId k;
                  shape_type := shape_type original;
                  shape_x := shape_x original + 20;
                  shape_y := shape_y original + 20;
                  shape_width := shape_width original;
                  shape_height := shape_height original;
                  shape_radius := shape_radius original;
                  shape_text := shape_text original;
                  shape_fontSize := shape_fontSize original;
                  shape_fontFamily := shape_fontFamily original;
                  shape_backgroundColor := shape_backgroundColor original;
                  shape_isbold := shape_isbold original;
                  shape_isitalic := shape_isitalic original;
                  shape_isunderline := shape_isunderline original;
                  shape_isstrikethrough := shape_isstrikethrough original;
                  shape_points := shape_points original;
                  shape_stroke := shape_stroke original;
                  shape_strokeWidth := shape_strokeWidth original;
                  shape_fill := shape_fill original;
                  shape_opacity := shape_opacity original;
                  shape_rotation := shape_rotation original;
                  shape_src := shape_src original;
                  shape_filter := shape_filter original |})
    /\ paths s' = paths s
    /\ selectedIds s' = selectedIds s.
Proof.
  intros Hc. cbv zeta. unfold duplicateSelected. cbv zeta.
  set (originals := filter _ (shapes s)).
  destruct (add_each_shapes
              (mapi (fun shape k => duplicate_of shape (newId k)) originals)
              s Hc) as (A1 & A2 & A3).
  eexists. split; [exact A1|]. split; [apply mapi_from_length|].
  split; [|split; assumption].
  intros k original Hk.
  assert (Hlt : (k < length originals)%nat)
    by (apply nth_error_Some; rewrite Hk; discriminate).
  rewrite (nth_error_nth' _ original)
    by (unfold mapi; rewrite mapi_from_length; exact Hlt).
  unfold mapi. rewrite (mapi_from_nth _ originals 0 k original) by exact Hlt.
  rewrite (nth_error_nth _ _ original Hk). reflexivity.
Qed.

Lemma duplicateSelected_appends_copies_witness :
  exists copies,
    shapes (duplicateSelected ["a"; "c"] (shapes two_selected)
                              (fun k => "copy") two_selected)
    = shapes two_selected ++ copies
    /\ length copies = 2%nat.
Proof.
  destruct (duplicateSelected_appends_copies ["a"; "c"] (fun k => "copy")
              two_selected eq_refl) as (copies & H1 & H2 & _).
  exists copies. split; [exact H1|exact H2].
Defined.
